(** * Budgeteer notification toasts ([static/js/popup.js])

    A shallow embedding of the notification helper of Budgeteer: the four
    [show*] entry points of [window.BudgeteerNotifications], the internal
    [_showToast], the listener that removes a toast once it is hidden, and
    the [DOMContentLoaded] handler that converts hidden flash alerts into
    toasts.

    The script runs against a browser.  What it uses of the browser is
    modelled here as far as the script can observe it:
    - strings are sequences of UTF-16 code units, as in JavaScript;
    - the page is the forest of child nodes of [document.body]; element
      nodes carry an identity, since the script keeps references to nodes
      ([toast], [alert]) across mutations of the page;
    - nodes that were removed from the page stay alive as detached trees;
    - [innerHTML] runs the host's HTML fragment parser.  The script's
      semantics is parametric in that parser; a reference parser for plain
      markup (tags, quoted attributes, character data, the five basic named
      character references) is given for the statements that talk about the
      rendered text;
    - faults (a JavaScript exception) leave the mutations done so far in
      place and stop the running handler. *)

From Stdlib Require Import List NArith Arith Bool String Ascii Lia Permutation.
Import ListNotations.

Set Warnings "-register-all".

(* ================================================================= *)
(** ** JavaScript strings *)

(** A string is its sequence of UTF-16 code units. *)
Definition jsstring := list N.

(** The code units of an ASCII literal of the script. *)
Definition js (s : string) : jsstring :=
  map N_of_ascii (list_ascii_of_string s).
Arguments js s%_string.

(** The double quote and the line feed, which the literals above cannot hold. *)
Definition dquote : jsstring := [34%N].
Definition newline : jsstring := [10%N].

Fixpoint jseqb (a b : jsstring) : bool :=
  match a, b with
  | [], [] => true
  | x :: a', y :: b' => N.eqb x y && jseqb a' b'
  | _, _ => false
  end.

(** WhiteSpace and LineTerminator code points of ECMAScript, the ones
    [String.prototype.trim] strips.  All of them are single code units. *)
Definition isWhiteSpace (c : N) : bool :=
  ((9 <=? c) && (c <=? 13) || (c =? 32) || (c =? 160) || (c =? 5760)
   || (8192 <=? c) && (c <=? 8202) || (c =? 8232) || (c =? 8233)
   || (c =? 8239) || (c =? 8287) || (c =? 12288) || (c =? 65279))%N.

Fixpoint trimStart (s : jsstring) : jsstring :=
  match s with
  | c :: s' => if isWhiteSpace c then trimStart s' else s
  | [] => []
  end.

Definition trimEnd (s : jsstring) : jsstring := rev (trimStart (rev s)).

(** [s.trim()] *)
Definition trim (s : jsstring) : jsstring := trimEnd (trimStart s).

(** [s.charAt(0)]: the first code unit as a string, empty on the empty string. *)
Definition charAt0 (s : jsstring) : jsstring :=
  match s with
  | c :: _ => [c]
  | [] => []
  end.

(** [s.slice(1)] *)
Definition slice1 (s : jsstring) : jsstring := tl s.

Definition isLowerAlpha (c : N) : bool := ((97 <=? c) && (c <=? 122))%N.
Definition isUpperAlpha (c : N) : bool := ((65 <=? c) && (c <=? 90))%N.
Definition isAlpha (c : N) : bool := isLowerAlpha c || isUpperAlpha c.
Definition isDigit (c : N) : bool := ((48 <=? c) && (c <=? 57))%N.

(** [s.toUpperCase()] on the ASCII letters (the script applies it to the
    first letter of one of its four category names only). *)
Definition toUpperCase (s : jsstring) : jsstring :=
  map (fun c => if isLowerAlpha c then (c - 32)%N else c) s.

Definition toAsciiLower (c : N) : N :=
  if isUpperAlpha c then (c + 32)%N else c.

(* ================================================================= *)
(** ** The DOM *)

Definition attribute := (jsstring * jsstring)%type.

(** Nodes of the page.  [id] is the identity of an element object. *)
Inductive node :=
| Text (data : jsstring)
| Element (id : nat) (tagName : jsstring) (attributes : list attribute)
          (childNodes : list node).

(** What the fragment parser builds, before the elements get an identity. *)
Inductive html :=
| HText (data : jsstring)
| HElement (tagName : jsstring) (attributes : list attribute)
           (childNodes : list html).

Fixpoint getAttribute (name : jsstring) (attrs : list attribute) : option jsstring :=
  match attrs with
  | [] => None
  | (k, v) :: attrs' => if jseqb k name then Some v else getAttribute name attrs'
  end.

(** [el.className]: the value of the class attribute, empty without one. *)
Definition classNameOf (attrs : list attribute) : jsstring :=
  match getAttribute (js "class") attrs with
  | Some v => v
  | None => []
  end.

(** ASCII whitespace of the DOM standard, which separates class tokens. *)
Definition isAsciiWhitespace (c : N) : bool :=
  ((c =? 9) || (c =? 10) || (c =? 12) || (c =? 13) || (c =? 32))%N.

Definition flushToken (cur : jsstring) : list jsstring :=
  match cur with
  | [] => []
  | _ => [cur]
  end.

Fixpoint splitTokens (s cur : jsstring) : list jsstring :=
  match s with
  | [] => flushToken cur
  | c :: s' =>
      if isAsciiWhitespace c then flushToken cur ++ splitTokens s' []
      else splitTokens s' (cur ++ [c])
  end.

(** [el.classList] *)
Definition classList (attrs : list attribute) : list jsstring :=
  splitTokens (classNameOf attrs) [].

(** [classList.contains(token)] *)
Definition contains (tokens : list jsstring) (token : jsstring) : bool :=
  existsb (jseqb token) tokens.

(** A compound class selector such as [.alert.d-none] matches an element
    that carries every class of the selector. *)
Definition matchesClasses (sel : list jsstring) (attrs : list attribute) : bool :=
  forallb (contains (classList attrs)) sel.

(** [node.textContent] *)
Fixpoint textContent (n : node) : jsstring :=
  match n with
  | Text d => d
  | Element _ _ _ kids => flat_map textContent kids
  end.

(** The elements below (and including) [n] that match [sel], in tree order. *)
Fixpoint selectAll (sel : list jsstring) (n : node) : list nat :=
  match n with
  | Text _ => []
  | Element i _ attrs kids =>
      (if matchesClasses sel attrs then [i] else [])
        ++ flat_map (selectAll sel) kids
  end.

(** The identities of the elements of a tree, in tree order. *)
Fixpoint ids (n : node) : list nat :=
  match n with
  | Text _ => []
  | Element i _ _ kids => i :: flat_map ids kids
  end.

Definition firstSome {A} (a b : option A) : option A :=
  match a with
  | Some _ => a
  | None => b
  end.

(** The element object with identity [i] inside a tree. *)
Fixpoint findNode (i : nat) (n : node) : option node :=
  match n with
  | Text _ => None
  | Element j _ _ kids =>
      if Nat.eqb i j then Some n
      else fold_right (fun k r => firstSome (findNode i k) r) None kids
  end.

Definition findIn (i : nat) (forest : list node) : option node :=
  fold_right (fun k r => firstSome (findNode i k) r) None forest.

(** A tree without the element [i] (and what is below it). *)
Fixpoint prune (i : nat) (n : node) : list node :=
  match n with
  | Text d => [Text d]
  | Element j t a kids =>
      if Nat.eqb i j then [] else [Element j t a (flat_map (prune i) kids)]
  end.

(** The same below a root: a root has no parent to be removed from. *)
Definition pruneBelow (i : nat) (root : node) : node :=
  match root with
  | Text d => Text d
  | Element j t a kids => Element j t a (flat_map (prune i) kids)
  end.

(** [el.attributes]; a text node has none. *)
Definition attributesOf (n : node) : list attribute :=
  match n with
  | Text _ => []
  | Element _ _ a _ => a
  end.

Definition childNodesOf (n : node) : list node :=
  match n with
  | Text _ => []
  | Element _ _ _ kids => kids
  end.

(** [parent.appendChild(x)] where [parent] is the element [c] of the tree. *)
Fixpoint appendTo (c : nat) (x : node) (n : node) : node :=
  match n with
  | Text d => Text d
  | Element j t a kids =>
      let kids' := map (appendTo c x) kids in
      Element j t a (if Nat.eqb j c then kids' ++ [x] else kids')
  end.

(** The elements [i] of a tree, outermost ones, with what is below them. *)
Fixpoint cuts (i : nat) (n : node) : list node :=
  match n with
  | Text _ => []
  | Element j _ _ kids =>
      if Nat.eqb i j then [n] else flat_map (cuts i) kids
  end.

(** The first element of a tree that matches [sel], in tree order. *)
Fixpoint firstMatch (sel : list jsstring) (n : node) : option node :=
  match n with
  | Text _ => None
  | Element _ _ attrs kids =>
      if matchesClasses sel attrs then Some n
      else fold_right (fun k r => firstSome (firstMatch sel k) r) None kids
  end.

(** Elements created by the parser get fresh identities, in tree order. *)
Fixpoint instantiate (h : html) (next : nat) : node * nat :=
  match h with
  | HText d => (Text d, next)
  | HElement t a kids =>
      let r := (fix all (l : list html) (n : nat) : list node * nat :=
                  match l with
                  | [] => ([], n)
                  | k :: l' =>
                      let r1 := instantiate k n in
                      let r2 := all l' (snd r1) in
                      (fst r1 :: fst r2, snd r2)
                  end) kids (S next) in
      (Element next t a (fst r), snd r)
  end.

Fixpoint instantiateAll (hs : list html) (next : nat) : list node * nat :=
  match hs with
  | [] => ([], next)
  | k :: hs' =>
      let r1 := instantiate k next in
      let r2 := instantiateAll hs' (snd r1) in
      (fst r1 :: fst r2, snd r2)
  end.

(** The number of elements of a parsed tree. *)
Fixpoint elements (h : html) : nat :=
  match h with
  | HText _ => 0
  | HElement _ _ kids => S (fold_right (fun k r => elements k + r) 0 kids)
  end.

Definition elementsOf (hs : list html) : nat :=
  fold_right (fun k r => elements k + r) 0 hs.

(* ================================================================= *)
(** ** A reference HTML fragment parser

    The tokenizer follows the states of the HTML standard for the markup it
    covers: character data, start and end tags, attributes (double-quoted,
    single-quoted, unquoted), the named character references [amp], [lt],
    [gt], [quot] and [apos] in character data.  Carriage returns are
    normalised to line feeds and NUL is dropped from character data.
    Comments, doctypes, raw-text elements, foreign content and the implied
    end tags of the standard are outside of it. *)

Inductive token :=
| TChars (s : jsstring)
| TStart (tag : jsstring) (attrs : list attribute)
| TEnd (tag : jsstring).

(** A tag being read. *)
Record tagAcc := {
  closing : bool;
  tname : jsstring;
  tattrs : list attribute
}.

Inductive lexMode :=
| Data
| CharRef (name : jsstring)
| TagOpen
| EndTagOpen
| BogusComment
| TagName (t : tagAcc)
| BeforeAttrName (t : tagAcc)
| AttrName (t : tagAcc) (name : jsstring)
| AfterAttrName (t : tagAcc) (name : jsstring)
| BeforeAttrValue (t : tagAcc) (name : jsstring)
| AttrValue (t : tagAcc) (name : jsstring) (quote : option N) (value : jsstring)
| AfterAttrValue (t : tagAcc)
| SelfClosing (t : tagAcc).

Record lexer := {
  mode : lexMode;
  pending : jsstring;      (* the character data read since the last tag *)
  emitted : list token     (* the tokens so far *)
}.

Definition withMode (m : lexMode) (l : lexer) : lexer :=
  {| mode := m; pending := pending l; emitted := emitted l |}.

Definition pushChars (s : jsstring) (l : lexer) : lexer :=
  {| mode := Data; pending := pending l ++ s; emitted := emitted l |}.

Definition flushChars (l : lexer) : list token :=
  match pending l with
  | [] => emitted l
  | c :: s => emitted l ++ [TChars (c :: s)]
  end.

(** The first attribute of a name wins. *)
Definition addAttr (name value : jsstring) (t : tagAcc) : tagAcc :=
  {| closing := closing t;
     tname := tname t;
     tattrs := match getAttribute name (tattrs t) with
               | Some _ => tattrs t
               | None => tattrs t ++ [(name, value)]
               end |}.

Definition addChar (c : N) (t : tagAcc) : tagAcc :=
  {| closing := closing t; tname := tname t ++ [toAsciiLower c]; tattrs := tattrs t |}.

Definition emitTag (t : tagAcc) (l : lexer) : lexer :=
  {| mode := Data;
     pending := [];
     emitted := flushChars l
                  ++ [if closing t then TEnd (tname t) else TStart (tname t) (tattrs t)] |}.

Definition namedCharRef (name : jsstring) : option jsstring :=
  if jseqb name (js "amp") then Some (js "&")
  else if jseqb name (js "lt") then Some (js "<")
  else if jseqb name (js "gt") then Some (js ">")
  else if jseqb name (js "quot") then Some dquote
  else if jseqb name (js "apos") then Some (js "'")
  else None.

Definition lexData (c : N) (l : lexer) : lexer :=
  if (c =? 60)%N then withMode TagOpen l
  else if (c =? 38)%N then withMode (CharRef []) l
  else if (c =? 0)%N then l
  else pushChars [c] l.

Definition lexBeforeAttrName (t : tagAcc) (c : N) (l : lexer) : lexer :=
  if isAsciiWhitespace c then withMode (BeforeAttrName t) l
  else if (c =? 47)%N then withMode (SelfClosing t) l
  else if (c =? 62)%N then emitTag t l
  else withMode (AttrName t [toAsciiLower c]) l.

Definition lexStep (l : lexer) (c : N) : lexer :=
  match mode l with
  | Data => lexData c l
  | CharRef name =>
      if isAlpha c || isDigit c then withMode (CharRef (name ++ [c])) l
      else if (c =? 59)%N then
        match namedCharRef name with
        | Some s => pushChars s l
        | None => pushChars (js "&" ++ name ++ js ";") l
        end
      else lexData c (pushChars (js "&" ++ name) l)
  | TagOpen =>
      if (c =? 47)%N then withMode EndTagOpen l
      else if isAlpha c then
        withMode (TagName {| closing := false; tname := [toAsciiLower c]; tattrs := [] |}) l
      else lexData c (pushChars (js "<") l)
  | EndTagOpen =>
      if isAlpha c then
        withMode (TagName {| closing := true; tname := [toAsciiLower c]; tattrs := [] |}) l
      else if (c =? 62)%N then withMode Data l
      else withMode BogusComment l
  | BogusComment =>
      if (c =? 62)%N then withMode Data l else l
  | TagName t =>
      if isAsciiWhitespace c then withMode (BeforeAttrName t) l
      else if (c =? 47)%N then withMode (SelfClosing t) l
      else if (c =? 62)%N then emitTag t l
      else withMode (TagName (addChar c t)) l
  | BeforeAttrName t => lexBeforeAttrName t c l
  | AttrName t name =>
      if isAsciiWhitespace c then withMode (AfterAttrName t name) l
      else if (c =? 47)%N then withMode (SelfClosing (addAttr name [] t)) l
      else if (c =? 61)%N then withMode (BeforeAttrValue t name) l
      else if (c =? 62)%N then emitTag (addAttr name [] t) l
      else withMode (AttrName t (name ++ [toAsciiLower c])) l
  | AfterAttrName t name =>
      if isAsciiWhitespace c then l
      else if (c =? 47)%N then withMode (SelfClosing (addAttr name [] t)) l
      else if (c =? 61)%N then withMode (BeforeAttrValue t name) l
      else if (c =? 62)%N then emitTag (addAttr name [] t) l
      else withMode (AttrName (addAttr name [] t) [toAsciiLower c]) l
  | BeforeAttrValue t name =>
      if isAsciiWhitespace c then l
      else if (c =? 34)%N || (c =? 39)%N then withMode (AttrValue t name (Some c) []) l
      else if (c =? 62)%N then emitTag (addAttr name [] t) l
      else withMode (AttrValue t name None [c]) l
  | AttrValue t name (Some q) value =>
      if (c =? q)%N then withMode (AfterAttrValue (addAttr name value t)) l
      else withMode (AttrValue t name (Some q) (value ++ [c])) l
  | AttrValue t name None value =>
      if isAsciiWhitespace c then withMode (BeforeAttrName (addAttr name value t)) l
      else if (c =? 62)%N then emitTag (addAttr name value t) l
      else withMode (AttrValue t name None (value ++ [c])) l
  | AfterAttrValue t => lexBeforeAttrName t c l
  | SelfClosing t =>
      if (c =? 62)%N then emitTag t l else lexBeforeAttrName t c l
  end.

(** At the end of the input an unfinished tag is dropped; an unfinished
    reference or a lone [<] is character data. *)
Definition lexEnd (l : lexer) : list token :=
  match mode l with
  | CharRef name => flushChars (pushChars (js "&" ++ name) l)
  | TagOpen => flushChars (pushChars (js "<") l)
  | EndTagOpen => flushChars (pushChars (js "</") l)
  | _ => flushChars l
  end.

(** CR LF and CR become LF before tokenization. *)
Fixpoint normalizeNewlines (s : jsstring) : jsstring :=
  match s with
  | [] => []
  | c :: s' =>
      if (c =? 13)%N then
        match s' with
        | d :: s'' => if (d =? 10)%N then normalizeNewlines s' else 10%N :: normalizeNewlines s'
        | [] => [10%N]
        end
      else c :: normalizeNewlines s'
  end.

Definition tokenize (s : jsstring) : list token :=
  lexEnd (fold_left lexStep (normalizeNewlines s)
                    {| mode := Data; pending := []; emitted := [] |}).

(** *** Tree construction *)

(** An open element: its tag, attributes and the children built so far. *)
Record frame := {
  ftag : jsstring;
  fattrs : list attribute;
  fkids : list html
}.

Record builder := {
  openElems : list frame;       (* innermost first *)
  roots : list html        (* the children of the fragment *)
}.

Definition appendText (s : jsstring) (kids : list html) : list html :=
  match rev kids with
  | HText d :: before => rev before ++ [HText (d ++ s)]
  | _ => kids ++ [HText s]
  end.

Definition updateCurrent (f : list html -> list html) (b : builder) : builder :=
  match openElems b with
  | fr :: rest =>
      {| openElems := {| ftag := ftag fr; fattrs := fattrs fr; fkids := f (fkids fr) |} :: rest;
         roots := roots b |}
  | [] => {| openElems := []; roots := f (roots b) |}
  end.

Definition isVoid (tag : jsstring) : bool :=
  existsb (jseqb tag)
    [js "area"; js "base"; js "br"; js "col"; js "embed"; js "hr"; js "img";
     js "input"; js "link"; js "meta"; js "source"; js "track"; js "wbr"].

(** Closes the innermost open element. *)
Definition popFrame (b : builder) : builder :=
  match openElems b with
  | fr :: rest =>
      updateCurrent (fun kids => kids ++ [HElement (ftag fr) (fattrs fr) (fkids fr)])
                    {| openElems := rest; roots := roots b |}
  | [] => b
  end.

(** Closes open elements up to and including the innermost [tag]. *)
Fixpoint closeUpTo (tag : jsstring) (n : nat) (b : builder) : builder :=
  match n with
  | O => b
  | S n' =>
      match openElems b with
      | fr :: _ =>
          if jseqb (ftag fr) tag then popFrame b else closeUpTo tag n' (popFrame b)
      | [] => b
      end
  end.

Definition buildStep (b : builder) (t : token) : builder :=
  match t with
  | TChars s => updateCurrent (appendText s) b
  | TStart tag attrs =>
      if isVoid tag then updateCurrent (fun kids => kids ++ [HElement tag attrs []]) b
      else {| openElems := {| ftag := tag; fattrs := attrs; fkids := [] |} :: openElems b;
              roots := roots b |}
  | TEnd tag =>
      if existsb (fun fr => jseqb (ftag fr) tag) (openElems b)
      then closeUpTo tag (List.length (openElems b)) b
      else b
  end.

Fixpoint closeAll (n : nat) (b : builder) : builder :=
  match n with
  | O => b
  | S n' => closeAll n' (popFrame b)
  end.

Definition buildTree (ts : list token) : list html :=
  let b := fold_left buildStep ts {| openElems := []; roots := [] |} in
  roots (closeAll (List.length (openElems b)) b).

(** The children an element gets from [el.innerHTML = s]. *)
Definition parseFragment (s : jsstring) : list html := buildTree (tokenize s).

(* ================================================================= *)
(** ** The window: page, host and the script's global *)

(** The own properties of the object literal of the script. *)
Inductive member :=
| PShowSuccess
| PShowWarning
| PShowDanger
| PShowInfo
| PShowToast.

(** An object built by the script, by the properties it still has. *)
Definition object := list member.

(** What the identifier [bootstrap] resolves to in the host. *)
Inductive bootstrapGlobal :=
| Unbound          (* no global of that name *)
| WithoutToast     (* a value that yields no [Toast] constructor, as after
                      [window.bootstrap = {}] *)
| WithToast.       (* Bootstrap 5: [bootstrap.Toast] builds a widget *)

Record window := {
  body : list node;              (* the child nodes of document.body *)
  detached : list node;          (* roots of the trees outside the page *)
  next_id : nat;                 (* the identity of the next element object *)
  bootstrap : bootstrapGlobal;   (* the global [bootstrap] of the host *)
  notifications : option object; (* window.BudgeteerNotifications *)
  shown : list nat;              (* toasts whose widget was asked to show *)
  hiddenListeners : list nat     (* elements with a 'hidden.bs.toast' listener
                                    that removes them *)
}.

(** The host defines [bootstrap.Toast]. *)
Definition hasBootstrapToast (w : window) : bool :=
  match bootstrap w with
  | WithToast => true
  | _ => false
  end.

Definition setPage (b d : list node) (w : window) : window :=
  {| body := b; detached := d; next_id := next_id w;
     bootstrap := bootstrap w; notifications := notifications w;
     shown := shown w; hiddenListeners := hiddenListeners w |}.

Definition setNextId (n : nat) (w : window) : window :=
  {| body := body w; detached := detached w; next_id := n;
     bootstrap := bootstrap w; notifications := notifications w;
     shown := shown w; hiddenListeners := hiddenListeners w |}.

Definition setNotifications (o : option object) (w : window) : window :=
  {| body := body w; detached := detached w; next_id := next_id w;
     bootstrap := bootstrap w; notifications := o;
     shown := shown w; hiddenListeners := hiddenListeners w |}.

Definition setShown (l : list nat) (w : window) : window :=
  {| body := body w; detached := detached w; next_id := next_id w;
     bootstrap := bootstrap w; notifications := notifications w;
     shown := l; hiddenListeners := hiddenListeners w |}.

Definition setHiddenListeners (l : list nat) (w : window) : window :=
  {| body := body w; detached := detached w; next_id := next_id w;
     bootstrap := bootstrap w; notifications := notifications w;
     shown := shown w; hiddenListeners := l |}.

(** *** Faults and the monad of the script *)

Inductive fault :=
| ReferenceError      (* an identifier that is not bound was read *)
| TypeError           (* a value that is no function was called or
                         constructed, or a property of undefined was read *)
| DanglingReference.  (* a node reference that names no node: never raised
                         from a reference the page handed out *)

Inductive completion (A : Type) :=
| Normal (a : A)
| Throw (e : fault).
Arguments Normal {A} a.
Arguments Throw {A} e.

(** A computation returns or throws, and leaves a window either way. *)
Definition M (A : Type) := window -> completion A * window.

Definition ret {A} (a : A) : M A := fun w => (Normal a, w).

Definition throw {A} (e : fault) : M A := fun w => (Throw e, w).

Definition bind {A B} (c : M A) (k : A -> M B) : M B :=
  fun w =>
    match c w with
    | (Normal a, w') => k a w'
    | (Throw e, w') => (Throw e, w')
    end.

Definition gets {A} (f : window -> A) : M A := fun w => (Normal (f w), w).

Definition modify (f : window -> window) : M unit := fun w => (Normal tt, f w).

Declare Scope script_scope.
Delimit Scope script_scope with script.
Notation "x <- c1 ;; c2" := (bind c1 (fun x => c2))
  (at level 100, c1 at next level, right associativity) : script_scope.
Notation "c1 ;; c2" := (bind c1 (fun _ => c2))
  (at level 100, right associativity) : script_scope.
Open Scope script_scope.

(** [list.forEach(f)]: a fault in [f] ends the iteration. *)
Fixpoint forEach (l : list nat) (f : nat -> M unit) : M unit :=
  match l with
  | [] => ret tt
  | x :: l' => f x ;; forEach l' f
  end.

(** *** DOM operations on the window *)

(** [document.querySelectorAll(sel)] for a compound class selector: a static
    list of references, in tree order. *)
Definition querySelectorAll (sel : list jsstring) : M (list nat) :=
  gets (fun w => flat_map (selectAll sel) (body w)).

(** [document.querySelector(sel)]: the first match, or null. *)
Definition querySelector (sel : list jsstring) : M (option nat) :=
  gets (fun w => hd_error (flat_map (selectAll sel) (body w))).

(** [document.createElement(tag)]: a new identity; the element is held by
    the caller until it is appended. *)
Definition createElement : M nat :=
  fun w => (Normal (next_id w), setNextId (S (next_id w)) w).

(** [document.body.appendChild(x)] *)
Definition appendToBody (x : node) : M unit :=
  modify (fun w => setPage (body w ++ [x]) (detached w) w).

(** [parent.appendChild(x)] *)
Definition appendChild (parent : nat) (x : node) : M unit :=
  modify (fun w => setPage (map (appendTo parent x) (body w))
                           (map (appendTo parent x) (detached w)) w).

(** The node a reference stands for, in the page or outside it. *)
Definition deref (i : nat) : M node :=
  fun w =>
    match findIn i (body w ++ detached w) with
    | Some n => (Normal n, w)
    | None => (Throw DanglingReference, w)
    end.

(** [node.remove()]: the node leaves its parent and lives on as the root of
    a detached tree.  A root has no parent to leave. *)
Definition remove (i : nat) : M unit :=
  modify (fun w =>
            setPage (flat_map (prune i) (body w))
                    (map (pruneBelow i) (detached w)
                       ++ flat_map (cuts i) (body w)
                       ++ flat_map (cuts i) (flat_map childNodesOf (detached w)))
                    w).

(** The fault of [new bootstrap.Toast(el)] in a host without the widget:
    reading the unbound identifier is a ReferenceError, constructing from a
    [Toast] property that is no constructor is a TypeError. *)
Definition widgetFault (w : window) : fault :=
  match bootstrap w with
  | Unbound => ReferenceError
  | _ => TypeError
  end.

(** [new bootstrap.Toast(el)] *)
Definition newBootstrapToast (el : nat) : M nat :=
  fun w =>
    match bootstrap w with
    | WithToast => (Normal el, w)
    | WithoutToast => (Throw TypeError, w)
    | Unbound => (Throw ReferenceError, w)
    end.

(** [bsToast.show()] *)
Definition bsShow (el : nat) : M unit :=
  modify (fun w => setShown (shown w ++ [el]) w).

(** [el.addEventListener('hidden.bs.toast', function() { el.remove(); })] *)
Definition addHiddenListener (el : nat) : M unit :=
  modify (fun w => setHiddenListeners (hiddenListeners w ++ [el]) w).

(** The host fires 'hidden.bs.toast' on [el]: its listeners run in order. *)
Definition dispatchHidden (el : nat) : M unit :=
  ls <- gets (fun w => filter (Nat.eqb el) (hiddenListeners w)) ;;
  forEach ls remove.

(* ================================================================= *)
(** ** The script *)

Definition propertyName (p : member) : jsstring :=
  match p with
  | PShowSuccess => js "showSuccess"
  | PShowWarning => js "showWarning"
  | PShowDanger => js "showDanger"
  | PShowInfo => js "showInfo"
  | PShowToast => js "_showToast"
  end.

(** [o[name]]: undefined when the object has no such property. *)
Definition getProperty (o : object) (name : jsstring) : option member :=
  find (fun p => jseqb (propertyName p) name) o.

(** The object literal assigned to [window.BudgeteerNotifications]. *)
Definition BudgeteerNotifications : object :=
  [PShowSuccess; PShowWarning; PShowDanger; PShowInfo; PShowToast].

(** Loading the script defines the global. *)
Definition loadScript (w : window) : window :=
  setNotifications (Some BudgeteerNotifications) w.

(** The glyphs the entry points put before the message, with their space:
    U+2705; U+26A0 U+FE0F; U+274C; U+2139 U+FE0F. *)
Definition glyphSuccess : jsstring := [9989; 32]%N.
Definition glyphWarning : jsstring := [9888; 65039; 32]%N.
Definition glyphDanger : jsstring := [10060; 32]%N.
Definition glyphInfo : jsstring := [8505; 65039; 32]%N.

(** The template literal assigned to [toast.className]. *)
Definition toastClassName (type : jsstring) : jsstring :=
  js "toast align-items-center text-white bg-" ++ type ++ js " border-0".

(** The template literal assigned to [toast.innerHTML], in two halves around
    the interpolated message. *)
Definition toastMarkupBefore : jsstring :=
  newline
  ++ js "            <div class=" ++ dquote ++ js "d-flex" ++ dquote ++ js ">"
  ++ newline
  ++ js "                <div class=" ++ dquote ++ js "toast-body" ++ dquote ++ js ">".

Definition toastMarkupAfter : jsstring :=
  js "</div>" ++ newline
  ++ js "                <button type=" ++ dquote ++ js "button" ++ dquote
  ++ js " class=" ++ dquote ++ js "btn-close btn-close-white me-2 m-auto" ++ dquote
  ++ js " data-bs-dismiss=" ++ dquote ++ js "toast" ++ dquote
  ++ js " aria-label=" ++ dquote ++ js "Close" ++ dquote ++ js "></button>"
  ++ newline
  ++ js "            </div>" ++ newline
  ++ js "        ".

Definition toastMarkup (message : jsstring) : jsstring :=
  toastMarkupBefore ++ message ++ toastMarkupAfter.

Definition containerAttributes : list attribute :=
  [(js "class", js "toast-container position-fixed top-0 end-0 p-3");
   (js "style", js "z-index: 9999;")].

Definition toastAttributes (type : jsstring) : list attribute :=
  [(js "class", toastClassName type);
   (js "role", js "alert");
   (js "aria-live", js "assertive");
   (js "aria-atomic", js "true")].

Section Script.

(** The host's HTML fragment parser, which [innerHTML] runs. *)
Variable parseHTML : jsstring -> list html.

(** [el.innerHTML = markup] on an element held by the caller: the children
    the element gets. *)
Definition innerHTML (markup : jsstring) : M (list node) :=
  fun w =>
    let r := instantiateAll (parseHTML markup) (next_id w) in
    (Normal (fst r), setNextId (snd r) w).

Definition _showToast (type message : jsstring) : M unit :=
  (* Create toast container if it doesn't exist *)
  found <- querySelector [js "toast-container"] ;;
  container <-
    match found with
    | Some c => ret c
    | None =>
        c <- createElement ;;
        appendToBody (Element c (js "div") containerAttributes []) ;;
        ret c
    end ;;
  (* Create toast element *)
  toast <- createElement ;;
  kids <- innerHTML (toastMarkup message) ;;
  (* Add to container and show *)
  appendChild container (Element toast (js "div") (toastAttributes type) kids) ;;
  bsToast <- newBootstrapToast toast ;;
  bsShow bsToast ;;
  (* Remove from DOM after hiding *)
  addHiddenListener toast.

(** [this._showToast(type, message)] *)
Definition callShowToast (this : object) (type message : jsstring) : M unit :=
  match getProperty this (js "_showToast") with
  | Some _ => _showToast type message
  | None => throw TypeError
  end.

Definition showSuccess (this : object) (message : jsstring) : M unit :=
  callShowToast this (js "success") (glyphSuccess ++ message).

Definition showWarning (this : object) (message : jsstring) : M unit :=
  callShowToast this (js "warning") (glyphWarning ++ message).

Definition showDanger (this : object) (message : jsstring) : M unit :=
  callShowToast this (js "danger") (glyphDanger ++ message).

Definition showInfo (this : object) (message : jsstring) : M unit :=
  callShowToast this (js "info") (glyphInfo ++ message).

(** [this[name](message)] once the property is known to be [p].  Called with
    one argument, [_showToast] reads its second parameter as undefined, which
    the template literal prints. *)
Definition callMember (this : object) (p : member) (message : jsstring) : M unit :=
  match p with
  | PShowSuccess => showSuccess this message
  | PShowWarning => showWarning this message
  | PShowDanger => showDanger this message
  | PShowInfo => showInfo this message
  | PShowToast => _showToast message (js "undefined")
  end.

(** The conditional chain over [alert.classList.contains]. *)
Definition category (classes : list jsstring) : jsstring :=
  if contains classes (js "alert-success") then js "success"
  else if contains classes (js "alert-warning") then js "warning"
  else if contains classes (js "alert-danger") then js "danger"
  else js "info".

(** ['show' + category.charAt(0).toUpperCase() + category.slice(1)] *)
Definition methodName (category : jsstring) : jsstring :=
  js "show" ++ toUpperCase (charAt0 category) ++ slice1 category.

(** The callback of [alerts.forEach]. *)
Definition convertAlert (alert : nat) : M unit :=
  n <- deref alert ;;
  let category := category (classList (attributesOf n)) in
  let message := trim (textContent n) in
  global <- gets notifications ;;
  match global with
  | Some o =>
      match getProperty o (methodName category) with
      | Some p => callMember o p message
      | None => ret tt
      end
  | None => ret tt
  end ;;
  remove alert.

(** The [DOMContentLoaded] listener. *)
Definition onDOMContentLoaded : M unit :=
  alerts <- querySelectorAll [js "alert"; js "d-none"] ;;
  forEach alerts convertAlert.

(* ================================================================= *)
(** ** Notions the statements are made of *)

(** The four severities, each with its entry point, the name that goes into
    the style class, and its glyph. *)
Inductive severity := Success | Warning | Danger | Info.

Definition severityName (s : severity) : jsstring :=
  match s with
  | Success => js "success"
  | Warning => js "warning"
  | Danger => js "danger"
  | Info => js "info"
  end.

Definition glyph (s : severity) : jsstring :=
  match s with
  | Success => glyphSuccess
  | Warning => glyphWarning
  | Danger => glyphDanger
  | Info => glyphInfo
  end.

Definition entryPoint (s : severity) : object -> jsstring -> M unit :=
  match s with
  | Success => showSuccess
  | Warning => showWarning
  | Danger => showDanger
  | Info => showInfo
  end.

(** A sequence of calls of entry points on the script's object, each from a
    turn of its own: a fault ends the call it occurs in. *)
Definition runCalls (calls : list (severity * jsstring)) (w : window) : window :=
  fold_left (fun w' call => snd (entryPoint (fst call) BudgeteerNotifications (snd call) w'))
            calls w.

Definition idsOf (forest : list node) : list nat := flat_map ids forest.

Fixpoint distinct (l : list nat) : bool :=
  match l with
  | [] => true
  | x :: l' => negb (existsb (Nat.eqb x) l') && distinct l'
  end.

(** Element objects are distinct, and older than the next one to be made. *)
Definition wellFormed (w : window) : bool :=
  distinct (idsOf (body w ++ detached w))
  && forallb (fun i => i <? next_id w) (idsOf (body w ++ detached w)).

(** The child nodes of the element [c] of the page. *)
Definition childrenOf (c : nat) (w : window) : list node :=
  match findIn c (body w) with
  | Some n => childNodesOf n
  | None => []
  end.

(** What [document.querySelector('.toast-container')] returns. *)
Definition toastContainer (w : window) : option nat :=
  hd_error (flat_map (selectAll [js "toast-container"]) (body w)).

(** [toast.querySelector('.toast-body')] *)
Definition toastBody (toast : node) : option node :=
  fold_right (fun k r => firstSome (firstMatch [js "toast-body"] k) r) None
             (childNodesOf toast).

(** The text a toast shows in its body. *)
Definition toastBodyText (toast : node) : option jsstring :=
  option_map textContent (toastBody toast).

(** The toast element [_showToast] builds when [createElement] hands out
    the identity [t], and the next identity after its children are made. *)
Definition toastNode (type message : jsstring) (t : nat) : node :=
  Element t (js "div") (toastAttributes type)
          (fst (instantiateAll (parseHTML (toastMarkup message)) (S t))).

Definition toastEnd (message : jsstring) (t : nat) : nat :=
  snd (instantiateAll (parseHTML (toastMarkup message)) (S t)).

(** The container [_showToast] appends to, and the window once it exists. *)
Definition containerOf (w : window) : nat :=
  match toastContainer w with
  | Some c => c
  | None => next_id w
  end.

Definition withContainer (w : window) : window :=
  match toastContainer w with
  | Some _ => w
  | None =>
      setPage (body w ++ [Element (next_id w) (js "div") containerAttributes []])
              (detached w) (setNextId (S (next_id w)) w)
  end.

(** The window after [x] became the last child of [c]. *)
Definition withChild (c : nat) (x : node) (w : window) : window :=
  setPage (map (appendTo c x) (body w)) (map (appendTo c x) (detached w)) w.

(** The hidden alerts of the page: [.alert.d-none]. *)
Definition hiddenAlerts (w : window) : list nat :=
  flat_map (selectAll [js "alert"; js "d-none"]) (body w).

(** Character data that the HTML parser hands on unchanged: no [<], no [&],
    no carriage return, no NUL. *)
Definition plainText (s : jsstring) : bool :=
  forallb (fun c => negb ((c =? 60) || (c =? 38) || (c =? 13) || (c =? 0))%N) s.

(** The severity classification as the specification words it: the markers
    in priority order, the first one present decides, "info" otherwise. *)
Definition severityMarkers : list (jsstring * jsstring) :=
  [(js "alert-success", js "success");
   (js "alert-warning", js "warning");
   (js "alert-danger", js "danger")].

Definition firstMatchingSeverity (classes : list jsstring) : jsstring :=
  match find (fun m => contains classes (fst m)) severityMarkers with
  | Some m => snd m
  | None => js "info"
  end.

(** *** Notions the proofs use *)

(** Trees in which [i] is at most a root. *)
Definition settled (i : nat) (f : list node) : Prop :=
  forall m, In m f -> ~ In i (idsOf (childNodesOf m)).

(** [w1] is [w], or [w] after one run of [_showToast]. *)
Definition grows (w w1 : window) : Prop :=
  w1 = w \/ exists type message, w1 = snd (_showToast type message w).

(** Nothing stands in the way of a toast: if the script's object is there,
    so is the widget, and the object still has [_showToast]. *)
Definition canShow (w : window) : Prop :=
  forall o, notifications w = Some o ->
            hasBootstrapToast w = true /\ getProperty o (js "_showToast") <> None.

(** The page once the container [c], last node of the body, holds [toasts]. *)
Definition containerNode (c : nat) (toasts : list node) : node :=
  Element c (js "div") containerAttributes toasts.

(** The toast each call of a sequence appends. *)
Definition isToastOf (call : severity * jsstring) (toast : node) : Prop :=
  exists t, toast = toastNode (severityName (fst call)) (glyph (fst call) ++ snd call) t.

(** The toast the handler shows for the hidden alert [alert] of the page
    [w]: of the alert's category, reading the trimmed text of the alert. *)
Definition isToastOfAlert (w : window) (alert : nat) (toast : node) : Prop :=
  exists n s t,
    findIn alert (body w) = Some n
    /\ severityName s = category (classList (attributesOf n))
    /\ toast = toastNode (severityName s) (glyph s ++ trim (textContent n)) t.

(** The page without the elements [l] and what is below them. *)
Definition pruneAll (l : list nat) (forest : list node) : list node :=
  fold_left (fun f x => flat_map (prune x) f) l forest.

End Script.

(* ================================================================= *)
(** ** Reading the toast template, and pages to run the script on *)

(** The tree of the template literal of [_showToast] around the content of
    the toast body. *)
Definition toastTree (content : list html) : list html :=
  [HText (newline ++ js "            ");
   HElement (js "div") [(js "class", js "d-flex")]
     [HText (newline ++ js "                ");
      HElement (js "div") [(js "class", js "toast-body")] content;
      HText (newline ++ js "                ");
      HElement (js "button")
        [(js "type", js "button");
         (js "class", js "btn-close btn-close-white me-2 m-auto");
         (js "data-bs-dismiss", js "toast");
         (js "aria-label", js "Close")]
        [];
      HText (newline ++ js "            ")];
   HText (newline ++ js "        ")].

Definition noCR (s : jsstring) : bool := forallb (fun c => negb (c =? 13)%N) s.

(** An empty page of a host with Bootstrap, after the script was loaded. *)
Definition emptyPage : window :=
  loadScript {| body := []; detached := []; next_id := 0;
                bootstrap := WithToast; notifications := None;
                shown := []; hiddenListeners := [] |}.

(** The same page of a host without Bootstrap. *)
Definition emptyPageWithoutWidget : window :=
  loadScript {| body := []; detached := []; next_id := 0;
                bootstrap := Unbound; notifications := None;
                shown := []; hiddenListeners := [] |}.

(** The hidden flash alert of the specification's example:
    [<div class="alert alert-warning d-none"> Low balance </div>]. *)
Definition lowBalanceAlert : node :=
  Element 0 (js "div") [(js "class", js "alert alert-warning d-none")]
          [Text (js " Low balance ")].

Definition flashPage : window :=
  loadScript {| body := [lowBalanceAlert]; detached := []; next_id := 1;
                bootstrap := WithToast; notifications := None;
                shown := []; hiddenListeners := [] |}.


(** The flash page when the script was not loaded. *)
Definition flashPageWithoutScript : window :=
  {| body := [lowBalanceAlert]; detached := []; next_id := 1;
     bootstrap := WithToast; notifications := None;
     shown := []; hiddenListeners := [] |}.

(** A page with content beside the hidden alert. *)
Definition dashboardPage : window :=
  loadScript {| body := [lowBalanceAlert;
                         Element 1 (js "p") [] [Text (js "Dashboard")]];
                detached := []; next_id := 2;
                bootstrap := WithToast; notifications := None;
                shown := []; hiddenListeners := [] |}.

(** A page whose hidden alert holds nothing but white space. *)
Definition blankAlertPage : window :=
  loadScript {| body := [Element 0 (js "div") [(js "class", js "alert d-none")]
                                 [Text (newline ++ js "   ")]];
                detached := []; next_id := 1;
                bootstrap := WithToast; notifications := None;
                shown := []; hiddenListeners := [] |}.

(** A page whose hidden alert has markup as its text (the server escaped
    it, so the page shows it as text). *)
Definition escapedAlertPage : window :=
  loadScript {| body := [Element 0 (js "div") [(js "class", js "alert alert-danger d-none")]
                                 [Text (js "<b>Overdrawn</b>")]];
                detached := []; next_id := 1;
                bootstrap := WithToast; notifications := None;
                shown := []; hiddenListeners := [] |}.

(** A page with two hidden alerts around a paragraph. *)
Definition twoAlertsPage : window :=
  loadScript {| body := [Element 0 (js "div") [(js "class", js "alert alert-success d-none")]
                                 [Text (js "Saved")];
                         Element 1 (js "p") [] [Text (js "Dashboard")];
                         Element 2 (js "div") [(js "class", js "alert alert-danger d-none")]
                                 [Text (js " Overdrawn ")]];
                detached := []; next_id := 3;
                bootstrap := WithToast; notifications := None;
                shown := []; hiddenListeners := [] |}.

(** The same page of a host whose [bootstrap] global has no [Toast]
    constructor (as after [window.bootstrap = {}]). *)
Definition twoAlertsPageWithoutToast : window :=
  loadScript {| body := [Element 0 (js "div") [(js "class", js "alert alert-success d-none")]
                                 [Text (js "Saved")];
                         Element 1 (js "p") [] [Text (js "Dashboard")];
                         Element 2 (js "div") [(js "class", js "alert alert-danger d-none")]
                                 [Text (js " Overdrawn ")]];
                detached := []; next_id := 3;
                bootstrap := WithoutToast; notifications := None;
                shown := []; hiddenListeners := [] |}.

(** A page whose author placed a toast container of their own, with no
    class that positions it: [<div class="toast-container"></div>]. *)
Definition authoredContainerPage : window :=
  loadScript {| body := [Element 0 (js "div") [(js "class", js "toast-container")] []];
                detached := []; next_id := 1;
                bootstrap := WithToast; notifications := None;
                shown := []; hiddenListeners := [] |}.

(** The page after the success toast of the example was shown. *)
Definition pageWithToast : window :=
  snd (showSuccess parseFragment BudgeteerNotifications (js "Budget saved") emptyPage).

(** The dashboard after three toasts were shown. *)
Definition pageWithThreeToasts : window :=
  runCalls parseFragment
           [(Success, js "Budget saved"); (Warning, js "Low balance"); (Info, js "Welcome")]
           dashboardPage.

(* ================================================================= *)
(** ** Strings and lists *)

Lemma widgetFault_raised (w : window) : widgetFault w <> DanglingReference.
Proof. unfold widgetFault. destruct (bootstrap w); discriminate. Qed.

Lemma jseqb_eq (a b : jsstring) : jseqb a b = true <-> a = b.
Proof.
  revert b; induction a as [|x a IH]; intros [|y b]; simpl; split; intro H;
    try reflexivity; try discriminate.
  - apply andb_true_iff in H as [Hx Hab].
    apply N.eqb_eq in Hx. apply IH in Hab. congruence.
  - inversion H; subst. rewrite N.eqb_refl. simpl. now apply IH.
Qed.

Lemma jseqb_refl (a : jsstring) : jseqb a a = true.
Proof. now apply jseqb_eq. Qed.

Lemma distinct_NoDup (l : list nat) : distinct l = true <-> NoDup l.
Proof.
  induction l as [|x l IH]; simpl.
  - split; [constructor | reflexivity].
  - rewrite andb_true_iff, negb_true_iff, IH. split.
    + intros [Hx Hl]. constructor; [|assumption].
      intro Hin. assert (existsb (Nat.eqb x) l = true) as E.
      { apply existsb_exists. exists x. split; [assumption | apply Nat.eqb_refl]. }
      congruence.
    + intro H. inversion H as [|? ? Hx Hl]; subst. split; [|assumption].
      destruct (existsb (Nat.eqb x) l) eqn:E; [|reflexivity].
      apply existsb_exists in E as [y [Hy Exy]]. apply Nat.eqb_eq in Exy. subst.
      contradiction.
Qed.

Lemma NoDup_app_iff {A} (l1 l2 : list A) :
  NoDup (l1 ++ l2) <->
  NoDup l1 /\ NoDup l2 /\ (forall x, In x l1 -> In x l2 -> False).
Proof.
  induction l1 as [|a l1 IH]; simpl.
  - split; [intro H; repeat split; [constructor | assumption | tauto] | tauto].
  - split.
    + intro H. inversion H as [|? ? Ha Hl]; subst.
      apply IH in Hl as (H1 & H2 & H3).
      repeat split; [constructor | assumption |].
      * intro Hin. apply Ha, in_or_app. now left.
      * assumption.
      * intros x [->|Hx] Hx2; [apply Ha, in_or_app; now right | eauto].
    + intros (H1 & H2 & H3). inversion H1 as [|? ? Ha Hl]; subst.
      constructor.
      * intro Hin. apply in_app_or in Hin as [Hin|Hin]; [tauto | eauto].
      * apply IH. repeat split; eauto.
Qed.

Lemma flat_map_comp {A B C} (f : A -> list B) (g : B -> list C) (l : list A) :
  flat_map g (flat_map f l) = flat_map (fun x => flat_map g (f x)) l.
Proof.
  induction l as [|x l IH]; simpl; [reflexivity|].
  now rewrite flat_map_app, IH.
Qed.

(* ================================================================= *)
(** ** Trees *)

(** Induction over a tree with the hypothesis for every child. *)
Lemma node_forest_ind (P : node -> Prop) :
  (forall d, P (Text d)) ->
  (forall i t a kids, Forall P kids -> P (Element i t a kids)) ->
  forall n, P n.
Proof.
  intros HT HE. fix IH 1. intros [d | i t a kids].
  - apply HT.
  - apply HE. induction kids as [|k kids IHk]; constructor.
    + apply IH.
    + apply IHk.
Qed.

Lemma idsOf_app (f g : list node) : idsOf (f ++ g) = idsOf f ++ idsOf g.
Proof. apply flat_map_app. Qed.

Lemma idsOf_cons (n : node) (f : list node) : idsOf (n :: f) = ids n ++ idsOf f.
Proof. reflexivity. Qed.

Lemma findIn_cons (i : nat) (n : node) (f : list node) :
  findIn i (n :: f) = firstSome (findNode i n) (findIn i f).
Proof. reflexivity. Qed.

Lemma findNode_None (i : nat) (n : node) :
  findNode i n = None <-> ~ In i (ids n).
Proof.
  induction n as [d | j t a kids IH] using node_forest_ind; simpl.
  - tauto.
  - destruct (Nat.eqb_spec i j) as [->|Hij].
    + split; [discriminate | intro H; exfalso; apply H; now left].
    + assert (fold_right (fun k r => firstSome (findNode i k) r) None kids = None
              <-> ~ In i (flat_map ids kids)) as Hk.
      { induction IH as [|k kids Hk _ IHk]; simpl; [tauto|].
        rewrite in_app_iff. destruct (findNode i k) eqn:E; simpl.
        - split; [discriminate|]. intro H. exfalso. apply H. left.
          destruct (in_dec Nat.eq_dec i (ids k)) as [Hin|Hin]; [assumption|].
          apply Hk in Hin. discriminate.
        - rewrite IHk. assert (~ In i (ids k)) by now apply Hk. tauto. }
      rewrite Hk. split; intro H; [intros [E|E]; [congruence | tauto] | tauto].
Qed.

Lemma findIn_None (i : nat) (f : list node) :
  findIn i f = None <-> ~ In i (idsOf f).
Proof.
  induction f as [|k f IH]; simpl; [tauto|].
  rewrite in_app_iff. destruct (findNode i k) eqn:E; simpl.
  - split; [discriminate|]. intro H. exfalso. apply H. left.
    destruct (in_dec Nat.eq_dec i (ids k)) as [Hin|Hin]; [assumption|].
    apply findNode_None in Hin. congruence.
  - apply findNode_None in E. unfold findIn, idsOf in IH. rewrite IH. tauto.
Qed.

Lemma findIn_app (i : nat) (f g : list node) :
  findIn i (f ++ g) = firstSome (findIn i f) (findIn i g).
Proof.
  induction f as [|k f IH]; [reflexivity|].
  rewrite <- app_comm_cons, !findIn_cons, IH. now destruct (findNode i k).
Qed.

Lemma selectAll_ids (sel : list jsstring) (n : node) (i : nat) :
  In i (selectAll sel n) -> In i (ids n).
Proof.
  induction n as [d | j t a kids IH] using node_forest_ind; simpl; [tauto|].
  rewrite in_app_iff. intros [H|H].
  - destruct (matchesClasses sel a); simpl in H; tauto.
  - right. rewrite in_flat_map in *. destruct H as [k [Hk Hi]].
    exists k. split; [assumption|]. rewrite Forall_forall in IH. auto.
Qed.

Lemma selectAll_idsOf (sel : list jsstring) (f : list node) (i : nat) :
  In i (flat_map (selectAll sel) f) -> In i (idsOf f).
Proof.
  unfold idsOf. rewrite !in_flat_map. intros [k [Hk Hi]].
  exists k. split; [assumption | now apply selectAll_ids with sel].
Qed.

Lemma appendTo_notin (c : nat) (x n : node) :
  ~ In c (ids n) -> appendTo c x n = n.
Proof.
  induction n as [d | j t a kids IH] using node_forest_ind; simpl; [reflexivity|].
  intro H. destruct (Nat.eqb_spec j c) as [->|Hjc]; [tauto|].
  f_equal. rewrite <- (map_id kids) at 2. apply map_ext_in.
  intros k Hk. rewrite Forall_forall in IH. apply IH; [assumption|].
  intro Hin. apply H. right. apply in_flat_map. eauto.
Qed.

Lemma appendTo_forest_notin (c : nat) (x : node) (f : list node) :
  ~ In c (idsOf f) -> map (appendTo c x) f = f.
Proof.
  intro H. rewrite <- (map_id f) at 2. apply map_ext_in.
  intros k Hk. apply appendTo_notin. intro Hin. apply H.
  apply in_flat_map. eauto.
Qed.

(** Appending keeps every element, and adds only those of the new child. *)
Lemma ids_appendTo_keep (c : nat) (x n : node) (i : nat) :
  In i (ids n) -> In i (ids (appendTo c x n)).
Proof.
  induction n as [d | j t a kids IH] using node_forest_ind; simpl; [tauto|].
  intros [->|H]; [now left | right].
  assert (In i (flat_map ids (map (appendTo c x) kids))) as Hk.
  { rewrite in_flat_map in *. destruct H as [k [Hk Hi]].
    exists (appendTo c x k). split; [now apply in_map|].
    rewrite Forall_forall in IH. auto. }
  destruct (Nat.eqb j c); [|assumption].
  rewrite flat_map_app, in_app_iff. now left.
Qed.

Lemma ids_appendTo_new (c : nat) (x n : node) (i : nat) :
  In i (ids (appendTo c x n)) -> In i (ids n) \/ In i (ids x).
Proof.
  induction n as [d | j t a kids IH] using node_forest_ind; simpl; [tauto|].
  intros [->|H]; [now left; left|].
  assert (In i (flat_map ids (map (appendTo c x) kids)) ->
          In i (flat_map ids kids) \/ In i (ids x)) as Hk.
  { rewrite !in_flat_map. intros [k' [Hk' Hi]].
    apply in_map_iff in Hk' as [k [<- Hk]].
    rewrite Forall_forall in IH. destruct (IH k Hk Hi) as [Hl|Hr]; [left|now right].
    eauto. }
  destruct (Nat.eqb j c).
  - rewrite flat_map_app, in_app_iff in H. simpl in H. rewrite app_nil_r in H.
    destruct H as [H|H]; [|now right]. destruct (Hk H); tauto.
  - destruct (Hk H); tauto.
Qed.

Lemma idsOf_appendTo_keep (c : nat) (x : node) (f : list node) (i : nat) :
  In i (idsOf f) -> In i (idsOf (map (appendTo c x) f)).
Proof.
  unfold idsOf. rewrite !in_flat_map. intros [k [Hk Hi]].
  exists (appendTo c x k). split; [now apply in_map | now apply ids_appendTo_keep].
Qed.

Lemma idsOf_appendTo_new (c : nat) (x : node) (f : list node) (i : nat) :
  In i (idsOf (map (appendTo c x) f)) -> In i (idsOf f) \/ In i (ids x).
Proof.
  unfold idsOf. rewrite !in_flat_map. intros [k' [Hk' Hi]].
  apply in_map_iff in Hk' as [k [<- Hk]].
  destruct (ids_appendTo_new _ _ _ _ Hi) as [Hl|Hr]; [left; eauto | now right].
Qed.

(** Appending a tree of new elements keeps the elements distinct. *)
Lemma NoDup_appendTo_forest (c : nat) (x : node) (f : list node) :
  (forall n, In n f ->
             NoDup (ids n) -> (forall i, In i (ids n) -> ~ In i (ids x)) ->
             NoDup (ids (appendTo c x n))) ->
  NoDup (idsOf f) -> NoDup (ids x) ->
  (forall i, In i (idsOf f) -> ~ In i (ids x)) ->
  NoDup (idsOf (map (appendTo c x) f)).
Proof.
  induction f as [|k f IHf]; intros IH Hnd Hx Hdis; simpl; [constructor|].
  rewrite idsOf_cons in Hnd. apply NoDup_app_iff in Hnd as (Hk & Hf & Hkf).
  assert (forall i, In i (ids k) -> ~ In i (ids x)) as Hdk.
  { intros i Hi. apply Hdis. rewrite idsOf_cons, in_app_iff. now left. }
  assert (forall i, In i (idsOf f) -> ~ In i (ids x)) as Hdf.
  { intros i Hi. apply Hdis. rewrite idsOf_cons, in_app_iff. now right. }
  change (NoDup (ids (appendTo c x k) ++ idsOf (map (appendTo c x) f))).
  apply NoDup_app_iff. split; [|split].
  - apply IH; [now left | assumption | assumption].
  - apply IHf; try assumption. intros n Hn. apply IH. now right.
  - intros i Hi1 Hi2.
    destruct (in_dec Nat.eq_dec c (ids k)) as [Hc|Hc].
    + rewrite appendTo_forest_notin in Hi2 by (intro Hc'; exact (Hkf c Hc Hc')).
      apply ids_appendTo_new in Hi1 as [Hi1|Hi1];
        [exact (Hkf i Hi1 Hi2) | exact (Hdf i Hi2 Hi1)].
    + rewrite appendTo_notin in Hi1 by assumption.
      apply idsOf_appendTo_new in Hi2 as [Hi2|Hi2];
        [exact (Hkf i Hi1 Hi2) | exact (Hdk i Hi1 Hi2)].
Qed.

Lemma NoDup_appendTo (c : nat) (x n : node) :
  NoDup (ids n) -> NoDup (ids x) ->
  (forall i, In i (ids n) -> ~ In i (ids x)) ->
  NoDup (ids (appendTo c x n)).
Proof.
  intros Hn Hx. revert Hn.
  induction n as [d | j t a kids IH] using node_forest_ind; simpl; intros Hn Hdis;
    [constructor|].
  inversion Hn as [|? ? Hj Hkids]; subst.
  assert (NoDup (idsOf (map (appendTo c x) kids))) as Hk'.
  { apply NoDup_appendTo_forest; try assumption.
    - intros n Hin. rewrite Forall_forall in IH. now apply IH.
    - intros i Hi. apply Hdis. now right. }
  assert (~ In j (idsOf (map (appendTo c x) kids))) as Hj'.
  { intro Hin. apply idsOf_appendTo_new in Hin as [Hin|Hin]; [tauto|].
    apply (Hdis j); [now left | assumption]. }
  constructor.
  - destruct (Nat.eqb_spec j c) as [->|Hjc]; [|assumption].
    rewrite flat_map_app, in_app_iff. simpl. rewrite app_nil_r.
    intros [Hin|Hin]; [tauto | apply (Hdis c); [now left | assumption]].
  - destruct (Nat.eqb_spec j c) as [->|Hjc]; [|assumption].
    rewrite appendTo_forest_notin by assumption.
    rewrite flat_map_app. simpl. rewrite app_nil_r.
    apply NoDup_app_iff. split; [assumption | split; [assumption|]].
    intros i Hi. apply Hdis. now right.
Qed.

Lemma NoDup_appendTo_idsOf (c : nat) (x : node) (f : list node) :
  NoDup (idsOf f) -> NoDup (ids x) ->
  (forall i, In i (idsOf f) -> ~ In i (ids x)) ->
  NoDup (idsOf (map (appendTo c x) f)).
Proof.
  intros. apply NoDup_appendTo_forest; try assumption.
  intros n _ Hn Hd. apply NoDup_appendTo; assumption.
Qed.

(** *** Removing an element *)

Lemma idsOf_flat_map (g : node -> list node) (f : list node) :
  idsOf (flat_map g f) = flat_map (fun n => idsOf (g n)) f.
Proof.
  induction f as [|k f IH]; simpl; [reflexivity|].
  now rewrite idsOf_app, IH.
Qed.

Lemma prune_self (i : nat) (n : node) : ~ In i (idsOf (prune i n)).
Proof.
  induction n as [d | j t a kids IH] using node_forest_ind; simpl; [tauto|].
  destruct (Nat.eqb_spec i j) as [->|Hij]; simpl; [tauto|].
  rewrite app_nil_r. intros [E|H]; [congruence|].
  change (In i (idsOf (flat_map (prune i) kids))) in H.
  rewrite idsOf_flat_map, in_flat_map in H. destruct H as [k [Hk Hi]].
  rewrite Forall_forall in IH. exact (IH k Hk Hi).
Qed.

Lemma prune_forest_self (i : nat) (f : list node) :
  ~ In i (idsOf (flat_map (prune i) f)).
Proof.
  rewrite idsOf_flat_map, in_flat_map. intros [k [_ Hi]].
  exact (prune_self _ _ Hi).
Qed.

Lemma prune_absent (i : nat) (n : node) : ~ In i (ids n) -> prune i n = [n].
Proof.
  induction n as [d | j t a kids IH] using node_forest_ind; simpl; [reflexivity|].
  intro H. destruct (Nat.eqb_spec i j) as [->|Hij]; [tauto|].
  do 2 f_equal. assert (~ In i (flat_map ids kids)) as Hk by tauto. clear H.
  induction IH as [|k kids Hk1 _ IHk]; simpl; [reflexivity|].
  simpl in Hk. rewrite in_app_iff in Hk.
  rewrite Hk1, IHk by tauto. reflexivity.
Qed.

Lemma prune_forest_absent (i : nat) (f : list node) :
  ~ In i (idsOf f) -> flat_map (prune i) f = f.
Proof.
  induction f as [|k f IH]; simpl; [reflexivity|].
  rewrite in_app_iff. intro H.
  rewrite prune_absent, IH by tauto. reflexivity.
Qed.

Lemma cuts_absent (i : nat) (n : node) : ~ In i (ids n) -> cuts i n = [].
Proof.
  induction n as [d | j t a kids IH] using node_forest_ind; simpl; [reflexivity|].
  intro H. destruct (Nat.eqb_spec i j) as [->|Hij]; [tauto|].
  assert (~ In i (flat_map ids kids)) as Hk by tauto. clear H.
  induction IH as [|k kids Hk1 _ IHk]; simpl; [reflexivity|].
  simpl in Hk. rewrite in_app_iff in Hk.
  rewrite Hk1, IHk by tauto. reflexivity.
Qed.

Lemma cuts_forest_absent (i : nat) (f : list node) :
  ~ In i (idsOf f) -> flat_map (cuts i) f = [].
Proof.
  induction f as [|k f IH]; simpl; [reflexivity|].
  rewrite in_app_iff. intro H.
  rewrite cuts_absent, IH by tauto. reflexivity.
Qed.

Lemma pruneBelow_absent (i : nat) (r : node) :
  ~ In i (idsOf (childNodesOf r)) -> pruneBelow i r = r.
Proof.
  destruct r as [d | j t a kids]; simpl; [reflexivity|].
  intro H. now rewrite prune_forest_absent.
Qed.

Lemma perm_interleave {A} (p1 c1 p2 c2 : list A) :
  Permutation ((p1 ++ c1) ++ (p2 ++ c2)) ((p1 ++ p2) ++ (c1 ++ c2)).
Proof.
  rewrite <- !app_assoc. apply Permutation_app_head.
  rewrite !app_assoc. apply Permutation_app_tail. apply Permutation_app_comm.
Qed.

(** What is pruned and what is cut make up the tree. *)
Lemma ids_prune_cuts (i : nat) (n : node) :
  Permutation (ids n) (idsOf (prune i n) ++ idsOf (cuts i n)).
Proof.
  induction n as [d | j t a kids IH] using node_forest_ind; simpl; [constructor|].
  destruct (Nat.eqb_spec i j) as [->|Hij]; simpl.
  - now rewrite app_nil_r.
  - rewrite app_nil_r. constructor.
    change (Permutation (idsOf kids)
              (idsOf (flat_map (prune i) kids) ++ idsOf (flat_map (cuts i) kids))).
    induction IH as [|k kids Hk _ IHk]; [constructor|].
    cbn [flat_map]. rewrite !idsOf_app, idsOf_cons.
    eapply Permutation_trans; [|apply perm_interleave].
    now apply Permutation_app.
Qed.

Lemma idsOf_prune_cuts (i : nat) (f : list node) :
  Permutation (idsOf f)
    (idsOf (flat_map (prune i) f) ++ idsOf (flat_map (cuts i) f)).
Proof.
  induction f as [|k f IH]; [constructor|].
  cbn [flat_map]. rewrite !idsOf_app, idsOf_cons.
  eapply Permutation_trans; [|apply perm_interleave].
  apply Permutation_app; [apply ids_prune_cuts | assumption].
Qed.

Lemma idsOf_pruneBelow_cuts (i : nat) (f : list node) :
  Permutation (idsOf f)
    (idsOf (map (pruneBelow i) f)
       ++ idsOf (flat_map (cuts i) (flat_map childNodesOf f))).
Proof.
  induction f as [|r f IH]; [constructor|].
  cbn [flat_map map]. rewrite flat_map_app, !idsOf_app, !idsOf_cons.
  eapply Permutation_trans; [|apply perm_interleave].
  apply Permutation_app; [|assumption].
  destruct r as [d | j t a kids]; simpl; [constructor|].
  constructor. apply idsOf_prune_cuts.
Qed.

(** The page and the detached trees hold the same elements after a removal. *)
Lemma remove_permutation (i : nat) (b d : list node) :
  Permutation (idsOf (b ++ d))
    (idsOf (flat_map (prune i) b
              ++ map (pruneBelow i) d
              ++ flat_map (cuts i) b
              ++ flat_map (cuts i) (flat_map childNodesOf d))).
Proof.
  rewrite !idsOf_app.
  eapply Permutation_trans.
  - apply Permutation_app; [apply idsOf_prune_cuts | apply idsOf_pruneBelow_cuts].
  - rewrite <- !app_assoc. apply Permutation_app_head.
    rewrite !app_assoc. apply Permutation_app_tail. apply Permutation_app_comm.
Qed.

(** *** Elements made by the parser *)

Lemma html_forest_ind (P : html -> Prop) :
  (forall d, P (HText d)) ->
  (forall t a kids, Forall P kids -> P (HElement t a kids)) ->
  forall h, P h.
Proof.
  intros HT HE. fix IH 1. intros [d | t a kids].
  - apply HT.
  - apply HE. induction kids as [|k kids IHk]; constructor.
    + apply IH.
    + apply IHk.
Qed.

Lemma instantiate_element (t : jsstring) (a : list attribute) (kids : list html) (n : nat) :
  instantiate (HElement t a kids) n =
  (Element n t a (fst (instantiateAll kids (S n))), snd (instantiateAll kids (S n))).
Proof.
  reflexivity.
Qed.

(** The parser's elements get consecutive identities from [n] on. *)
Lemma instantiate_ids (h : html) (n : nat) :
  ids (fst (instantiate h n)) = seq n (elements h)
  /\ snd (instantiate h n) = n + elements h.
Proof.
  revert n. induction h as [d | t a kids IH] using html_forest_ind; intro n.
  - simpl. split; [reflexivity | lia].
  - rewrite instantiate_element. cbn [fst snd ids elements].
    assert (forall m, idsOf (fst (instantiateAll kids m)) = seq m (elementsOf kids)
                      /\ snd (instantiateAll kids m) = m + elementsOf kids) as Hk.
    { induction IH as [|k kids Hk _ IHk]; intro m.
      - simpl. split; [reflexivity | lia].
      - cbn [instantiateAll fst snd elementsOf fold_right].
        destruct (Hk m) as [E1 E2]. destruct (IHk (snd (instantiate k m))) as [E3 E4].
        rewrite idsOf_cons, E1, E3, E4, E2. fold (elementsOf kids).
        split; [|lia]. now rewrite seq_app. }
    destruct (Hk (S n)) as [E1 E2]. fold (elementsOf kids). split.
    + cbn [seq]. f_equal. exact E1.
    + rewrite E2. lia.
Qed.

Lemma instantiateAll_ids (hs : list html) (n : nat) :
  idsOf (fst (instantiateAll hs n)) = seq n (elementsOf hs)
  /\ snd (instantiateAll hs n) = n + elementsOf hs.
Proof.
  revert n. induction hs as [|k hs IH]; intro n.
  - simpl. split; [reflexivity | lia].
  - cbn [instantiateAll fst snd elementsOf fold_right].
    destruct (instantiate_ids k n) as [E1 E2].
    destruct (IH (snd (instantiate k n))) as [E3 E4].
    rewrite idsOf_cons, E1, E3, E4, E2. fold (elementsOf hs).
    split; [|lia]. now rewrite seq_app.
Qed.

(** *** Finding and selecting after an append *)

Lemma findNode_shape (i : nat) (n m : node) :
  findNode i n = Some m -> exists t a kids, m = Element i t a kids.
Proof.
  induction n as [d | j t a kids IH] using node_forest_ind; simpl; [discriminate|].
  destruct (Nat.eqb_spec i j) as [->|Hij].
  - intro E. inversion E. eauto.
  - induction IH as [|k kids Hk _ IHk]; simpl; [discriminate|].
    destruct (findNode i k) eqn:E; simpl; [|assumption].
    intro E'. inversion E'; subst. now apply Hk.
Qed.

Lemma findIn_shape (i : nat) (f : list node) (m : node) :
  findIn i f = Some m -> exists t a kids, m = Element i t a kids.
Proof.
  induction f as [|k f IH]; simpl; [discriminate|].
  destruct (findNode i k) eqn:E; simpl; [|assumption].
  intro E'. inversion E'; subst. now apply findNode_shape with k.
Qed.

Lemma findIn_appendTo_forest (c : nat) (x : node) (f : list node)
      (t : jsstring) (a : list attribute) (kids : list node) :
  (forall n, In n f -> NoDup (ids n) ->
             findNode c n = Some (Element c t a kids) ->
             findNode c (appendTo c x n) = Some (Element c t a (kids ++ [x]))) ->
  NoDup (idsOf f) ->
  findIn c f = Some (Element c t a kids) ->
  findIn c (map (appendTo c x) f) = Some (Element c t a (kids ++ [x])).
Proof.
  induction f as [|k f IHf]; intros IH Hnd; [discriminate|].
  rewrite idsOf_cons in Hnd. apply NoDup_app_iff in Hnd as (Hk & Hf & Hkf).
  cbn [map]. rewrite !findIn_cons.
  destruct (findNode c k) eqn:E; simpl.
  - intro E'. inversion E'; subst. rewrite (IH k); [reflexivity | now left | assumption | assumption].
  - intro E'. apply findNode_None in E. rewrite appendTo_notin by assumption.
    apply findNode_None in E. rewrite E. simpl.
    apply IHf; try assumption. intros n Hn. apply IH. now right.
Qed.

Lemma findNode_appendTo (c : nat) (x n : node)
      (t : jsstring) (a : list attribute) (kids : list node) :
  NoDup (ids n) ->
  findNode c n = Some (Element c t a kids) ->
  findNode c (appendTo c x n) = Some (Element c t a (kids ++ [x])).
Proof.
  induction n as [d | j t' a' kids' IH] using node_forest_ind; [discriminate|].
  intros Hnd. cbn [findNode appendTo]. inversion Hnd as [|? ? Hj Hkids]; subst.
  destruct (Nat.eqb_spec c j) as [->|Hcj].
  - intro E. inversion E; subst. rewrite Nat.eqb_refl.
    now rewrite appendTo_forest_notin.
  - destruct (Nat.eqb_spec j c) as [->|_]; [congruence|].
    intro E. apply (findIn_appendTo_forest c x kids'); try assumption.
    intros n Hn. rewrite Forall_forall in IH. now apply IH.
Qed.

(** The element [c] of a page gets [x] as its last child. *)
Lemma findIn_appendTo (c : nat) (x : node) (f : list node)
      (t : jsstring) (a : list attribute) (kids : list node) :
  NoDup (idsOf f) ->
  findIn c f = Some (Element c t a kids) ->
  findIn c (map (appendTo c x) f) = Some (Element c t a (kids ++ [x])).
Proof.
  intros. apply findIn_appendTo_forest; try assumption.
  intros n _. apply findNode_appendTo.
Qed.

Lemma hd_error_app {A} (l1 l2 : list A) (x : A) :
  hd_error l1 = Some x -> hd_error (l1 ++ l2) = Some x.
Proof. destruct l1; [discriminate | simpl; auto]. Qed.

Lemma select_appendTo_forest (sel : list jsstring) (c : nat) (x : node) (f : list node) :
  (forall n, In n f -> NoDup (ids n) ->
             hd_error (selectAll sel n) = Some c ->
             hd_error (selectAll sel (appendTo c x n)) = Some c) ->
  NoDup (idsOf f) ->
  hd_error (flat_map (selectAll sel) f) = Some c ->
  hd_error (flat_map (selectAll sel) (map (appendTo c x) f)) = Some c.
Proof.
  induction f as [|k f IHf]; intros IH Hnd; [discriminate|].
  rewrite idsOf_cons in Hnd. apply NoDup_app_iff in Hnd as (Hk & Hf & Hkf).
  cbn [map flat_map].
  destruct (selectAll sel k) as [|s l] eqn:E.
  - simpl. intro H.
    assert (In c (idsOf f)) as Hc.
    { apply selectAll_idsOf with sel.
      destruct (flat_map (selectAll sel) f); [discriminate|].
      inversion H. now left. }
    rewrite appendTo_notin by (intro Hc'; exact (Hkf c Hc' Hc)).
    rewrite E. simpl. apply IHf; try assumption. intros n Hn. apply IH. now right.
  - simpl. intro H. inversion H; subst. apply hd_error_app.
    apply IH; [now left | assumption | now rewrite E].
Qed.

Lemma select_appendTo (sel : list jsstring) (c : nat) (x n : node) :
  NoDup (ids n) ->
  hd_error (selectAll sel n) = Some c ->
  hd_error (selectAll sel (appendTo c x n)) = Some c.
Proof.
  induction n as [d | j t a kids IH] using node_forest_ind; [discriminate|].
  intros Hnd. cbn [selectAll appendTo]. inversion Hnd as [|? ? Hj Hkids]; subst.
  destruct (matchesClasses sel a); [simpl; auto|].
  simpl. intro H.
  assert (In c (idsOf kids)) as Hc.
  { apply selectAll_idsOf with sel.
    destruct (flat_map (selectAll sel) kids); [discriminate|].
    inversion H. now left. }
  destruct (Nat.eqb_spec j c) as [->|_]; [contradiction|].
  apply select_appendTo_forest; try assumption.
  intros n Hn. rewrite Forall_forall in IH. now apply IH.
Qed.

(** Appending to the first match of a selector leaves it the first match. *)
Lemma select_appendTo_idsOf (sel : list jsstring) (c : nat) (x : node) (f : list node) :
  NoDup (idsOf f) ->
  hd_error (flat_map (selectAll sel) f) = Some c ->
  hd_error (flat_map (selectAll sel) (map (appendTo c x) f)) = Some c.
Proof.
  intros. apply select_appendTo_forest; try assumption.
  intros n _. apply select_appendTo.
Qed.

(** *** What a selector finds after an append or a removal *)



Lemma selectAll_prune (sel : list jsstring) (j : nat) (n : node) (i : nat) :
  In i (flat_map (selectAll sel) (prune j n)) -> In i (selectAll sel n).
Proof.
  induction n as [d | k t a kids IH] using node_forest_ind; simpl; [tauto|].
  destruct (Nat.eqb j k); simpl; [tauto|].
  rewrite app_nil_r, !in_app_iff. intros [H|H]; [now left | right].
  rewrite flat_map_comp, in_flat_map in H. destruct H as [m [Hm Hi]].
  apply in_flat_map. exists m. split; [assumption|].
  rewrite Forall_forall in IH. now apply IH.
Qed.

Lemma select_prune (sel : list jsstring) (j : nat) (f : list node) (i : nat) :
  In i (flat_map (selectAll sel) (flat_map (prune j) f)) ->
  In i (flat_map (selectAll sel) f).
Proof.
  rewrite flat_map_comp, !in_flat_map. intros [m [Hm Hi]].
  exists m. split; [assumption | now apply selectAll_prune with j].
Qed.

(* ================================================================= *)
(** ** Well-formed windows *)

Lemma wellFormed_spec (w : window) :
  wellFormed w = true <->
  NoDup (idsOf (body w ++ detached w))
  /\ (forall i, In i (idsOf (body w ++ detached w)) -> i < next_id w).
Proof.
  unfold wellFormed. rewrite andb_true_iff, distinct_NoDup, forallb_forall.
  split; intros [H1 H2]; (split; [assumption|]); intros i Hi.
  - now apply Nat.ltb_lt, H2.
  - now apply Nat.ltb_lt, H2.
Qed.

Lemma wellFormed_body (w : window) :
  wellFormed w = true ->
  NoDup (idsOf (body w)) /\ (forall i, In i (idsOf (body w)) -> i < next_id w).
Proof.
  intro H. apply wellFormed_spec in H as [H1 H2].
  rewrite idsOf_app in H1. apply NoDup_app_iff in H1 as (H1 & _ & _).
  split; [assumption|]. intros i Hi. apply H2. rewrite idsOf_app, in_app_iff. now left.
Qed.

(** A page as the parser of the host builds it is well-formed. *)
Lemma parsed_page_wellFormed (hs : list html) (widget : bootstrapGlobal) (global : option object) :
  wellFormed {| body := fst (instantiateAll hs 0); detached := [];
                next_id := snd (instantiateAll hs 0);
                bootstrap := widget; notifications := global;
                shown := []; hiddenListeners := [] |} = true.
Proof.
  apply wellFormed_spec. cbn [body detached next_id]. rewrite app_nil_r.
  destruct (instantiateAll_ids hs 0) as [E1 E2]. rewrite E1, E2. split.
  - apply seq_NoDup.
  - intros i Hi. apply in_seq in Hi. lia.
Qed.

Lemma toastContainer_in (w : window) (c : nat) :
  toastContainer w = Some c -> In c (idsOf (body w)).
Proof.
  unfold toastContainer. intro H. apply selectAll_idsOf with [js "toast-container"].
  destruct (flat_map (selectAll [js "toast-container"]) (body w)); [discriminate|].
  inversion H. now left.
Qed.

Lemma matches_containerAttributes :
  matchesClasses [js "toast-container"] containerAttributes = true.
Proof. reflexivity. Qed.

(** *** Making the container *)

Lemma withContainer_wellFormed (w : window) :
  wellFormed w = true -> wellFormed (withContainer w) = true.
Proof.
  intro H. unfold withContainer. destruct (toastContainer w); [assumption|].
  apply wellFormed_spec in H as [H1 H2]. apply wellFormed_spec. cbn [body detached next_id setPage setNextId].
  assert (Permutation (idsOf ((body w ++ [Element (next_id w) (js "div") containerAttributes []]) ++ detached w))
                      (next_id w :: idsOf (body w ++ detached w))) as HP.
  { rewrite !idsOf_app. cbn [idsOf flat_map ids app]. rewrite <- app_assoc. cbn [app].
    symmetry. apply Permutation_middle. }
  split.
  - apply Permutation_NoDup with (1 := Permutation_sym HP).
    constructor; [|assumption]. intro Hin. apply H2 in Hin. lia.
  - intros i Hi. apply (Permutation_in _ HP) in Hi as [<-|Hi]; [lia|].
    apply H2 in Hi. lia.
Qed.

Lemma withContainer_toastContainer (w : window) :
  toastContainer (withContainer w) = Some (containerOf w).
Proof.
  unfold withContainer, containerOf. destruct (toastContainer w) eqn:E; [assumption|].
  unfold toastContainer in *. cbn [body setPage setNextId].
  rewrite flat_map_app.
  destruct (flat_map (selectAll [js "toast-container"]) (body w)); [|discriminate].
  reflexivity.
Qed.

Lemma withContainer_children (w : window) :
  wellFormed w = true ->
  childrenOf (containerOf w) (withContainer w) = childrenOf (containerOf w) w.
Proof.
  intro H. unfold withContainer, containerOf. destruct (toastContainer w); [reflexivity|].
  apply wellFormed_body in H as [_ H2].
  assert (findIn (next_id w) (body w) = None) as E.
  { apply findIn_None. intro Hin. apply H2 in Hin. lia. }
  unfold childrenOf. cbn [body setPage setNextId].
  rewrite findIn_app, E. simpl. now rewrite Nat.eqb_refl.
Qed.

Lemma withContainer_next_id (w : window) :
  next_id w <= next_id (withContainer w).
Proof.
  unfold withContainer. destruct (toastContainer w); simpl; lia.
Qed.

(** *** Appending a tree of new elements to the first match *)

Lemma withChild_wellFormed (c : nat) (x : node) (n : nat) (w : window) :
  wellFormed w = true ->
  NoDup (ids x) ->
  next_id w <= n ->
  (forall i, In i (ids x) -> next_id w <= i < n) ->
  wellFormed (setNextId n (withChild c x w)) = true.
Proof.
  intros H Hx Hn Hfresh. apply wellFormed_spec in H as [H1 H2]. apply wellFormed_spec.
  cbn [body detached next_id setPage setNextId withChild]. rewrite <- map_app. split.
  - apply NoDup_appendTo_idsOf; try assumption.
    intros i Hi Hi'. apply H2 in Hi. apply Hfresh in Hi'. lia.
  - intros i Hi. apply idsOf_appendTo_new in Hi as [Hi|Hi].
    + apply H2 in Hi. lia.
    + apply Hfresh in Hi. lia.
Qed.

Lemma withChild_detached (c : nat) (x : node) (w : window) :
  wellFormed w = true -> In c (idsOf (body w)) ->
  detached (withChild c x w) = detached w.
Proof.
  intros H Hc. apply wellFormed_spec in H as [H1 _].
  rewrite idsOf_app in H1. apply NoDup_app_iff in H1 as (_ & _ & Hd).
  cbn [detached withChild setPage]. apply appendTo_forest_notin.
  intro Hc'. exact (Hd c Hc Hc').
Qed.

Lemma withChild_toastContainer (c : nat) (x : node) (w : window) :
  wellFormed w = true -> toastContainer w = Some c ->
  toastContainer (withChild c x w) = Some c.
Proof.
  intros H Hc. apply wellFormed_body in H as [H1 _].
  unfold toastContainer in *. cbn [body withChild setPage].
  now apply select_appendTo_idsOf.
Qed.

Lemma withChild_children (c : nat) (x : node) (w : window) :
  wellFormed w = true -> In c (idsOf (body w)) ->
  childrenOf c (withChild c x w) = childrenOf c w ++ [x].
Proof.
  intros H Hc. apply wellFormed_body in H as [H1 _].
  unfold childrenOf. cbn [body withChild setPage].
  destruct (findIn c (body w)) as [m|] eqn:E.
  - destruct (findIn_shape _ _ _ E) as (t & a & kids & ->).
    now rewrite findIn_appendTo with (t := t) (a := a) (kids := kids).
  - apply findIn_None in E. contradiction.
Qed.

(* ================================================================= *)
(** ** [node.remove()] *)

Lemma remove_eq (i : nat) (w : window) :
  remove i w =
  (Normal tt,
   setPage (flat_map (prune i) (body w))
           (map (pruneBelow i) (detached w)
              ++ flat_map (cuts i) (body w)
              ++ flat_map (cuts i) (flat_map childNodesOf (detached w)))
           w).
Proof. reflexivity. Qed.

Lemma remove_wellFormed (i : nat) (w : window) :
  wellFormed w = true -> wellFormed (snd (remove i w)) = true.
Proof.
  intro H. apply wellFormed_spec in H as [H1 H2]. apply wellFormed_spec.
  rewrite remove_eq. cbn [snd body detached next_id setPage].
  pose proof (remove_permutation i (body w) (detached w)) as HP. split.
  - now apply Permutation_NoDup with (1 := HP).
  - intros j Hj. apply H2. now apply (Permutation_in _ (Permutation_sym HP)).
Qed.

Lemma remove_gone (i : nat) (w : window) :
  ~ In i (idsOf (body (snd (remove i w)))).
Proof. rewrite remove_eq. cbn [snd body setPage]. apply prune_forest_self. Qed.

Lemma remove_body_ids (i j : nat) (w : window) :
  In j (idsOf (body (snd (remove i w)))) -> In j (idsOf (body w)).
Proof.
  rewrite remove_eq. cbn [snd body setPage]. intro H.
  apply (Permutation_in _ (Permutation_sym (idsOf_prune_cuts i (body w)))).
  apply in_or_app. now left.
Qed.

Lemma remove_keeps (i j : nat) (w : window) :
  In j (idsOf (body w ++ detached w)) ->
  In j (idsOf (body (snd (remove i w)) ++ detached (snd (remove i w)))).
Proof.
  rewrite remove_eq. cbn [snd body detached setPage].
  apply Permutation_in, remove_permutation.
Qed.

Lemma settled_app (i : nat) (f g : list node) :
  settled i f -> settled i g -> settled i (f ++ g).
Proof.
  intros Hf Hg m Hm. apply in_app_or in Hm as [Hm|Hm]; [now apply Hf | now apply Hg].
Qed.

Lemma settled_fixed (i : nat) (f : list node) :
  settled i f ->
  map (pruneBelow i) f = f /\ flat_map (cuts i) (flat_map childNodesOf f) = [].
Proof.
  induction f as [|r f IH]; intro H; [split; reflexivity|].
  destruct IH as [E1 E2]; [intros m Hm; apply H; now right|].
  cbn [map flat_map]. rewrite flat_map_app, E1, E2, app_nil_r.
  assert (~ In i (idsOf (childNodesOf r))) as Hr by (apply H; now left).
  split; [now rewrite pruneBelow_absent | now apply cuts_forest_absent].
Qed.

Lemma settled_pruneBelow (i : nat) (f : list node) :
  settled i (map (pruneBelow i) f).
Proof.
  intros m Hm. apply in_map_iff in Hm as [r [<- _]].
  destruct r as [d | j t a kids]; simpl; [tauto|]. apply prune_forest_self.
Qed.

Lemma settled_cuts (i : nat) (n : node) :
  NoDup (ids n) -> settled i (cuts i n).
Proof.
  induction n as [d | j t a kids IH] using node_forest_ind; intros Hnd m; simpl; [tauto|].
  inversion Hnd as [|? ? Hj Hkids]; subst.
  destruct (Nat.eqb_spec i j) as [->|Hij].
  - intros [<-|[]]. exact Hj.
  - clear Hj Hnd. change (NoDup (idsOf kids)) in Hkids.
    induction IH as [|k kids Hk _ IHk]; simpl; [tauto|].
    rewrite idsOf_cons in Hkids. apply NoDup_app_iff in Hkids as (H1 & H2 & _).
    intro Hm. apply in_app_or in Hm as [Hm|Hm]; [now apply Hk | now apply IHk].
Qed.

Lemma settled_cuts_forest (i : nat) (f : list node) :
  NoDup (idsOf f) -> settled i (flat_map (cuts i) f).
Proof.
  induction f as [|k f IH]; intro Hnd; [intros m []|].
  rewrite idsOf_cons in Hnd. apply NoDup_app_iff in Hnd as (H1 & H2 & _).
  cbn [flat_map]. apply settled_app; [now apply settled_cuts | now apply IH].
Qed.

Lemma NoDup_children (f : list node) :
  NoDup (idsOf f) -> NoDup (idsOf (flat_map childNodesOf f)).
Proof.
  induction f as [|r f IH]; intro Hnd; [constructor|].
  rewrite idsOf_cons in Hnd. apply NoDup_app_iff in Hnd as (H1 & H2 & H3).
  cbn [flat_map]. rewrite idsOf_app. apply NoDup_app_iff. split; [|split].
  - destruct r as [d | j t a kids]; simpl; [constructor|]. now inversion H1.
  - now apply IH.
  - intros x Hx1 Hx2. apply (H3 x).
    + destruct r as [d | j t a kids]; simpl in *; [tauto | now right].
    + clear - Hx2. induction f as [|r f IH]; [assumption|].
      cbn [flat_map] in Hx2. rewrite idsOf_app, in_app_iff in Hx2.
      rewrite idsOf_cons, in_app_iff. destruct Hx2 as [Hx|Hx]; [left | right; auto].
      destruct r as [d | j t a kids]; simpl in *; [tauto | now right].
Qed.

(** Removing an element a second time changes nothing. *)
Lemma remove_idempotent (i : nat) (w : window) :
  wellFormed w = true ->
  remove i (snd (remove i w)) = (Normal tt, snd (remove i w)).
Proof.
  intro H. apply wellFormed_spec in H as [H1 _].
  rewrite idsOf_app in H1. apply NoDup_app_iff in H1 as (Hb & Hd & _).
  rewrite !remove_eq. cbn [snd body detached setPage]. f_equal.
  assert (settled i (map (pruneBelow i) (detached w)
                       ++ flat_map (cuts i) (body w)
                       ++ flat_map (cuts i) (flat_map childNodesOf (detached w)))) as Hs.
  { apply settled_app; [apply settled_pruneBelow|].
    apply settled_app; apply settled_cuts_forest; [assumption|].
    now apply NoDup_children. }
  apply settled_fixed in Hs as [E1 E2].
  rewrite E1, E2, app_nil_r.
  rewrite (cuts_forest_absent i (flat_map (prune i) (body w))) by apply prune_forest_self.
  rewrite (prune_forest_absent i (flat_map (prune i) (body w))) by apply prune_forest_self.
  rewrite app_nil_r. unfold setPage. reflexivity.
Qed.

Lemma remove_frame (i : nat) (w : window) :
  let w' := snd (remove i w) in
  next_id w' = next_id w /\ hasBootstrapToast w' = hasBootstrapToast w
  /\ notifications w' = notifications w /\ shown w' = shown w
  /\ hiddenListeners w' = hiddenListeners w.
Proof. repeat split; reflexivity. Qed.

Lemma getProperty_name (o : object) (name : jsstring) (p : member) :
  getProperty o name = Some p -> propertyName p = name.
Proof.
  unfold getProperty. intro H. apply find_some in H as [_ H]. now apply jseqb_eq.
Qed.

Lemma canShow_frame (w w' : window) :
  hasBootstrapToast w' = hasBootstrapToast w -> notifications w' = notifications w ->
  canShow w -> canShow w'.
Proof. unfold canShow. intros -> ->. tauto. Qed.

Lemma forEach_cons (a : nat) (l : list nat) (f : nat -> M unit) (w : window) :
  forEach (a :: l) f w =
  match f a w with
  | (Normal _, w') => forEach l f w'
  | (Throw e, w') => (Throw e, w')
  end.
Proof. reflexivity. Qed.

Lemma toastContainer_last (b : list node) (c : nat) (toasts : list node) (w : window) :
  body w = b ++ [containerNode c toasts] ->
  flat_map (selectAll [js "toast-container"]) b = [] ->
  toastContainer w = Some c.
Proof.
  intros Eb Hb. unfold toastContainer. rewrite Eb, flat_map_app, Hb. reflexivity.
Qed.

Lemma toastContainer_None (w : window) :
  toastContainer w = None -> flat_map (selectAll [js "toast-container"]) (body w) = [].
Proof.
  unfold toastContainer. now destruct (flat_map (selectAll [js "toast-container"]) (body w)).
Qed.

(* ================================================================= *)
(** ** The 'hidden.bs.toast' listener *)

Lemma forEach_remove_again (t : nat) (w : window) (l : list nat) :
  (forall x, In x l -> x = t) ->
  remove t w = (Normal tt, w) ->
  forEach l remove w = (Normal tt, w).
Proof.
  intros Hl Hw. induction l as [|x l IH]; [reflexivity|].
  rewrite forEach_cons, (Hl x (or_introl eq_refl)), Hw.
  apply IH. intros y Hy. apply Hl. now right.
Qed.

Lemma dispatchHidden_eq (t : nat) (w : window) :
  wellFormed w = true -> In t (hiddenListeners w) ->
  dispatchHidden t w = (Normal tt, snd (remove t w)).
Proof.
  intros Hwf Hin. unfold dispatchHidden, bind, gets.
  destruct (filter (Nat.eqb t) (hiddenListeners w)) as [|x l] eqn:E.
  - exfalso. assert (In t (filter (Nat.eqb t) (hiddenListeners w))) as Ht.
    { apply filter_In. split; [assumption | apply Nat.eqb_refl]. }
    now rewrite E in Ht.
  - assert (forall y, In y (x :: l) -> y = t) as Hall.
    { intros y Hy. rewrite <- E in Hy. apply filter_In in Hy as [_ Hy].
      symmetry. now apply Nat.eqb_eq. }
    rewrite forEach_cons, (Hall x (or_introl eq_refl)), remove_eq.
    apply (forEach_remove_again t); [intros y Hy; apply Hall; now right|].
    rewrite <- remove_eq. change (remove t w) with (Normal tt, snd (remove t w)).
    now apply remove_idempotent.
Qed.

(** Well-formedness is kept by the listener, as it is by [_showToast], by
    [node.remove()] and by the handler. *)
Lemma dispatchHidden_wellFormed (t : nat) (w : window) :
  wellFormed w = true -> wellFormed (snd (dispatchHidden t w)) = true.
Proof.
  intro Hwf. unfold dispatchHidden, bind, gets.
  generalize (filter (Nat.eqb t) (hiddenListeners w)) as l. intro l.
  revert w Hwf. induction l as [|x l IH]; intros w Hwf; [assumption|].
  rewrite forEach_cons. change (remove x w) with (Normal tt, snd (remove x w)).
  apply IH. now apply remove_wellFormed.
Qed.

Lemma findNode_sub (c : nat) (n m : node) (i : nat) :
  findNode c n = Some m -> In i (ids m) -> In i (ids n).
Proof.
  induction n as [d | j t a kids IH] using node_forest_ind; simpl; [discriminate|].
  destruct (Nat.eqb c j); [intro E; inversion E; subst; tauto|].
  intros E Hi. right. induction IH as [|k kids Hk _ IHk]; [discriminate|].
  simpl in E. simpl. rewrite in_app_iff.
  destruct (findNode c k) eqn:Ek; simpl in E; [left; apply Hk; congruence | right; auto].
Qed.

Lemma findIn_sub (c : nat) (f : list node) (m : node) (i : nat) :
  findIn c f = Some m -> In i (ids m) -> In i (idsOf f).
Proof.
  induction f as [|k f IH]; [discriminate|].
  rewrite findIn_cons, idsOf_cons, in_app_iff. intros E Hi.
  destruct (findNode c k) eqn:Ek; simpl in E; [|right; auto].
  inversion E; subst. left. now apply findNode_sub with c m.
Qed.

Lemma childrenOf_ids (c : nat) (w : window) (i : nat) :
  In i (idsOf (childrenOf c w)) -> In i (idsOf (body w)).
Proof.
  unfold childrenOf. destruct (findIn c (body w)) as [n|] eqn:E; [|contradiction].
  intro Hi. apply (findIn_sub _ _ _ _ E).
  destruct n as [d | j t a kids]; simpl in *; [tauto | now right].
Qed.

(** C6: once the 'hidden.bs.toast' event has fired on a toast that has the
    script's listener, the toast is no longer in the page (so not in the
    container either); the event firing again completes without a fault and
    leaves the window as it is. *)
Theorem hidden_event_removes_toast (t : nat) (w : window) :
  wellFormed w = true ->
  In t (hiddenListeners w) ->
  let r := dispatchHidden t w in
  fst r = Normal tt
  /\ ~ In t (idsOf (body (snd r)))
  /\ (forall c, ~ In t (idsOf (childrenOf c (snd r))))
  /\ dispatchHidden t (snd r) = (Normal tt, snd r).
Proof.
  intros Hwf Hin. cbv zeta. rewrite (dispatchHidden_eq t w Hwf Hin). cbn [fst snd].
  split; [reflexivity|]. split; [apply remove_gone|]. split.
  - intros c Hc. apply (remove_gone t w). now apply childrenOf_ids with c.
  - rewrite dispatchHidden_eq.
    + now rewrite (remove_idempotent t w Hwf).
    + now apply remove_wellFormed.
    + exact Hin.
Qed.

(* ================================================================= *)
(** ** The category of an alert *)

(** C4: the category of an alert is decided by the first of the markers
    [alert-success], [alert-warning], [alert-danger] that its class list
    contains, in this order, and is "info" when it contains none: the
    conditional chain of the script computes what the specification's
    ordered list of markers describes, and an alert with several markers
    gets the category of the one that comes first. *)
Theorem category_first_match_wins (classes : list jsstring) :
  category classes = firstMatchingSeverity classes
  /\ (contains classes (js "alert-success") = true -> category classes = js "success")
  /\ (contains classes (js "alert-success") = false ->
      contains classes (js "alert-warning") = true -> category classes = js "warning")
  /\ (contains classes (js "alert-success") = false ->
      contains classes (js "alert-warning") = false ->
      contains classes (js "alert-danger") = true -> category classes = js "danger")
  /\ (contains classes (js "alert-success") = false ->
      contains classes (js "alert-warning") = false ->
      contains classes (js "alert-danger") = false -> category classes = js "info").
Proof.
  unfold category, firstMatchingSeverity, severityMarkers. cbn [find fst snd].
  destruct (contains classes (js "alert-success")),
           (contains classes (js "alert-warning")),
           (contains classes (js "alert-danger"));
    repeat split; intros; try reflexivity; discriminate.
Qed.

(* ================================================================= *)
(** ** The script, for any HTML parser of the host *)

Section ScriptFacts.

Variable parseHTML : jsstring -> list html.

(** *** [_showToast], step by step *)

Lemma showToast_unfold (type message : jsstring) (w : window) :
  _showToast parseHTML type message w =
  let w1 := withContainer w in
  let t := next_id w1 in
  let w2 := setNextId (toastEnd parseHTML message (next_id w1))
              (withChild (containerOf w) (toastNode parseHTML type message t) w1) in
  if hasBootstrapToast w
  then (Normal tt, setHiddenListeners (hiddenListeners w ++ [t]) (setShown (shown w ++ [t]) w2))
  else (Throw (widgetFault w), w2).
Proof.
  unfold _showToast, bind, querySelector, gets, withContainer, containerOf, toastContainer,
    createElement, innerHTML, appendChild, appendToBody, newBootstrapToast, bsShow,
    addHiddenListener, modify, ret, hasBootstrapToast, widgetFault.
  destruct (hd_error (flat_map (selectAll [js "toast-container"]) (body w))) as [c|];
    cbn [body detached next_id bootstrap setPage setNextId];
    destruct (bootstrap w); reflexivity.
Qed.

Lemma toastNode_ids (type message : jsstring) (t : nat) :
  ids (toastNode parseHTML type message t)
  = seq t (S (elementsOf (parseHTML (toastMarkup message))))
  /\ toastEnd parseHTML message t = S t + elementsOf (parseHTML (toastMarkup message)).
Proof.
  unfold toastNode, toastEnd.
  destruct (instantiateAll_ids (parseHTML (toastMarkup message)) (S t)) as [E1 E2].
  split; [|assumption]. cbn [ids seq]. f_equal. exact E1.
Qed.

Lemma toastNode_fresh (type message : jsstring) (t i : nat) :
  In i (ids (toastNode parseHTML type message t)) -> t <= i < toastEnd parseHTML message t.
Proof.
  destruct (toastNode_ids type message t) as [E1 E2]. rewrite E1, E2.
  intro H. apply in_seq in H. lia.
Qed.

Lemma toastNode_NoDup (type message : jsstring) (t : nat) :
  NoDup (ids (toastNode parseHTML type message t)).
Proof.
  destruct (toastNode_ids type message t) as [E1 _]. rewrite E1. apply seq_NoDup.
Qed.

Lemma toastEnd_gt (message : jsstring) (t : nat) : t < toastEnd parseHTML message t.
Proof.
  destruct (toastNode_ids [] message t) as [_ E2]. rewrite E2. lia.
Qed.

Ltac show_cases w :=
  rewrite showToast_unfold; cbv zeta; destruct (hasBootstrapToast w);
  cbn [fst snd body detached next_id hasBootstrapToast notifications shown
       hiddenListeners setPage setNextId setShown setHiddenListeners].

Lemma showToast_completion (type message : jsstring) (w : window) :
  fst (_showToast parseHTML type message w)
  = if hasBootstrapToast w then Normal tt else Throw (widgetFault w).
Proof. show_cases w; reflexivity. Qed.

Lemma showToast_frame (type message : jsstring) (w : window) :
  let w' := snd (_showToast parseHTML type message w) in
  hasBootstrapToast w' = hasBootstrapToast w
  /\ notifications w' = notifications w.
Proof.
  rewrite showToast_unfold. cbv zeta. unfold withContainer, hasBootstrapToast.
  destruct (bootstrap w) eqn:E, (toastContainer w); cbn; rewrite ?E;
    split; reflexivity.
Qed.

Lemma showToast_registers (type message : jsstring) (w : window) :
  let w' := snd (_showToast parseHTML type message w) in
  let t := next_id (withContainer w) in
  shown w' = (if hasBootstrapToast w then shown w ++ [t] else shown w)
  /\ hiddenListeners w' = (if hasBootstrapToast w then hiddenListeners w ++ [t]
                           else hiddenListeners w).
Proof.
  rewrite showToast_unfold. cbv zeta. unfold withContainer.
  destruct (hasBootstrapToast w), (toastContainer w); split; reflexivity.
Qed.

Lemma showToast_page (type message : jsstring) (w : window) :
  let w' := snd (_showToast parseHTML type message w) in
  let w1 := withContainer w in
  body w' = map (appendTo (containerOf w) (toastNode parseHTML type message (next_id w1))) (body w1)
  /\ detached w' = map (appendTo (containerOf w) (toastNode parseHTML type message (next_id w1)))
                       (detached w1)
  /\ next_id w' = toastEnd parseHTML message (next_id w1).
Proof. show_cases w; repeat split; reflexivity. Qed.

Lemma showToast_wellFormed (type message : jsstring) (w : window) :
  wellFormed w = true -> wellFormed (snd (_showToast parseHTML type message w)) = true.
Proof.
  intro H. apply withContainer_wellFormed in H.
  pose proof (withChild_wellFormed (containerOf w)
                (toastNode parseHTML type message (next_id (withContainer w)))
                (toastEnd parseHTML message (next_id (withContainer w))) _ H
                (toastNode_NoDup _ _ _)) as Hw.
  assert (wellFormed (setNextId (toastEnd parseHTML message (next_id (withContainer w)))
            (withChild (containerOf w)
               (toastNode parseHTML type message (next_id (withContainer w))) (withContainer w))) = true)
    as Hwf.
  { apply Hw.
    - pose proof (toastEnd_gt message (next_id (withContainer w))). lia.
    - apply toastNode_fresh. }
  show_cases w; exact Hwf.
Qed.

Lemma showToast_toastContainer (type message : jsstring) (w : window) :
  wellFormed w = true ->
  toastContainer (snd (_showToast parseHTML type message w)) = Some (containerOf w).
Proof.
  intro H. apply withContainer_wellFormed in H.
  pose proof (withChild_toastContainer _
                (toastNode parseHTML type message (next_id (withContainer w)))
                _ H (withContainer_toastContainer w)) as Hc.
  show_cases w; exact Hc.
Qed.

Lemma showToast_children (type message : jsstring) (w : window) :
  wellFormed w = true ->
  childrenOf (containerOf w) (snd (_showToast parseHTML type message w))
  = childrenOf (containerOf w) w
      ++ [toastNode parseHTML type message (next_id (withContainer w))].
Proof.
  intro H. rewrite <- (withContainer_children _ H).
  apply withContainer_wellFormed in H.
  pose proof (withChild_children _ (toastNode parseHTML type message (next_id (withContainer w)))
                _ H (toastContainer_in _ _ (withContainer_toastContainer w))) as Hc.
  show_cases w; exact Hc.
Qed.

Lemma showToast_detached (type message : jsstring) (w : window) :
  wellFormed w = true ->
  detached (snd (_showToast parseHTML type message w)) = detached w.
Proof.
  intro H. pose proof (withContainer_wellFormed _ H) as H1.
  pose proof (withChild_detached _ (toastNode parseHTML type message (next_id (withContainer w)))
                _ H1 (toastContainer_in _ _ (withContainer_toastContainer w))) as Hc.
  assert (detached (withContainer w) = detached w) as Hd.
  { unfold withContainer. now destruct (toastContainer w). }
  rewrite Hd in Hc. show_cases w; exact Hc.
Qed.

Lemma showToast_next_id (type message : jsstring) (w : window) :
  next_id w < next_id (snd (_showToast parseHTML type message w)).
Proof.
  pose proof (withContainer_next_id w).
  pose proof (toastEnd_gt message (next_id (withContainer w))).
  show_cases w; lia.
Qed.

(** Every element stays; the ones that join the page are new. *)
Lemma showToast_keeps (type message : jsstring) (w : window) (i : nat) :
  In i (idsOf (body w ++ detached w)) ->
  In i (idsOf (body (snd (_showToast parseHTML type message w))
                 ++ detached (snd (_showToast parseHTML type message w)))).
Proof.
  intro H. destruct (showToast_page type message w) as (Eb & Ed & _).
  cbv zeta in Eb, Ed. rewrite Eb, Ed, <- map_app. apply idsOf_appendTo_keep.
  unfold withContainer. destruct (toastContainer w); [assumption|].
  cbn [body detached setPage setNextId]. rewrite !idsOf_app, !in_app_iff in *. tauto.
Qed.

Lemma showToast_body_ids (type message : jsstring) (w : window) (i : nat) :
  In i (idsOf (body (snd (_showToast parseHTML type message w)))) ->
  In i (idsOf (body w)) \/ next_id w <= i.
Proof.
  destruct (showToast_page type message w) as (Eb & _ & _). cbv zeta in Eb. rewrite Eb.
  intro H. apply idsOf_appendTo_new in H as [H|H].
  - unfold withContainer in H. destruct (toastContainer w); [now left|].
    cbn [body setPage setNextId] in H. rewrite idsOf_app, in_app_iff in H.
    destruct H as [H|H]; [now left | right]. simpl in H. lia.
  - right. apply toastNode_fresh in H. pose proof (withContainer_next_id w). lia.
Qed.

(* ================================================================= *)
(** ** The conversion of one alert *)

Lemma grows_wellFormed (w w1 : window) :
  grows parseHTML w w1 -> wellFormed w = true -> wellFormed w1 = true.
Proof. intros [->|(ty & m & ->)] H; [assumption | now apply showToast_wellFormed]. Qed.

Lemma grows_keeps (w w1 : window) (i : nat) :
  grows parseHTML w w1 -> In i (idsOf (body w ++ detached w)) ->
  In i (idsOf (body w1 ++ detached w1)).
Proof. intros [->|(ty & m & ->)] H; [assumption | now apply showToast_keeps]. Qed.

Lemma grows_body_ids (w w1 : window) (i : nat) :
  grows parseHTML w w1 -> In i (idsOf (body w1)) -> In i (idsOf (body w)) \/ next_id w <= i.
Proof. intros [->|(ty & m & ->)] H; [now left | now apply showToast_body_ids in H]. Qed.

Lemma grows_next_id (w w1 : window) : grows parseHTML w w1 -> next_id w <= next_id w1.
Proof.
  intros [->|(ty & m & ->)]; [lia|]. pose proof (showToast_next_id ty m w). lia.
Qed.

Lemma grows_frame (w w1 : window) :
  grows parseHTML w w1 ->
  hasBootstrapToast w1 = hasBootstrapToast w /\ notifications w1 = notifications w.
Proof. intros [->|(ty & m & ->)]; [split; reflexivity | apply showToast_frame]. Qed.

Lemma grows_shown (w w1 : window) :
  grows parseHTML w w1 -> List.length (shown w1) <= S (List.length (shown w)).
Proof.
  intros [->|(ty & m & ->)]; [lia|].
  destruct (showToast_registers ty m w) as [E _]. cbv zeta in E. rewrite E.
  destruct (hasBootstrapToast w); [|lia]. rewrite length_app. simpl. lia.
Qed.

Lemma showToast_pair (type message : jsstring) (w : window) :
  _showToast parseHTML type message w
  = (if hasBootstrapToast w then Normal tt else Throw (widgetFault w),
     snd (_showToast parseHTML type message w)).
Proof.
  rewrite <- (showToast_completion type message w). apply surjective_pairing.
Qed.

Lemma callShowToast_cases (this : object) (type message : jsstring) (w : window) :
  (getProperty this (js "_showToast") <> None
   /\ callShowToast parseHTML this type message w = _showToast parseHTML type message w)
  \/ (getProperty this (js "_showToast") = None
      /\ callShowToast parseHTML this type message w = (Throw TypeError, w)).
Proof.
  unfold callShowToast. destruct (getProperty this (js "_showToast")).
  - left. split; [discriminate | reflexivity].
  - right. split; reflexivity.
Qed.

Lemma callMember_cases (this : object) (p : member) (message : jsstring) (w : window) :
  getProperty this (propertyName p) = Some p ->
  (exists type m, (p = PShowToast \/ getProperty this (js "_showToast") <> None)
                  /\ callMember parseHTML this p message w = _showToast parseHTML type m w)
  \/ (getProperty this (js "_showToast") = None
      /\ callMember parseHTML this p message w = (Throw TypeError, w)).
Proof.
  intro Hp.
  destruct p; cbn [callMember]; unfold showSuccess, showWarning, showDanger, showInfo;
    try (match goal with
         | |- context [callShowToast parseHTML ?o ?t ?m w] =>
             destruct (callShowToast_cases o t m w) as [[H1 H2]|[H1 H2]];
             [left; exists t, m; split; [now right | exact H2] | right; split; assumption]
         end).
  left. exists message, (js "undefined"). split; [now left | reflexivity].
Qed.

(** The shape of every run of the callback on an alert the page knows. *)
Lemma convertAlert_cases (alert : nat) (w : window) :
  In alert (idsOf (body w ++ detached w)) ->
  exists w1,
    grows parseHTML w w1
    /\ (convertAlert parseHTML alert w = (Normal tt, snd (remove alert w1))
        \/ (~ canShow w
            /\ exists e, e <> DanglingReference /\ convertAlert parseHTML alert w = (Throw e, w1))).
Proof.
  intro Hin. unfold convertAlert, bind, deref, gets.
  destruct (findIn alert (body w ++ detached w)) as [n|] eqn:En;
    [|apply findIn_None in En; contradiction].
  destruct (notifications w) as [o|] eqn:Eo;
    [|exists w; split; [now left | left; reflexivity]].
  set (name := methodName _). set (message := trim (textContent n)).
  destruct (getProperty o name) as [p|] eqn:Ep;
    [|exists w; split; [now left | left; reflexivity]].
  assert (getProperty o (propertyName p) = Some p) as Hp.
  { now rewrite (getProperty_name _ _ _ Ep). }
  destruct (callMember_cases o p message w Hp) as [(ty & m & Hs & E)|[Hnone E]]; rewrite E.
  - exists (snd (_showToast parseHTML ty m w)). split; [right; eauto|].
    rewrite showToast_pair. destruct (hasBootstrapToast w) eqn:Eb.
    + left. reflexivity.
    + right. split; [intro Hc; destruct (Hc o Eo) as [Hb _]; congruence|].
      exists (widgetFault w). split; [apply widgetFault_raised | reflexivity].
  - exists w. split; [now left|]. right. split.
    + intro Hc. destruct (Hc o Eo) as [_ Hc']. exact (Hc' Hnone).
    + exists TypeError. split; [discriminate | reflexivity].
Qed.

(** What the loop over the alerts maintains and achieves. *)
Lemma forEach_convertAlert (l : list nat) :
  forall w,
    wellFormed w = true ->
    (forall a, In a l -> In a (idsOf (body w ++ detached w))) ->
    let r := forEach l (convertAlert parseHTML) w in
    wellFormed (snd r) = true
    /\ next_id w <= next_id (snd r)
    /\ fst r <> Throw DanglingReference
    /\ (forall i, In i (idsOf (body (snd r))) -> In i (idsOf (body w)) \/ next_id w <= i)
    /\ (fst r = Normal tt -> forall a, In a l -> ~ In a (idsOf (body (snd r))))
    /\ List.length (shown (snd r)) <= List.length (shown w) + List.length l
    /\ (canShow w -> fst r = Normal tt)
    /\ hasBootstrapToast (snd r) = hasBootstrapToast w
    /\ notifications (snd r) = notifications w.
Proof.
  induction l as [|a l IH]; intros w Hwf Hin; cbv zeta.
  - simpl. repeat split; try tauto; try lia; try discriminate.
  - rewrite forEach_cons.
    destruct (convertAlert_cases a w (Hin a (or_introl eq_refl)))
      as (w1 & Hg & [E|(Hno & e & He & E)]); rewrite E.
    + set (w2 := snd (remove a w1)).
      pose proof (grows_wellFormed _ _ Hg Hwf) as Hwf1.
      pose proof (remove_wellFormed a _ Hwf1) as Hwf2. fold w2 in Hwf2.
      destruct (grows_frame _ _ Hg) as [Eb En].
      assert (forall a', In a' l -> In a' (idsOf (body w2 ++ detached w2))) as Hin2.
      { intros a' Ha'. apply remove_keeps, (grows_keeps _ _ _ Hg), Hin. now right. }
      destruct (IH w2 Hwf2 Hin2) as (I1 & I2 & I3 & I4 & I5 & I6 & I7 & I8 & I9).
      pose proof (grows_next_id _ _ Hg) as Hn.
      assert (next_id w2 = next_id w1) as Hn2 by reflexivity.
      assert (forall i, In i (idsOf (body w2)) -> In i (idsOf (body w)) \/ next_id w <= i) as Hb2.
      { intros i Hi. apply remove_body_ids in Hi. now apply (grows_body_ids _ _ _ Hg). }
      repeat split; try assumption.
      * lia.
      * intros i Hi. destruct (I4 i Hi) as [Hi'|Hi']; [now apply Hb2 | right; lia].
      * intros HN a' [<-|Ha']; [|now apply I5].
        intro Hi. destruct (I4 _ Hi) as [Hi'|Hi'].
        -- exact (remove_gone a w1 Hi').
        -- apply wellFormed_spec in Hwf as [_ Hlt].
           specialize (Hlt a (Hin a (or_introl eq_refl))). lia.
      * pose proof (grows_shown _ _ Hg). change (shown w2) with (shown w1) in I6.
        simpl. lia.
      * intro Hc. apply I7. apply (canShow_frame w); [| |assumption].
        -- now transitivity (hasBootstrapToast w1).
        -- now transitivity (notifications w1).
      * now transitivity (hasBootstrapToast w1).
      * now transitivity (notifications w1).
    + cbn [fst snd]. destruct (grows_frame _ _ Hg) as [Eb En].
      repeat split; try assumption.
      * now apply (grows_wellFormed _ _ Hg).
      * now apply grows_next_id.
      * intro E'. inversion E'. contradiction.
      * intros i Hi. now apply (grows_body_ids _ _ _ Hg).
      * discriminate.
      * pose proof (grows_shown _ _ Hg). simpl. lia.
      * intro Hc. contradiction.
Qed.

(* ================================================================= *)
(** ** The entry points *)

Lemma entryPoint_eq (s : severity) (message : jsstring) (w : window) :
  entryPoint parseHTML s BudgeteerNotifications message w
  = _showToast parseHTML (severityName s) (glyph s ++ message) w.
Proof. destruct s; reflexivity. Qed.

Lemma entryPoint_wellFormed (s : severity) (this : object) (message : jsstring) (w : window) :
  wellFormed w = true ->
  wellFormed (snd (entryPoint parseHTML s this message w)) = true.
Proof.
  intro Hwf.
  destruct s; cbn [entryPoint];
    unfold showSuccess, showWarning, showDanger, showInfo, callShowToast;
    (destruct (getProperty this (js "_showToast")); [now apply showToast_wellFormed | assumption]).
Qed.

(** A call that finds the container as the last node of the body appends
    its toast there. *)
Lemma showToast_reuse (type message : jsstring) (b : list node) (c : nat)
      (toasts : list node) (w : window) :
  wellFormed w = true ->
  body w = b ++ [containerNode c toasts] ->
  flat_map (selectAll [js "toast-container"]) b = [] ->
  body (snd (_showToast parseHTML type message w))
  = b ++ [containerNode c (toasts ++ [toastNode parseHTML type message (next_id w)])].
Proof.
  intros Hwf Eb Hb. pose proof (toastContainer_last _ _ _ _ Eb Hb) as Ec.
  destruct (showToast_page type message w) as (E & _ & _). cbv zeta in E.
  unfold containerOf, withContainer in E. rewrite Ec in E. rewrite E, Eb.
  apply wellFormed_body in Hwf as [Hnd _]. rewrite Eb, idsOf_app in Hnd.
  apply NoDup_app_iff in Hnd as (_ & Hc & Hdis).
  cbn [idsOf flat_map containerNode ids] in Hc, Hdis. rewrite app_nil_r in Hc, Hdis.
  inversion Hc as [|? ? Hct _]; subst.
  rewrite map_app. cbn [map appendTo containerNode]. rewrite Nat.eqb_refl.
  rewrite appendTo_forest_notin by (intro Hin; apply (Hdis c Hin); now left).
  now rewrite (appendTo_forest_notin c _ toasts).
Qed.

(** A call that finds no container makes one, as the last node of the body. *)
Lemma showToast_first (type message : jsstring) (w : window) :
  wellFormed w = true ->
  toastContainer w = None ->
  body (snd (_showToast parseHTML type message w))
  = body w ++ [containerNode (next_id w) [toastNode parseHTML type message (S (next_id w))]].
Proof.
  intros Hwf Ec. destruct (showToast_page type message w) as (E & _ & _). cbv zeta in E.
  unfold containerOf, withContainer in E. rewrite Ec in E.
  cbn [body next_id setPage setNextId] in E. rewrite E.
  apply wellFormed_body in Hwf as [_ Hlt].
  rewrite map_app. cbn [map appendTo]. rewrite Nat.eqb_refl.
  rewrite appendTo_forest_notin; [reflexivity|].
  intro Hin. apply Hlt in Hin. lia.
Qed.

Lemma runCalls_reuse (calls : list (severity * jsstring)) :
  forall (b : list node) (c : nat) (toasts : list node) (w : window),
    wellFormed w = true ->
    body w = b ++ [containerNode c toasts] ->
    flat_map (selectAll [js "toast-container"]) b = [] ->
    exists more,
      body (runCalls parseHTML calls w) = b ++ [containerNode c (toasts ++ more)]
      /\ Forall2 (isToastOf parseHTML) calls more.
Proof.
  induction calls as [|call calls IH]; intros b c toasts w Hwf Eb Hb.
  - exists []. rewrite app_nil_r. split; [assumption | constructor].
  - cbn [runCalls fold_left]. rewrite entryPoint_eq.
    set (w1 := snd (_showToast parseHTML (severityName (fst call)) (glyph (fst call) ++ snd call) w)).
    assert (wellFormed w1 = true) as Hwf1 by now apply showToast_wellFormed.
    pose proof (showToast_reuse (severityName (fst call)) (glyph (fst call) ++ snd call)
                  _ _ _ _ Hwf Eb Hb) as Eb1. fold w1 in Eb1.
    destruct (IH _ _ _ _ Hwf1 Eb1 Hb) as (more & E & HF).
    exists (toastNode parseHTML (severityName (fst call)) (glyph (fst call) ++ snd call) (next_id w)
              :: more).
    split.
    + unfold runCalls in E. rewrite E, <- app_assoc. reflexivity.
    + constructor; [|assumption]. now exists (next_id w).
Qed.

(* ================================================================= *)
(** ** The container and the completion of an entry point *)

(** C3 (as the script has it): on a page that holds no toast container,
    the container is made lazily and once.  The first call of a sequence of
    calls of the entry points appends one container to the body, with the
    classes that fix it at the top right ([position-fixed top-0 end-0]);
    every call of the sequence appends its toast to that container, so that
    the container holds the toasts in the order of the calls; the container
    is what [document.querySelector('.toast-container')] finds afterwards.
    (A page that holds a toast container of its own gets none from the
    script.) *)
Theorem container_is_lazy_singleton
        (call : severity * jsstring) (calls : list (severity * jsstring)) (w : window) :
  wellFormed w = true ->
  toastContainer w = None ->
  exists toasts,
    body (runCalls parseHTML (call :: calls) w)
    = body w ++ [Element (next_id w) (js "div")
                         [(js "class", js "toast-container position-fixed top-0 end-0 p-3");
                          (js "style", js "z-index: 9999;")]
                         toasts]
    /\ Forall2 (isToastOf parseHTML) (call :: calls) toasts
    /\ toastContainer (runCalls parseHTML (call :: calls) w) = Some (next_id w).
Proof.
  intros Hwf Ec. cbn [runCalls fold_left]. rewrite entryPoint_eq.
  set (ty := severityName (fst call)). set (m := glyph (fst call) ++ snd call).
  pose proof (showToast_first ty m w Hwf Ec) as Eb.
  pose proof (showToast_wellFormed ty m w Hwf) as Hwf1.
  pose proof (toastContainer_None w Ec) as Hb.
  destruct (runCalls_reuse calls _ _ _ _ Hwf1 Eb Hb) as (more & E & HF).
  exists ([toastNode parseHTML ty m (S (next_id w))] ++ more). split; [|split].
  - exact E.
  - constructor; [now exists (S (next_id w)) | assumption].
  - now apply (toastContainer_last (body w) (next_id w) ([toastNode parseHTML ty m (S (next_id w))] ++ more)).
Qed.

(** C5 (as the script has it): an entry point returns no value.  It
    completes without a fault exactly when [bootstrap.Toast] builds a
    widget.  In a host where the identifier [bootstrap] is not bound the call
    ends in a ReferenceError; in a host where [bootstrap] is bound to a value
    whose [Toast] is no constructor it ends in a TypeError.  In both cases
    the toast is already in the container by then, though no widget was
    shown and no listener was added. *)
Theorem entry_point_faults_without_widget
        (s : severity) (message : jsstring) (w : window) :
  let r := entryPoint parseHTML s BudgeteerNotifications message w in
  fst r = match bootstrap w with
          | WithToast => Normal tt
          | WithoutToast => Throw TypeError
          | Unbound => Throw ReferenceError
          end
  /\ body (snd r)
     = map (appendTo (containerOf w)
                     (toastNode parseHTML (severityName s) (glyph s ++ message)
                                (next_id (withContainer w))))
           (body (withContainer w))
  /\ shown (snd r)
     = (if hasBootstrapToast w then shown w ++ [next_id (withContainer w)] else shown w)
  /\ hiddenListeners (snd r)
     = (if hasBootstrapToast w then hiddenListeners w ++ [next_id (withContainer w)]
        else hiddenListeners w).
Proof.
  cbv zeta. rewrite entryPoint_eq. split.
  - rewrite showToast_completion. unfold hasBootstrapToast, widgetFault.
    destruct (bootstrap w); reflexivity.
  - destruct (showToast_page (severityName s) (glyph s ++ message) w) as (Eb & _ & _).
    destruct (showToast_registers (severityName s) (glyph s ++ message) w) as (Es & El).
    repeat split; assumption.
Qed.

(* ================================================================= *)
(** ** The [DOMContentLoaded] handler *)




(** The handler runs to its end when nothing stands in the way of a toast,
    and it never follows a dangling reference. *)
Lemma handler_completes (w : window) :
  wellFormed w = true ->
  (canShow w -> fst (onDOMContentLoaded parseHTML w) = Normal tt)
  /\ fst (onDOMContentLoaded parseHTML w) <> Throw DanglingReference
  /\ wellFormed (snd (onDOMContentLoaded parseHTML w)) = true.
Proof.
  intro Hwf.
  assert (onDOMContentLoaded parseHTML w = forEach (hiddenAlerts w) (convertAlert parseHTML) w) as E by reflexivity.
  rewrite E.
  assert (forall a, In a (hiddenAlerts w) -> In a (idsOf (body w ++ detached w))) as Hin.
  { intros a Ha. rewrite idsOf_app, in_app_iff. left.
    now apply selectAll_idsOf with [js "alert"; js "d-none"]. }
  destruct (forEach_convertAlert (hiddenAlerts w) w Hwf Hin)
    as (I1 & _ & I3 & _ & _ & _ & I7 & _). auto.
Qed.

(** C8: for an alert the page knows, when [window.BudgeteerNotifications]
    is missing, or has no method of the name derived from the alert's
    category, the callback makes no call: it completes without a fault,
    makes no element, shows no toast, and the alert has left the page. *)
Theorem missing_notifier_is_skipped (alert : nat) (n : node) (w : window) :
  findIn alert (body w ++ detached w) = Some n ->
  (notifications w = None
   \/ exists o, notifications w = Some o
                /\ getProperty o (methodName (category (classList (attributesOf n)))) = None) ->
  convertAlert parseHTML alert w = (Normal tt, snd (remove alert w))
  /\ ~ In alert (idsOf (body (snd (convertAlert parseHTML alert w))))
  /\ next_id (snd (convertAlert parseHTML alert w)) = next_id w
  /\ shown (snd (convertAlert parseHTML alert w)) = shown w
  /\ hiddenListeners (snd (convertAlert parseHTML alert w)) = hiddenListeners w.
Proof.
  intros En Hmiss.
  assert (convertAlert parseHTML alert w = (Normal tt, snd (remove alert w))) as E.
  { unfold convertAlert, bind, deref, gets. rewrite En.
    destruct Hmiss as [Eo|(o & Eo & Ep)]; rewrite Eo; [reflexivity|].
    rewrite Ep. reflexivity. }
  rewrite E. cbn [snd]. split; [reflexivity|]. split; [apply remove_gone|].
  repeat split; reflexivity.
Qed.

(** With the script's object in place, the callback calls the entry point
    of the alert's category with the trimmed text of the alert, and then
    removes the alert. *)
Lemma convertAlert_calls (alert : nat) (n : node) (w : window) :
  findIn alert (body w ++ detached w) = Some n ->
  notifications w = Some BudgeteerNotifications ->
  exists s,
    severityName s = category (classList (attributesOf n))
    /\ convertAlert parseHTML alert w
       = bind (entryPoint parseHTML s BudgeteerNotifications (trim (textContent n)))
              (fun _ => remove alert) w.
Proof.
  intros En Eo. unfold convertAlert, bind, deref, gets. rewrite En, Eo.
  unfold category.
  destruct (contains (classList (attributesOf n)) (js "alert-success"));
    [exists Success; split; reflexivity|].
  destruct (contains (classList (attributesOf n)) (js "alert-warning"));
    [exists Warning; split; reflexivity|].
  destruct (contains (classList (attributesOf n)) (js "alert-danger"));
    [exists Danger; split; reflexivity | exists Info; split; reflexivity].
Qed.

End ScriptFacts.

(* ================================================================= *)
(** ** The reference parser on the toast template *)

Lemma plainText_cons (c : N) (s : jsstring) :
  plainText (c :: s) = true <->
  (c <> 60 /\ c <> 38 /\ c <> 13 /\ c <> 0)%N /\ plainText s = true.
Proof.
  unfold plainText. cbn [forallb]. rewrite andb_true_iff, negb_true_iff, !orb_false_iff.
  rewrite !N.eqb_neq. tauto.
Qed.

Lemma plainText_app (s1 s2 : jsstring) :
  plainText (s1 ++ s2) = plainText s1 && plainText s2.
Proof. apply forallb_app. Qed.

Lemma plainText_noCR (s : jsstring) : plainText s = true -> noCR s = true.
Proof.
  induction s as [|c s IH]; [reflexivity|].
  intro H. apply plainText_cons in H as [(_ & _ & Hc & _) Hs].
  cbn [noCR forallb]. apply N.eqb_neq in Hc. rewrite Hc. simpl. now apply IH.
Qed.

Lemma normalizeNewlines_noCR (s : jsstring) :
  noCR s = true -> normalizeNewlines s = s.
Proof.
  induction s as [|c s IH]; [reflexivity|].
  cbn [noCR forallb normalizeNewlines]. rewrite andb_true_iff, negb_true_iff.
  intros [Hc Hs]. rewrite Hc. f_equal. now apply IH.
Qed.

(** Plain character data is read into the pending text, one unit at a time. *)
Lemma lex_plain (s : jsstring) :
  plainText s = true ->
  forall p e,
    fold_left lexStep s {| mode := Data; pending := p; emitted := e |}
    = {| mode := Data; pending := p ++ s; emitted := e |}.
Proof.
  induction s as [|c s IH]; intros H p e.
  - now rewrite app_nil_r.
  - apply plainText_cons in H as [(H1 & H2 & H3 & H4) Hs].
    cbn [fold_left]. unfold lexStep at 2. cbn [mode]. unfold lexData.
    apply N.eqb_neq in H1, H2, H4. rewrite H1, H2, H4.
    unfold pushChars. cbn [pending emitted]. rewrite IH by assumption.
    now rewrite <- app_assoc.
Qed.

(** Tokens of markup with a run of plain character data in the middle. *)
Lemma tokenize_around (before s after : jsstring) (p : jsstring) (e : list token) :
  noCR before = true -> noCR after = true -> plainText s = true ->
  fold_left lexStep before {| mode := Data; pending := []; emitted := [] |}
  = {| mode := Data; pending := p; emitted := e |} ->
  tokenize (before ++ s ++ after)
  = lexEnd (fold_left lexStep after {| mode := Data; pending := p ++ s; emitted := e |}).
Proof.
  intros Hb Ha Hs Eb. unfold tokenize.
  rewrite normalizeNewlines_noCR.
  - now rewrite !fold_left_app, Eb, lex_plain.
  - unfold noCR in *. rewrite !forallb_app, Hb, Ha. fold (noCR s).
    now rewrite plainText_noCR.
Qed.

(** A message of plain text becomes the one text node of the toast body. *)
Lemma parse_plain_message (c : N) (s : jsstring) :
  plainText (c :: s) = true ->
  parseFragment (toastMarkup (c :: s)) = toastTree [HText (c :: s)].
Proof.
  intro H. unfold parseFragment, toastMarkup.
  rewrite (tokenize_around toastMarkupBefore (c :: s) toastMarkupAfter []
             [TChars (newline ++ js "            ");
              TStart (js "div") [(js "class", js "d-flex")];
              TChars (newline ++ js "                ");
              TStart (js "div") [(js "class", js "toast-body")]]);
    try assumption; try reflexivity.
Qed.

Lemma parse_bold_message (g : jsstring) (c : N) (s : jsstring) :
  In g [glyphSuccess; glyphWarning; glyphDanger; glyphInfo] ->
  plainText (c :: s) = true ->
  parseFragment (toastMarkup (g ++ js "<b>" ++ (c :: s) ++ js "</b>"))
  = toastTree [HText g; HElement (js "b") [] [HText (c :: s)]].
Proof.
  intros Hg H. unfold parseFragment, toastMarkup.
  replace (toastMarkupBefore ++ (g ++ js "<b>" ++ (c :: s) ++ js "</b>") ++ toastMarkupAfter)
    with ((toastMarkupBefore ++ g ++ js "<b>") ++ (c :: s) ++ (js "</b>" ++ toastMarkupAfter))
    by now rewrite <- !app_assoc.
  rewrite (tokenize_around (toastMarkupBefore ++ g ++ js "<b>") (c :: s)
             (js "</b>" ++ toastMarkupAfter) []
             [TChars (newline ++ js "            ");
              TStart (js "div") [(js "class", js "d-flex")];
              TChars (newline ++ js "                ");
              TStart (js "div") [(js "class", js "toast-body")];
              TChars g;
              TStart (js "b") []]);
    try assumption; try reflexivity;
    cbn [In] in Hg; destruct Hg as [<-|[<-|[<-|[<-|[]]]]]; reflexivity.
Qed.

(** The message on its own, parsed as the children of an element. *)
Lemma parse_plain (c : N) (s : jsstring) :
  plainText (c :: s) = true -> parseFragment (c :: s) = [HText (c :: s)].
Proof.
  intro H. unfold parseFragment.
  rewrite <- (app_nil_r (c :: s)) at 1.
  change ((c :: s) ++ []) with ([] ++ (c :: s) ++ []).
  rewrite (tokenize_around [] (c :: s) [] [] []); try assumption; reflexivity.
Qed.

Lemma parse_bold (g : jsstring) (c : N) (s : jsstring) :
  In g [glyphSuccess; glyphWarning; glyphDanger; glyphInfo] ->
  plainText (c :: s) = true ->
  parseFragment (g ++ js "<b>" ++ (c :: s) ++ js "</b>")
  = [HText g; HElement (js "b") [] [HText (c :: s)]].
Proof.
  intros Hg H. unfold parseFragment.
  replace (g ++ js "<b>" ++ (c :: s) ++ js "</b>")
    with ((g ++ js "<b>") ++ (c :: s) ++ js "</b>")
    by now rewrite <- !app_assoc.
  rewrite (tokenize_around (g ++ js "<b>") (c :: s) (js "</b>") []
             [TChars g; TStart (js "b") []]);
    try assumption; try reflexivity;
    cbn [In] in Hg; destruct Hg as [<-|[<-|[<-|[<-|[]]]]]; reflexivity.
Qed.

Lemma toastBodyText_toastTree (type : jsstring) (content : list html) (t : nat) :
  toastBodyText (Element t (js "div") (toastAttributes type)
                         (fst (instantiateAll (toastTree content) (S t))))
  = Some (flat_map textContent (fst (instantiateAll content (S (S (S t)))))).
Proof. reflexivity. Qed.

Lemma toastBodyText_plain (type : jsstring) (c : N) (s : jsstring) (t : nat) :
  plainText (c :: s) = true ->
  toastBodyText (toastNode parseFragment type (c :: s) t) = Some (c :: s).
Proof.
  intro H. unfold toastNode. rewrite parse_plain_message by assumption.
  rewrite toastBodyText_toastTree. cbn. now rewrite app_nil_r.
Qed.

Lemma glyph_plain (s : severity) (message : jsstring) :
  plainText message = true ->
  exists c rest, glyph s ++ message = c :: rest /\ plainText (c :: rest) = true.
Proof.
  intro H. destruct s; cbn [glyph glyphSuccess glyphWarning glyphDanger glyphInfo app];
    eexists _, _; (split; [reflexivity|]);
    repeat (apply plainText_cons; split; [repeat split; discriminate|]); assumption.
Qed.

Lemma toast_class_marker (s : severity) :
  contains (classList (toastAttributes (severityName s))) (js "bg-" ++ severityName s) = true.
Proof. destruct s; reflexivity. Qed.

(** The toast an entry point appends on a well-formed page, for the
    reference parser. *)
Lemma entryPoint_appends (s : severity) (message : jsstring) (w : window) :
  wellFormed w = true ->
  let w' := snd (entryPoint parseFragment s BudgeteerNotifications message w) in
  let toast := toastNode parseFragment (severityName s) (glyph s ++ message)
                         (next_id (withContainer w)) in
  toastContainer w' = Some (containerOf w)
  /\ childrenOf (containerOf w) w' = childrenOf (containerOf w) w ++ [toast]
  /\ contains (classList (attributesOf toast)) (js "bg-" ++ severityName s) = true.
Proof.
  intro Hwf. cbv zeta. rewrite entryPoint_eq. split; [|split].
  - now apply showToast_toastContainer.
  - now apply showToast_children.
  - apply toast_class_marker.
Qed.

(* ================================================================= *)
(** ** Statements about what a toast shows *)

(** C1 (as the script has it): for each of the four severities, the entry
    point called with a message of plain text (no [<], [&], carriage return
    or NUL) adds exactly one node to the toast container, as its last child;
    the class list of that toast contains the style marker of the severity
    ([bg-success], ...), and the text of its body is the glyph of the
    severity followed by the message. *)
Theorem show_appends_one_toast (s : severity) (message : jsstring) (w : window) :
  wellFormed w = true ->
  plainText message = true ->
  let w' := snd (entryPoint parseFragment s BudgeteerNotifications message w) in
  exists c toast,
    toastContainer w' = Some c
    /\ childrenOf c w' = childrenOf c w ++ [toast]
    /\ contains (classList (attributesOf toast)) (js "bg-" ++ severityName s) = true
    /\ toastBodyText toast = Some (glyph s ++ message).
Proof.
  intros Hwf Hplain. cbv zeta.
  destruct (entryPoint_appends s message w Hwf) as (H1 & H2 & H3).
  exists (containerOf w),
         (toastNode parseFragment (severityName s) (glyph s ++ message)
                    (next_id (withContainer w))).
  repeat split; try assumption.
  destruct (glyph_plain s message Hplain) as (c & rest & -> & Hp).
  now apply toastBodyText_plain.
Qed.

Lemma show_appends_one_toast_witness :
  wellFormed emptyPage = true
  /\ plainText (js "Budget saved") = true
  /\ exists c toast,
       toastContainer (snd (showSuccess parseFragment BudgeteerNotifications
                                        (js "Budget saved") emptyPage)) = Some c
       /\ childrenOf c (snd (showSuccess parseFragment BudgeteerNotifications
                                         (js "Budget saved") emptyPage))
          = childrenOf c emptyPage ++ [toast]
       /\ contains (classList (attributesOf toast)) (js "bg-" ++ js "success") = true
       /\ toastBodyText toast = Some (glyphSuccess ++ js "Budget saved").
Proof.
  split; [reflexivity|]. split; [reflexivity|].
  apply (show_appends_one_toast Success (js "Budget saved") emptyPage); reflexivity.
Defined.

(** The body text of a toast is not the message when the message holds
    markup: the success entry point called with [<b>x</b>] on the empty
    page makes one toast, whose body reads the glyph and [x]. *)
Lemma markup_message_is_not_the_body_text :
  childrenOf 0 (snd (showSuccess parseFragment BudgeteerNotifications
                                 (js "<b>x</b>") emptyPage))
  = [toastNode parseFragment (js "success") (glyphSuccess ++ js "<b>x</b>") 1]
  /\ toastBodyText (toastNode parseFragment (js "success") (glyphSuccess ++ js "<b>x</b>") 1)
     = Some (glyphSuccess ++ js "x")
  /\ toastBodyText (toastNode parseFragment (js "success") (glyphSuccess ++ js "<b>x</b>") 1)
     <> Some (glyphSuccess ++ js "<b>x</b>").
Proof.
  split; [reflexivity|]. split; [reflexivity|]. vm_compute. discriminate.
Qed.

(** C9: an entry point called with the empty string still appends exactly
    one toast to the container; the text of its body is the glyph alone
    (with the space that follows it).  This holds for the danger entry
    point as for the other three: none of them checks the message. *)
Theorem empty_message_still_shows (s : severity) (w : window) :
  wellFormed w = true ->
  let w' := snd (entryPoint parseFragment s BudgeteerNotifications [] w) in
  exists c toast,
    toastContainer w' = Some c
    /\ childrenOf c w' = childrenOf c w ++ [toast]
    /\ toastBodyText toast = Some (glyph s).
Proof.
  intro Hwf. cbv zeta.
  destruct (entryPoint_appends s [] w Hwf) as (H1 & H2 & _).
  exists (containerOf w),
         (toastNode parseFragment (severityName s) (glyph s ++ [])
                    (next_id (withContainer w))).
  repeat split; try assumption.
  destruct (glyph_plain s [] eq_refl) as (c & rest & E & Hp).
  rewrite E. rewrite app_nil_r in E. rewrite E. now apply toastBodyText_plain.
Qed.

Lemma empty_message_still_shows_witness :
  wellFormed emptyPage = true
  /\ exists c toast,
       toastContainer (snd (showDanger parseFragment BudgeteerNotifications [] emptyPage))
       = Some c
       /\ childrenOf c (snd (showDanger parseFragment BudgeteerNotifications [] emptyPage))
          = childrenOf c emptyPage ++ [toast]
       /\ toastBodyText toast = Some glyphDanger.
Proof.
  split; [reflexivity|].
  apply (empty_message_still_shows Danger emptyPage); reflexivity.
Defined.

(** C10 (as the script has it): the message reaches the parser as it is.
    Whatever the host's parser, the children of the toast are what the
    parser makes of the template with the glyph and the message spliced in
    unescaped, so that tags of the message become structure of the toast.
    With the reference parser, a message that wraps plain text in a [b] tag
    puts a [b] element into the toast body, and the body then reads the text
    without the tag; for a message that is plain text, or plain text in a
    [b] tag, the children of the toast body are the glyph and the message
    parsed as markup.  (That is not so for every message: markup of the
    message can end the toast body.) *)
Theorem message_is_parsed_as_markup :
  (forall parseHTML s message w,
      wellFormed w = true ->
      let t := next_id (withContainer w) in
      childrenOf (containerOf w)
                 (snd (entryPoint parseHTML s BudgeteerNotifications message w))
      = childrenOf (containerOf w) w
          ++ [Element t (js "div") (toastAttributes (severityName s))
                      (fst (instantiateAll
                              (parseHTML (toastMarkupBefore ++ (glyph s ++ message)
                                            ++ toastMarkupAfter))
                              (S t)))])
  /\ (forall s c text,
         plainText (c :: text) = true ->
         parseFragment (toastMarkup (glyph s ++ js "<b>" ++ (c :: text) ++ js "</b>"))
         = toastTree [HText (glyph s); HElement (js "b") [] [HText (c :: text)]])
  /\ (forall s c text t,
         plainText (c :: text) = true ->
         toastBodyText (toastNode parseFragment (severityName s)
                                  (glyph s ++ js "<b>" ++ (c :: text) ++ js "</b>") t)
         = Some (glyph s ++ c :: text))
  /\ (forall s c text message,
         plainText (c :: text) = true ->
         message = c :: text \/ message = js "<b>" ++ (c :: text) ++ js "</b>" ->
         parseFragment (toastMarkup (glyph s ++ message))
         = toastTree (parseFragment (glyph s ++ message))).
Proof.
  assert (forall s, In (glyph s) [glyphSuccess; glyphWarning; glyphDanger; glyphInfo]) as Hg
      by (intros []; cbn; tauto).
  split; [|split; [|split]].
  - intros parseHTML s message w Hwf. cbv zeta. rewrite entryPoint_eq.
    now apply showToast_children.
  - intros s c text H. now apply parse_bold_message.
  - intros s c text t H. unfold toastNode. rewrite parse_bold_message by auto.
    rewrite toastBodyText_toastTree. cbn. now rewrite !app_nil_r.
  - intros s c text message H [->| ->].
    + destruct (glyph_plain s (c :: text) H) as (c' & rest & E & Hp). rewrite E.
      now rewrite parse_plain_message, parse_plain.
    + now rewrite parse_bold_message, parse_bold.
Qed.

(** C7: with the script's object in place, the callback calls the entry
    point of the alert's category with the text content of the alert,
    trimmed, and then removes the alert.  On the page with the hidden alert
    [alert alert-warning d-none] that reads " Low balance ", the handler
    shows one warning toast that reads the warning glyph and "Low balance",
    and the alert has left the page. *)
Theorem migration_passes_trimmed_text :
  (forall parseHTML alert n w,
      findIn alert (body w ++ detached w) = Some n ->
      notifications w = Some BudgeteerNotifications ->
      exists s,
        severityName s = category (classList (attributesOf n))
        /\ convertAlert parseHTML alert w
           = bind (entryPoint parseHTML s BudgeteerNotifications (trim (textContent n)))
                  (fun _ => remove alert) w)
  /\ (let w' := snd (onDOMContentLoaded parseFragment flashPage) in
      let toast := toastNode parseFragment (js "warning")
                             (glyphWarning ++ js "Low balance") 2 in
      hiddenAlerts flashPage = [0]
      /\ trim (textContent lowBalanceAlert) = js "Low balance"
      /\ fst (onDOMContentLoaded parseFragment flashPage) = Normal tt
      /\ childrenOf 1 w' = [toast]
      /\ contains (classList (attributesOf toast)) (js "bg-warning") = true
      /\ toastBodyText toast = Some (glyphWarning ++ js "Low balance")
      /\ ~ In 0 (idsOf (body w'))).
Proof.
  split.
  - intros parseHTML alert n w En Eo. now apply convertAlert_calls.
  - cbv zeta. repeat split; try reflexivity. vm_compute. intuition discriminate.
Qed.

(* ================================================================= *)
(** ** The statements at work on the example pages *)

Lemma container_is_lazy_singleton_witness :
  wellFormed emptyPage = true
  /\ toastContainer emptyPage = None
  /\ exists toasts,
       body (runCalls parseFragment [(Success, js "Budget saved"); (Danger, [])] emptyPage)
       = body emptyPage
           ++ [Element (next_id emptyPage) (js "div")
                       [(js "class", js "toast-container position-fixed top-0 end-0 p-3");
                        (js "style", js "z-index: 9999;")]
                       toasts]
       /\ Forall2 (isToastOf parseFragment) [(Success, js "Budget saved"); (Danger, [])] toasts
       /\ toastContainer
            (runCalls parseFragment [(Success, js "Budget saved"); (Danger, [])] emptyPage)
          = Some (next_id emptyPage).
Proof.
  split; [reflexivity|]. split; [reflexivity|].
  apply (container_is_lazy_singleton parseFragment (Success, js "Budget saved")
                                     [(Danger, [])] emptyPage); reflexivity.
Defined.

(** Without the widget an entry point ends in a fault. *)
Lemma show_without_widget_throws :
  hasBootstrapToast emptyPageWithoutWidget = false
  /\ fst (showSuccess parseFragment BudgeteerNotifications (js "Budget saved")
                      emptyPageWithoutWidget)
     = Throw ReferenceError.
Proof. split; reflexivity. Qed.

Lemma hidden_event_removes_toast_witness :
  wellFormed pageWithToast = true
  /\ In 1 (hiddenListeners pageWithToast)
  /\ fst (dispatchHidden 1 pageWithToast) = Normal tt
  /\ ~ In 1 (idsOf (body (snd (dispatchHidden 1 pageWithToast))))
  /\ (forall c, ~ In 1 (idsOf (childrenOf c (snd (dispatchHidden 1 pageWithToast)))))
  /\ dispatchHidden 1 (snd (dispatchHidden 1 pageWithToast))
     = (Normal tt, snd (dispatchHidden 1 pageWithToast)).
Proof.
  split; [reflexivity|]. split; [left; reflexivity|].
  apply (hidden_event_removes_toast 1 pageWithToast); [reflexivity | left; reflexivity].
Defined.


(** A host whose [bootstrap] global has no [Toast] constructor: an entry
    point ends in a TypeError, and so does the handler, in the turn of the
    first of the two alerts; both alerts stay. *)
Example bootstrap_without_toast :
  fst (showDanger parseFragment BudgeteerNotifications (js "Overdrawn")
                  twoAlertsPageWithoutToast)
  = Throw TypeError
  /\ fst (onDOMContentLoaded parseFragment twoAlertsPageWithoutToast) = Throw TypeError
  /\ hiddenAlerts (snd (onDOMContentLoaded parseFragment twoAlertsPageWithoutToast)) = [0; 2].
Proof. repeat split; reflexivity. Qed.

Lemma missing_notifier_is_skipped_witness :
  findIn 0 (body flashPageWithoutScript ++ detached flashPageWithoutScript)
  = Some lowBalanceAlert
  /\ notifications flashPageWithoutScript = None
  /\ convertAlert parseFragment 0 flashPageWithoutScript
     = (Normal tt, snd (remove 0 flashPageWithoutScript))
  /\ ~ In 0 (idsOf (body (snd (convertAlert parseFragment 0 flashPageWithoutScript))))
  /\ next_id (snd (convertAlert parseFragment 0 flashPageWithoutScript))
     = next_id flashPageWithoutScript
  /\ shown (snd (convertAlert parseFragment 0 flashPageWithoutScript))
     = shown flashPageWithoutScript
  /\ hiddenListeners (snd (convertAlert parseFragment 0 flashPageWithoutScript))
     = hiddenListeners flashPageWithoutScript.
Proof.
  split; [reflexivity|]. split; [reflexivity|].
  apply (missing_notifier_is_skipped parseFragment 0 lowBalanceAlert flashPageWithoutScript);
    [reflexivity | left; reflexivity].
Defined.

(** The examples of the specification, run. *)
Example budget_saved :
  let w' := snd (showSuccess parseFragment BudgeteerNotifications (js "Budget saved")
                             emptyPage) in
  let toast := toastNode parseFragment (js "success") (glyphSuccess ++ js "Budget saved") 1 in
  fst (showSuccess parseFragment BudgeteerNotifications (js "Budget saved") emptyPage)
  = Normal tt
  /\ childrenOf 0 w' = [toast]
  /\ classNameOf (attributesOf toast)
     = js "toast align-items-center text-white bg-success border-0"
  /\ toastBodyText toast = Some ([9989; 32]%N ++ js "Budget saved").
Proof. repeat split; reflexivity. Qed.

Example method_names :
  map methodName [js "success"; js "warning"; js "danger"; js "info"]
  = [js "showSuccess"; js "showWarning"; js "showDanger"; js "showInfo"].
Proof. reflexivity. Qed.

Example several_markers :
  category (classList [(js "class", js "alert alert-danger alert-success d-none")])
  = js "success"
  /\ category (classList [(js "class", js "alert-danger alert alert-warning")])
     = js "warning"
  /\ category (classList [(js "class", js "alert d-none")]) = js "info".
Proof. repeat split; reflexivity. Qed.


Lemma category_first_match_wins_witness :
  contains [js "alert"; js "alert-danger"; js "alert-warning"] (js "alert-success") = false
  /\ contains [js "alert"; js "alert-danger"; js "alert-warning"] (js "alert-warning") = true
  /\ category [js "alert"; js "alert-danger"; js "alert-warning"] = js "warning".
Proof.
  split; [reflexivity|]. split; [reflexivity|].
  apply (proj1 (proj2 (proj2 (category_first_match_wins
                                [js "alert"; js "alert-danger"; js "alert-warning"]))));
    reflexivity.
Defined.

Lemma migration_passes_trimmed_text_witness :
  findIn 0 (body flashPage ++ detached flashPage) = Some lowBalanceAlert
  /\ notifications flashPage = Some BudgeteerNotifications
  /\ exists s,
       severityName s = category (classList (attributesOf lowBalanceAlert))
       /\ convertAlert parseFragment 0 flashPage
          = bind (entryPoint parseFragment s BudgeteerNotifications
                             (trim (textContent lowBalanceAlert)))
                 (fun _ => remove 0) flashPage.
Proof.
  split; [reflexivity|]. split; [reflexivity|].
  apply (proj1 migration_passes_trimmed_text parseFragment 0 lowBalanceAlert flashPage);
    reflexivity.
Defined.

Lemma message_is_parsed_as_markup_witness :
  wellFormed emptyPage = true
  /\ plainText (js "x") = true
  /\ childrenOf (containerOf emptyPage)
                (snd (entryPoint parseFragment Success BudgeteerNotifications
                                 (js "<b>x</b>") emptyPage))
     = childrenOf (containerOf emptyPage) emptyPage
         ++ [Element (next_id (withContainer emptyPage)) (js "div")
                     (toastAttributes (severityName Success))
                     (fst (instantiateAll
                             (parseFragment (toastMarkupBefore
                                               ++ (glyph Success ++ js "<b>x</b>")
                                               ++ toastMarkupAfter))
                             (S (next_id (withContainer emptyPage)))))]
  /\ toastBodyText (toastNode parseFragment (severityName Success)
                              (glyph Success ++ js "<b>" ++ js "x" ++ js "</b>") 1)
     = Some (glyph Success ++ js "x")
  /\ parseFragment (toastMarkup (glyph Success ++ js "<b>" ++ js "x" ++ js "</b>"))
     = toastTree (parseFragment (glyph Success ++ js "<b>" ++ js "x" ++ js "</b>")).
Proof.
  split; [reflexivity|]. split; [reflexivity|]. split; [|split].
  - apply (proj1 message_is_parsed_as_markup parseFragment Success (js "<b>x</b>") emptyPage).
    reflexivity.
  - apply (proj1 (proj2 (proj2 message_is_parsed_as_markup)) Success 120%N [] 1).
    reflexivity.
  - apply (proj2 (proj2 (proj2 message_is_parsed_as_markup)) Success 120%N []
                 (js "<b>" ++ js "x" ++ js "</b>")); [reflexivity | now right].
Defined.

(** A page that has a toast container of its own: the first call makes no
    container, the toast joins the author's element, and no element of the
    page carries the classes that fix the container at the top right. *)
Lemma authored_container_is_not_replaced :
  toastContainer authoredContainerPage = Some 0
  /\ body (snd (showSuccess parseFragment BudgeteerNotifications (js "Budget saved")
                            authoredContainerPage))
     = [Element 0 (js "div") [(js "class", js "toast-container")]
                [toastNode parseFragment (js "success") (glyphSuccess ++ js "Budget saved") 1]]
  /\ flat_map (selectAll [js "position-fixed"])
              (body (snd (showSuccess parseFragment BudgeteerNotifications (js "Budget saved")
                                      authoredContainerPage)))
     = []
  /\ flat_map (selectAll [js "toast-container"])
              (body (snd (showSuccess parseFragment BudgeteerNotifications (js "Budget saved")
                                      authoredContainerPage)))
     = [0].
Proof. repeat split; reflexivity. Qed.

(** A message with a stray end tag.  Parsed as markup, the glyph and the
    message are one text; in the toast, the end tag closes the toast body,
    which holds the text up to the tag, and the rest of the message lies
    outside the body. *)
Lemma stray_end_tag_ends_the_toast_body :
  parseFragment (glyphSuccess ++ js "a</div>b") = [HText (glyphSuccess ++ js "ab")]
  /\ childrenOf 0 (snd (showSuccess parseFragment BudgeteerNotifications (js "a</div>b")
                                    emptyPage))
     = [toastNode parseFragment (js "success") (glyphSuccess ++ js "a</div>b") 1]
  /\ option_map childNodesOf
                (toastBody (toastNode parseFragment (js "success")
                                      (glyphSuccess ++ js "a</div>b") 1))
     = Some [Text (glyphSuccess ++ js "a")]
  /\ toastBodyText (toastNode parseFragment (js "success") (glyphSuccess ++ js "a</div>b") 1)
     = Some (glyphSuccess ++ js "a")
  /\ parseFragment (toastMarkup (glyphSuccess ++ js "a</div>b"))
     <> toastTree (parseFragment (glyphSuccess ++ js "a</div>b")).
Proof.
  split; [reflexivity|]. split; [reflexivity|]. split; [reflexivity|].
  split; [reflexivity|]. vm_compute. discriminate.
Qed.

(* ================================================================= *)
(** ** More about the handler and the listener *)

Lemma present_findIn (i : nat) (f : list node) :
  In i (idsOf f) -> exists n, findIn i f = Some n.
Proof.
  intro H. destruct (findIn i f) as [n|] eqn:E; [eauto|].
  apply findIn_None in E. contradiction.
Qed.

(** With the widget and the script's object in place, the callback shows a
    toast and removes the alert. *)
Lemma convertAlert_intact (parseHTML : jsstring -> list html) (alert : nat) (w : window) :
  hasBootstrapToast w = true ->
  notifications w = Some BudgeteerNotifications ->
  In alert (idsOf (body w ++ detached w)) ->
  exists type message,
    convertAlert parseHTML alert w
    = (Normal tt, snd (remove alert (snd (_showToast parseHTML type message w)))).
Proof.
  intros Hb Eo Hin. destruct (present_findIn _ _ Hin) as [n En].
  destruct (convertAlert_calls parseHTML alert n w En Eo) as (s & _ & E).
  exists (severityName s), (glyph s ++ trim (textContent n)).
  rewrite E. unfold bind. rewrite entryPoint_eq, showToast_pair, Hb. reflexivity.
Qed.

Lemma forEach_convertAlert_intact (parseHTML : jsstring -> list html) (l : list nat) :
  forall w,
    hasBootstrapToast w = true ->
    notifications w = Some BudgeteerNotifications ->
    (forall a, In a l -> In a (idsOf (body w ++ detached w))) ->
    let r := forEach l (convertAlert parseHTML) w in
    fst r = Normal tt
    /\ List.length (shown (snd r)) = List.length (shown w) + List.length l
    /\ List.length (hiddenListeners (snd r))
       = List.length (hiddenListeners w) + List.length l.
Proof.
  induction l as [|a l IH]; intros w Hb Eo Hin; cbv zeta.
  - simpl. repeat split; lia.
  - rewrite forEach_cons.
    destruct (convertAlert_intact parseHTML a w Hb Eo (Hin a (or_introl eq_refl))) as (ty & m & E).
    rewrite E. set (w1 := snd (_showToast parseHTML ty m w)).
    destruct (showToast_frame parseHTML ty m w) as [Eb1 Eo1]. cbv zeta in Eb1, Eo1.
    fold w1 in Eb1, Eo1.
    destruct (showToast_registers parseHTML ty m w) as [Es El]. cbv zeta in Es, El.
    fold w1 in Es, El. rewrite Hb in Es, El.
    destruct (IH (snd (remove a w1))) as (I1 & I2 & I3).
    + now transitivity (hasBootstrapToast w).
    + now transitivity (notifications w).
    + intros a' Ha'. apply remove_keeps. unfold w1. apply showToast_keeps.
      apply Hin. now right.
    + split; [assumption|].
      change (shown (snd (remove a w1))) with (shown w1) in I2.
      change (hiddenListeners (snd (remove a w1))) with (hiddenListeners w1) in I3.
      rewrite I2, I3, Es, El, !length_app. simpl. lia.
Qed.

Lemma hiddenAlerts_present (w : window) (a : nat) :
  In a (hiddenAlerts w) -> In a (idsOf (body w ++ detached w)).
Proof.
  intro Ha. rewrite idsOf_app, in_app_iff. left.
  now apply selectAll_idsOf with [js "alert"; js "d-none"].
Qed.

Lemma forEach_remove_frame (l : list nat) :
  forall w,
    let r := forEach l remove w in
    fst r = Normal tt
    /\ next_id (snd r) = next_id w
    /\ shown (snd r) = shown w
    /\ hiddenListeners (snd r) = hiddenListeners w
    /\ (forall i, In i (idsOf (body (snd r))) -> In i (idsOf (body w)) /\ ~ In i l)
    /\ (forall sel i, In i (flat_map (selectAll sel) (body (snd r))) ->
                      In i (flat_map (selectAll sel) (body w))).
Proof.
  induction l as [|a l IH]; intro w; cbv zeta.
  - simpl. split; [reflexivity|]. split; [reflexivity|]. split; [reflexivity|].
    split; [reflexivity|]. split; [|auto]. intros i Hi. split; [assumption | tauto].
  - rewrite forEach_cons. change (remove a w) with (Normal tt, snd (remove a w)).
    destruct (IH (snd (remove a w))) as (I1 & I2 & I3 & I4 & I5 & I6).
    split; [assumption|]. split; [assumption|]. split; [assumption|].
    split; [assumption|]. split.
    + intros i Hi. destruct (I5 i Hi) as [Hb Hl]. split.
      * now apply remove_body_ids in Hb.
      * intros [<-|Hl']; [exact (remove_gone a w Hb) | contradiction].
    + intros sel i Hi. apply I6 in Hi. rewrite remove_eq in Hi.
      cbn [snd body setPage] in Hi. now apply select_prune in Hi.
Qed.

Lemma forEach_convertAlert_skip (parseHTML : jsstring -> list html) (l : list nat) :
  forall w,
    notifications w = None ->
    (forall a, In a l -> In a (idsOf (body w ++ detached w))) ->
    forEach l (convertAlert parseHTML) w = forEach l remove w.
Proof.
  induction l as [|a l IH]; intros w Eo Hin; [reflexivity|].
  rewrite !forEach_cons.
  destruct (present_findIn _ _ (Hin a (or_introl eq_refl))) as [n En].
  destruct (missing_notifier_is_skipped parseHTML a n w En (or_introl Eo)) as (E & _).
  rewrite E. change (remove a w) with (Normal tt, snd (remove a w)).
  apply IH; [assumption|].
  intros a' Ha'. apply remove_keeps, Hin. now right.
Qed.

(** X2: when the script's object is missing, the handler only removes: it
    runs to its end, makes no element, shows no toast, adds no listener, and
    leaves no hidden alert in the page. *)
Theorem handler_without_notifier_only_removes (parseHTML : jsstring -> list html) (w : window) :
  notifications w = None ->
  let r := onDOMContentLoaded parseHTML w in
  fst r = Normal tt
  /\ next_id (snd r) = next_id w
  /\ shown (snd r) = shown w
  /\ hiddenListeners (snd r) = hiddenListeners w
  /\ hiddenAlerts (snd r) = []
  /\ (forall i, In i (idsOf (body (snd r))) -> In i (idsOf (body w))).
Proof.
  intro Eo. cbv zeta.
  assert (onDOMContentLoaded parseHTML w = forEach (hiddenAlerts w) remove w) as E.
  { change (onDOMContentLoaded parseHTML w)
      with (forEach (hiddenAlerts w) (convertAlert parseHTML) w).
    apply forEach_convertAlert_skip; [assumption | apply hiddenAlerts_present]. }
  rewrite E.
  destruct (forEach_remove_frame (hiddenAlerts w) w) as (I1 & I2 & I3 & I4 & I5 & I6).
  split; [assumption|]. split; [assumption|]. split; [assumption|].
  split; [assumption|]. split.
  - destruct (hiddenAlerts (snd (forEach (hiddenAlerts w) remove w))) as [|a l] eqn:Ea;
      [reflexivity|].
    exfalso. assert (In a (hiddenAlerts (snd (forEach (hiddenAlerts w) remove w)))) as Ha
        by (rewrite Ea; now left).
    pose proof (I6 _ _ Ha) as Hold.
    apply (selectAll_idsOf [js "alert"; js "d-none"]) in Ha.
    apply I5 in Ha as [_ Ha]. contradiction.
  - intros i Hi. now apply I5 in Hi.
Qed.

Lemma selectAll_appendTo_keep (sel : list jsstring) (c : nat) (x n : node) (i : nat) :
  In i (selectAll sel n) -> In i (selectAll sel (appendTo c x n)).
Proof.
  induction n as [d | j t a kids IH] using node_forest_ind; simpl; [tauto|].
  rewrite !in_app_iff. intros [H|H]; [now left | right].
  assert (In i (flat_map (selectAll sel) (map (appendTo c x) kids))) as Hk.
  { rewrite in_flat_map in *. destruct H as [k [Hk Hi]].
    exists (appendTo c x k). split; [now apply in_map|].
    rewrite Forall_forall in IH. auto. }
  destruct (Nat.eqb j c); [|assumption].
  rewrite flat_map_app, in_app_iff. now left.
Qed.

Lemma select_appendTo_keep (sel : list jsstring) (c : nat) (x : node) (f : list node) (i : nat) :
  In i (flat_map (selectAll sel) f) ->
  In i (flat_map (selectAll sel) (map (appendTo c x) f)).
Proof.
  rewrite !in_flat_map. intros [k [Hk Hi]].
  exists (appendTo c x k). split; [now apply in_map | now apply selectAll_appendTo_keep].
Qed.

Lemma withContainer_body (w : window) :
  exists more, body (withContainer w) = body w ++ more /\ List.length more <= 1.
Proof.
  unfold withContainer. destruct (toastContainer w).
  - exists []. rewrite app_nil_r. split; [reflexivity | simpl; lia].
  - eexists. split; [reflexivity | simpl; lia].
Qed.

(** [_showToast] takes nothing out of the page. *)
Lemma showToast_keeps_body (parseHTML : jsstring -> list html)
      (type message : jsstring) (w : window) (i : nat) :
  In i (idsOf (body w)) -> In i (idsOf (body (snd (_showToast parseHTML type message w)))).
Proof.
  intro H. destruct (showToast_page parseHTML type message w) as (Eb & _ & _).
  cbv zeta in Eb. rewrite Eb. apply idsOf_appendTo_keep.
  destruct (withContainer_body w) as (more & -> & _).
  rewrite idsOf_app, in_app_iff. now left.
Qed.

Lemma showToast_keeps_select (parseHTML : jsstring -> list html) (sel : list jsstring)
      (type message : jsstring) (w : window) (i : nat) :
  In i (flat_map (selectAll sel) (body w)) ->
  In i (flat_map (selectAll sel) (body (snd (_showToast parseHTML type message w)))).
Proof.
  intro H. destruct (showToast_page parseHTML type message w) as (Eb & _ & _).
  cbv zeta in Eb. rewrite Eb. apply select_appendTo_keep.
  destruct (withContainer_body w) as (more & -> & _).
  rewrite flat_map_app, in_app_iff. now left.
Qed.

(** X3: on a host without the widget, with the script's object in place,
    the handler ends in a fault in the turn of the first hidden alert, a
    ReferenceError when the identifier [bootstrap] is not bound and a
    TypeError when it is bound to a value without a [Toast] constructor.
    The toast of the first alert has joined the container, nothing was
    shown, no listener was added, and every element of the page, the first
    and every later hidden alert included, is still in the page. *)
Theorem handler_stops_at_first_alert_without_widget
        (parseHTML : jsstring -> list html) (w : window) (a : nat) (rest : list nat) :
  wellFormed w = true ->
  hasBootstrapToast w = false ->
  notifications w = Some BudgeteerNotifications ->
  hiddenAlerts w = a :: rest ->
  let r := onDOMContentLoaded parseHTML w in
  fst r = Throw (match bootstrap w with
                 | Unbound => ReferenceError
                 | _ => TypeError
                 end)
  /\ (forall i, In i (idsOf (body w)) -> In i (idsOf (body (snd r))))
  /\ (forall i, In i (hiddenAlerts w) -> In i (hiddenAlerts (snd r)))
  /\ shown (snd r) = shown w
  /\ hiddenListeners (snd r) = hiddenListeners w
  /\ exists n s,
       findIn a (body w) = Some n
       /\ severityName s = category (classList (attributesOf n))
       /\ childrenOf (containerOf w) (snd r)
          = childrenOf (containerOf w) w
              ++ [toastNode parseHTML (severityName s) (glyph s ++ trim (textContent n))
                            (next_id (withContainer w))].
Proof.
  intros Hwf Hb Eo Ea. cbv zeta.
  assert (onDOMContentLoaded parseHTML w = forEach (a :: rest) (convertAlert parseHTML) w)
    as E0 by (rewrite <- Ea; reflexivity).
  rewrite E0, forEach_cons. clear E0.
  assert (In a (idsOf (body w))) as Hpage.
  { apply selectAll_idsOf with [js "alert"; js "d-none"].
    change (In a (hiddenAlerts w)). rewrite Ea. now left. }
  assert (In a (idsOf (body w ++ detached w))) as Hin
      by (apply hiddenAlerts_present; rewrite Ea; now left).
  destruct (present_findIn _ _ Hpage) as [n En].
  assert (findIn a (body w ++ detached w) = Some n) as En'
      by (rewrite findIn_app, En; reflexivity).
  destruct (convertAlert_calls parseHTML a n w En' Eo) as (s & Hs & E).
  rewrite E. unfold bind. rewrite entryPoint_eq, showToast_pair, Hb. cbn [fst snd].
  set (ty := severityName s). set (m := glyph s ++ trim (textContent n)).
  destruct (showToast_registers parseHTML ty m w) as [Es El]. cbv zeta in Es, El.
  rewrite Hb in Es, El.
  split; [reflexivity|]. split; [intros i; apply showToast_keeps_body|].
  split; [intros i; apply showToast_keeps_select|].
  split; [assumption|]. split; [assumption|].
  exists n, s. split; [assumption|]. split; [assumption|].
  now apply showToast_children.
Qed.

(** X4: whatever the classes of an alert, the method name the handler
    derives from its category is the name of the entry point of that
    category on the script's object, so the existence check succeeds there;
    and on no object does the derived name reach [_showToast]. *)
Theorem derived_method_name_is_an_entry_point (classes : list jsstring) :
  (exists s p,
      severityName s = category classes
      /\ getProperty BudgeteerNotifications (methodName (category classes)) = Some p
      /\ forall parseHTML message,
           callMember parseHTML BudgeteerNotifications p message
           = entryPoint parseHTML s BudgeteerNotifications message)
  /\ (forall o, getProperty o (methodName (category classes)) <> Some PShowToast).
Proof.
  split.
  - unfold category.
    destruct (contains classes (js "alert-success"));
      [exists Success, PShowSuccess; repeat split|].
    destruct (contains classes (js "alert-warning"));
      [exists Warning, PShowWarning; repeat split|].
    destruct (contains classes (js "alert-danger"));
      [exists Danger, PShowDanger; repeat split | exists Info, PShowInfo; repeat split].
  - intros o E. apply getProperty_name in E. revert E. unfold category.
    destruct (contains classes (js "alert-success")); [discriminate|].
    destruct (contains classes (js "alert-warning")); [discriminate|].
    destruct (contains classes (js "alert-danger")); discriminate.
Qed.

(** Removing a child of the container, last node of the body, leaves the
    other children in place. *)
Lemma remove_child_of_container (t : nat) (ty : jsstring) (a : list attribute)
      (k b pre post : list node) (c : nat) (w : window) :
  wellFormed w = true ->
  body w = b ++ [containerNode c (pre ++ [Element t ty a k] ++ post)] ->
  body (snd (remove t w)) = b ++ [containerNode c (pre ++ post)].
Proof.
  intros Hwf Eb. apply wellFormed_body in Hwf as [Hnd _].
  assert (idsOf (body w)
          = idsOf b ++ c :: idsOf pre ++ (t :: idsOf k) ++ idsOf post) as Eids.
  { rewrite Eb, idsOf_app. f_equal. rewrite idsOf_cons. cbn [idsOf flat_map].
    rewrite app_nil_r. cbn [containerNode ids]. f_equal.
    change (flat_map ids (pre ++ [Element t ty a k] ++ post))
      with (idsOf (pre ++ [Element t ty a k] ++ post)).
    rewrite !idsOf_app, idsOf_cons. cbn [idsOf flat_map ids]. now rewrite app_nil_r. }
  rewrite Eids in Hnd.
  apply NoDup_app_iff in Hnd as (_ & Hc & Hdis).
  inversion Hc as [|? ? Hct Hkids]; subst.
  apply NoDup_app_iff in Hkids as (_ & Hrest & Hpre).
  inversion Hrest as [|? ? Hpost _]; subst.
  assert (~ In t (idsOf b)) as Hb.
  { intro Hin. apply (Hdis t Hin). right. apply in_or_app. right. now left. }
  assert (t <> c) as Htc.
  { intros ->. apply Hct. apply in_or_app. right. now left. }
  assert (~ In t (idsOf pre)) as Hp.
  { intro Hin. apply (Hpre t Hin). now left. }
  assert (~ In t (idsOf post)) as Hq.
  { intro Hin. apply Hpost. rewrite in_app_iff. now right. }
  rewrite remove_eq. cbn [snd body setPage]. rewrite Eb, flat_map_app.
  rewrite (prune_forest_absent t b Hb). f_equal.
  cbn [flat_map containerNode prune].
  apply Nat.eqb_neq in Htc. rewrite Htc, app_nil_r. do 2 f_equal.
  rewrite !flat_map_app. cbn [flat_map prune]. rewrite Nat.eqb_refl. cbn [app].
  now rewrite (prune_forest_absent t pre Hp), (prune_forest_absent t post Hq).
Qed.

(** X5: when the hidden event fires on a toast of the container, that toast
    leaves the container and the other toasts stay, in their order; the rest
    of the page is as it was. *)
Theorem dismissal_keeps_the_other_toasts
        (t : nat) (ty : jsstring) (a : list attribute)
        (k b pre post : list node) (c : nat) (w : window) :
  wellFormed w = true ->
  In t (hiddenListeners w) ->
  body w = b ++ [containerNode c (pre ++ [Element t ty a k] ++ post)] ->
  body (snd (dispatchHidden t w)) = b ++ [containerNode c (pre ++ post)].
Proof.
  intros Hwf Hl Eb. rewrite (dispatchHidden_eq t w Hwf Hl). cbn [snd].
  now apply remove_child_of_container with ty a k.
Qed.

(** X6: the container outlives its toasts.  After the hidden event has
    fired on a toast, the next call of an entry point appends its toast to
    the same container, after the toasts that are left (also when none is
    left), and makes no second container. *)
Theorem show_after_dismissal_reuses_container
        (parseHTML : jsstring -> list html) (s : severity) (message : jsstring)
        (t : nat) (ty : jsstring) (a : list attribute)
        (k b pre post : list node) (c : nat) (w : window) :
  wellFormed w = true ->
  In t (hiddenListeners w) ->
  body w = b ++ [containerNode c (pre ++ [Element t ty a k] ++ post)] ->
  flat_map (selectAll [js "toast-container"]) b = [] ->
  body (snd (entryPoint parseHTML s BudgeteerNotifications message
                        (snd (dispatchHidden t w))))
  = b ++ [containerNode c
            ((pre ++ post)
               ++ [toastNode parseHTML (severityName s) (glyph s ++ message) (next_id w)])].
Proof.
  intros Hwf Hl Eb Hb. rewrite entryPoint_eq.
  pose proof (dispatchHidden_wellFormed t w Hwf) as Hwf'.
  rewrite (dispatchHidden_eq t w Hwf Hl) in *. cbn [snd] in *.
  pose proof (remove_child_of_container t ty a k b pre post c w Hwf Eb) as Eb'.
  rewrite (showToast_reuse parseHTML _ _ b c (pre ++ post) _ Hwf' Eb' Hb).
  reflexivity.
Qed.

(** X7: an entry point only adds to the page.  Every element that was in
    the page is still there, every element that joined it is new, the
    detached trees are untouched, and the body has at most one more child
    (the container). *)
Theorem entry_point_only_adds
        (parseHTML : jsstring -> list html) (s : severity) (message : jsstring) (w : window) :
  wellFormed w = true ->
  let w' := snd (entryPoint parseHTML s BudgeteerNotifications message w) in
  (forall i, In i (idsOf (body w)) -> In i (idsOf (body w')))
  /\ (forall i, In i (idsOf (body w')) -> In i (idsOf (body w)) \/ next_id w <= i)
  /\ detached w' = detached w
  /\ List.length (body w) <= List.length (body w') <= S (List.length (body w)).
Proof.
  intro Hwf. cbv zeta. rewrite entryPoint_eq.
  split; [intro i; apply showToast_keeps_body|].
  split; [intro i; apply showToast_body_ids|].
  split; [now apply showToast_detached|].
  destruct (showToast_page parseHTML (severityName s) (glyph s ++ message) w) as (Eb & _ & _).
  cbv zeta in Eb. rewrite Eb, length_map.
  destruct (withContainer_body w) as (more & -> & Hm). rewrite length_app. lia.
Qed.

Lemma entry_point_only_adds_witness :
  wellFormed flashPage = true
  /\ (forall i, In i (idsOf (body flashPage)) ->
                In i (idsOf (body (snd (showInfo parseFragment BudgeteerNotifications
                                                 (js "Welcome") flashPage)))))
  /\ (forall i, In i (idsOf (body (snd (showInfo parseFragment BudgeteerNotifications
                                                 (js "Welcome") flashPage)))) ->
                In i (idsOf (body flashPage)) \/ next_id flashPage <= i)
  /\ detached (snd (showInfo parseFragment BudgeteerNotifications (js "Welcome") flashPage))
     = detached flashPage
  /\ List.length (body flashPage)
     <= List.length (body (snd (showInfo parseFragment BudgeteerNotifications
                                         (js "Welcome") flashPage)))
     <= S (List.length (body flashPage)).
Proof.
  split; [reflexivity|].
  apply (entry_point_only_adds parseFragment Info (js "Welcome") flashPage). reflexivity.
Defined.

Lemma dispatchHidden_without_listener (t : nat) (w : window) :
  ~ In t (hiddenListeners w) -> dispatchHidden t w = (Normal tt, w).
Proof.
  intro H. unfold dispatchHidden, bind, gets.
  destruct (filter (Nat.eqb t) (hiddenListeners w)) as [|x l] eqn:E; [reflexivity|].
  exfalso. assert (In x (filter (Nat.eqb t) (hiddenListeners w))) as Hx
      by (rewrite E; now left).
  apply filter_In in Hx as [Hx Ex]. apply Nat.eqb_eq in Ex. now subst.
Qed.

(** X8: the toast of a call that ended in a fault is never cleaned up.  On
    a host without the widget the toast is in the page after the call, and
    the hidden event firing on it does nothing: no listener was added before
    the fault. *)
Theorem toast_of_faulted_call_stays
        (parseHTML : jsstring -> list html) (s : severity) (message : jsstring) (w : window) :
  wellFormed w = true ->
  hasBootstrapToast w = false ->
  (forall x, In x (hiddenListeners w) -> x < next_id w) ->
  let w' := snd (entryPoint parseHTML s BudgeteerNotifications message w) in
  let t := next_id (withContainer w) in
  In t (idsOf (body w'))
  /\ dispatchHidden t w' = (Normal tt, w').
Proof.
  intros Hwf Hb Hl. cbv zeta. rewrite entryPoint_eq.
  set (ty := severityName s). set (m := glyph s ++ message). split.
  - apply childrenOf_ids with (containerOf w).
    rewrite (showToast_children parseHTML ty m w Hwf), idsOf_app, in_app_iff. right.
    unfold toastNode. simpl. now left.
  - apply dispatchHidden_without_listener.
    destruct (showToast_registers parseHTML ty m w) as [_ El]. cbv zeta in El.
    rewrite El, Hb. intro Hin. apply Hl in Hin.
    pose proof (withContainer_next_id w). lia.
Qed.

Lemma toast_of_faulted_call_stays_witness :
  wellFormed emptyPageWithoutWidget = true
  /\ hasBootstrapToast emptyPageWithoutWidget = false
  /\ (forall x, In x (hiddenListeners emptyPageWithoutWidget) ->
                x < next_id emptyPageWithoutWidget)
  /\ In 1 (idsOf (body (snd (showSuccess parseFragment BudgeteerNotifications
                                         (js "Budget saved") emptyPageWithoutWidget))))
  /\ dispatchHidden 1 (snd (showSuccess parseFragment BudgeteerNotifications
                                        (js "Budget saved") emptyPageWithoutWidget))
     = (Normal tt, snd (showSuccess parseFragment BudgeteerNotifications
                                    (js "Budget saved") emptyPageWithoutWidget)).
Proof.
  split; [reflexivity|]. split; [reflexivity|]. split; [intros x []|].
  apply (toast_of_faulted_call_stays parseFragment Success (js "Budget saved")
                                     emptyPageWithoutWidget);
    [reflexivity | reflexivity | intros x []].
Defined.

(** X9: a page that brings its own [.toast-container] keeps it.  The entry
    point makes no container then: the body has as many children as before,
    the toast is the element made first, it becomes the last child of the
    first [.toast-container] of the page, and that element stays the first
    match. *)
Theorem authored_container_is_used
        (parseHTML : jsstring -> list html) (s : severity) (message : jsstring)
        (c : nat) (w : window) :
  wellFormed w = true ->
  toastContainer w = Some c ->
  let w' := snd (entryPoint parseHTML s BudgeteerNotifications message w) in
  List.length (body w') = List.length (body w)
  /\ toastContainer w' = Some c
  /\ childrenOf c w'
     = childrenOf c w
         ++ [toastNode parseHTML (severityName s) (glyph s ++ message) (next_id w)].
Proof.
  intros Hwf Ec. cbv zeta. rewrite entryPoint_eq.
  set (ty := severityName s). set (m := glyph s ++ message).
  assert (containerOf w = c) as Ecw by (unfold containerOf; now rewrite Ec).
  assert (withContainer w = w) as Eww by (unfold withContainer; now rewrite Ec).
  split; [|split].
  - destruct (showToast_page parseHTML ty m w) as (Eb & _ & _). cbv zeta in Eb.
    now rewrite Eb, length_map, Eww.
  - rewrite <- Ecw. now apply showToast_toastContainer.
  - pose proof (showToast_children parseHTML ty m w Hwf) as E.
    now rewrite Ecw, Eww in E.
Qed.

(** *** What the handler leaves alone *)

Lemma cuts_ids_sub (a : nat) (n : node) (i : nat) :
  In i (idsOf (cuts a n)) -> In i (ids n).
Proof.
  intro H. apply (Permutation_in _ (Permutation_sym (ids_prune_cuts a n))).
  apply in_or_app. now right.
Qed.

Lemma cuts_forest_ids_sub (a : nat) (f : list node) (i : nat) :
  In i (idsOf (flat_map (cuts a) f)) -> In i (idsOf f).
Proof.
  intro H. apply (Permutation_in _ (Permutation_sym (idsOf_prune_cuts a f))).
  apply in_or_app. now right.
Qed.

Lemma prune_ids_sub (a : nat) (n : node) (i : nat) :
  In i (idsOf (prune a n)) -> In i (ids n).
Proof.
  intro H. apply (Permutation_in _ (Permutation_sym (ids_prune_cuts a n))).
  apply in_or_app. now left.
Qed.

(** An element that is neither [a] nor below [a] stays when [a] is pruned. *)
Lemma prune_keeps_outside (a : nat) (f : list node) (i : nat) :
  In i (idsOf f) -> ~ In i (idsOf (flat_map (cuts a) f)) ->
  In i (idsOf (flat_map (prune a) f)).
Proof.
  intros Hi Hout. apply (Permutation_in _ (idsOf_prune_cuts a f)) in Hi.
  apply in_app_or in Hi as [Hi|Hi]; [assumption | contradiction].
Qed.

Lemma cuts_appendTo (a c : nat) (x n : node) (i : nat) :
  In i (idsOf (cuts a (appendTo c x n))) ->
  In i (idsOf (cuts a n)) \/ In i (ids x).
Proof.
  induction n as [d | j t at' kids IH] using node_forest_ind; [simpl; tauto|].
  cbn [appendTo cuts]. destruct (Nat.eqb a j).
  - intro H. cbn [idsOf flat_map] in *. rewrite app_nil_r in *.
    now apply (ids_appendTo_new c x (Element j t at' kids)).
  - assert (In i (idsOf (flat_map (cuts a) (map (appendTo c x) kids))) ->
            In i (idsOf (flat_map (cuts a) kids)) \/ In i (ids x)) as Hk.
    { rewrite !idsOf_flat_map, !in_flat_map. intros [k' [Hk' Hi]].
      apply in_map_iff in Hk' as [k [<- Hk]].
      rewrite Forall_forall in IH. destruct (IH k Hk Hi) as [Hl|Hr]; [left; eauto | now right]. }
    destruct (Nat.eqb j c); [|exact Hk].
    rewrite flat_map_app, idsOf_app, in_app_iff. intros [H|H]; [now apply Hk|].
    right. cbn [flat_map] in H. rewrite app_nil_r in H. now apply cuts_ids_sub in H.
Qed.

Lemma cuts_forest_appendTo (a c : nat) (x : node) (f : list node) (i : nat) :
  In i (idsOf (flat_map (cuts a) (map (appendTo c x) f))) ->
  In i (idsOf (flat_map (cuts a) f)) \/ In i (ids x).
Proof.
  rewrite !idsOf_flat_map, !in_flat_map. intros [k' [Hk' Hi]].
  apply in_map_iff in Hk' as [k [<- Hk]].
  destruct (cuts_appendTo _ _ _ _ _ Hi) as [Hl|Hr]; [left; eauto | now right].
Qed.

Lemma cuts_prune (a' a : nat) (n : node) (i : nat) :
  In i (idsOf (flat_map (cuts a') (prune a n))) -> In i (idsOf (cuts a' n)).
Proof.
  induction n as [d | j t at' kids IH] using node_forest_ind; [simpl; tauto|].
  cbn [prune]. destruct (Nat.eqb a j); [simpl; tauto|].
  cbn [flat_map cuts]. rewrite app_nil_r. destruct (Nat.eqb a' j).
  - cbn [idsOf flat_map ids]. rewrite !app_nil_r. intros [->|H]; [now left | right].
    change (In i (idsOf (flat_map (prune a) kids))) in H.
    change (In i (idsOf kids)).
    rewrite idsOf_flat_map, in_flat_map in H. destruct H as [k [Hk Hi]].
    apply in_flat_map. exists k. split; [assumption | now apply prune_ids_sub with a].
  - rewrite flat_map_comp, !idsOf_flat_map, !in_flat_map. intros [k [Hk Hi]].
    exists k. split; [assumption|]. rewrite Forall_forall in IH. now apply IH.
Qed.

Lemma cuts_forest_prune (a' a : nat) (f : list node) (i : nat) :
  In i (idsOf (flat_map (cuts a') (flat_map (prune a) f))) ->
  In i (idsOf (flat_map (cuts a') f)).
Proof.
  rewrite flat_map_comp, !idsOf_flat_map, !in_flat_map. intros [k [Hk Hi]].
  exists k. split; [assumption | now apply cuts_prune with a].
Qed.

Lemma showToast_cuts (parseHTML : jsstring -> list html) (a : nat)
      (type message : jsstring) (w : window) (i : nat) :
  In i (idsOf (flat_map (cuts a) (body (snd (_showToast parseHTML type message w))))) ->
  In i (idsOf (flat_map (cuts a) (body w))) \/ next_id w <= i.
Proof.
  destruct (showToast_page parseHTML type message w) as (Eb & _ & _). cbv zeta in Eb.
  rewrite Eb. intro H. apply cuts_forest_appendTo in H as [H|H].
  - unfold withContainer in H. destruct (toastContainer w); [now left|].
    cbn [body setPage setNextId] in H.
    rewrite flat_map_app, idsOf_app, in_app_iff in H.
    destruct H as [H|H]; [now left | right].
    apply cuts_forest_ids_sub in H. simpl in H. lia.
  - right. apply toastNode_fresh in H. pose proof (withContainer_next_id w). lia.
Qed.

Lemma grows_keeps_body (parseHTML : jsstring -> list html) (w w1 : window) (i : nat) :
  grows parseHTML w w1 -> In i (idsOf (body w)) -> In i (idsOf (body w1)).
Proof. intros [->|(ty & m & ->)] H; [assumption | now apply showToast_keeps_body]. Qed.

Lemma grows_cuts (parseHTML : jsstring -> list html) (a : nat) (w w1 : window) (i : nat) :
  grows parseHTML w w1 ->
  In i (idsOf (flat_map (cuts a) (body w1))) ->
  In i (idsOf (flat_map (cuts a) (body w))) \/ next_id w <= i.
Proof. intros [->|(ty & m & ->)] H; [now left | now apply showToast_cuts in H]. Qed.

Lemma forEach_convertAlert_keeps (parseHTML : jsstring -> list html) (l : list nat) :
  forall w i,
    (forall a, In a l -> In a (idsOf (body w ++ detached w))) ->
    i < next_id w ->
    In i (idsOf (body w)) ->
    (forall a, In a l -> ~ In i (idsOf (flat_map (cuts a) (body w)))) ->
    In i (idsOf (body (snd (forEach l (convertAlert parseHTML) w)))).
Proof.
  induction l as [|a l IH]; intros w i Hin Hlt Hi Hout; [assumption|].
  rewrite forEach_cons.
  destruct (convertAlert_cases parseHTML a w (Hin a (or_introl eq_refl)))
    as (w1 & Hg & [E|(_ & e & _ & E)]); rewrite E.
  - pose proof (grows_next_id _ _ _ Hg) as Hn.
    assert (forall a', In a' (a :: l) -> ~ In i (idsOf (flat_map (cuts a') (body w1)))) as Hout1.
    { intros a' Ha' H. apply (grows_cuts _ _ _ _ _ Hg) in H as [H|H]; [|lia].
      exact (Hout a' Ha' H). }
    apply IH.
    + intros a' Ha'. apply remove_keeps, (grows_keeps _ _ _ _ Hg), Hin. now right.
    + change (next_id (snd (remove a w1))) with (next_id w1). lia.
    + rewrite remove_eq. cbn [snd body setPage]. apply prune_keeps_outside.
      * now apply (grows_keeps_body _ _ _ _ Hg).
      * apply Hout1. now left.
    + intros a' Ha' H. rewrite remove_eq in H. cbn [snd body setPage] in H.
      apply cuts_forest_prune in H. apply (Hout1 a'); [now right | assumption].
  - cbn [snd]. now apply (grows_keeps_body _ _ _ _ Hg).
Qed.

(* ================================================================= *)
(** ** The handler, turn by turn *)

(** The loop over [l1 ++ l2] is the loop over [l1], then, unless that ended
    in a fault, the loop over [l2]. *)
Lemma forEach_app (l1 l2 : list nat) (f : nat -> M unit) (w : window) :
  forEach (l1 ++ l2) f w =
  match forEach l1 f w with
  | (Normal _, w1) => forEach l2 f w1
  | (Throw e, w1) => (Throw e, w1)
  end.
Proof.
  revert w; induction l1 as [|a l1 IH]; intro w; [reflexivity|].
  cbn [app]. rewrite !forEach_cons.
  destruct (f a w) as [[[]|e] w1]; [apply IH | reflexivity].
Qed.

Lemma forEach_one (a : nat) (f : nat -> M unit) (w : window) :
  forEach [a] f w = f a w.
Proof. rewrite forEach_cons. destruct (f a w) as [[[]|e] w1]; reflexivity. Qed.

(** A call of [_showToast] shows at most the one toast it made. *)
Lemma grows_registers (parseHTML : jsstring -> list html) (w w1 : window) :
  grows parseHTML w w1 ->
  (shown w1 = shown w /\ hiddenListeners w1 = hiddenListeners w)
  \/ (exists t, next_id w <= t < next_id w1
                /\ shown w1 = shown w ++ [t]
                /\ hiddenListeners w1 = hiddenListeners w ++ [t]).
Proof.
  intros [->|(ty & m & ->)]; [left; split; reflexivity|].
  destruct (showToast_registers parseHTML ty m w) as [Es El]. cbv zeta in Es, El.
  destruct (hasBootstrapToast w); [right | left; split; assumption].
  exists (next_id (withContainer w)). split; [|split; assumption].
  pose proof (withContainer_next_id w).
  rewrite showToast_unfold. cbv zeta.
  pose proof (toastEnd_gt parseHTML m (next_id (withContainer w))).
  destruct (hasBootstrapToast w);
    cbn [snd next_id setNextId setShown setHiddenListeners]; lia.
Qed.


(** The loop loses no element, in the page or outside it, and leaves the
    host and the script's global as they are. *)
Lemma forEach_convertAlert_present (parseHTML : jsstring -> list html) (l : list nat) :
  forall w,
    (forall a, In a l -> In a (idsOf (body w ++ detached w))) ->
    let r := forEach l (convertAlert parseHTML) w in
    (forall i, In i (idsOf (body w ++ detached w)) ->
               In i (idsOf (body (snd r) ++ detached (snd r))))
    /\ hasBootstrapToast (snd r) = hasBootstrapToast w
    /\ notifications (snd r) = notifications w.
Proof.
  induction l as [|a l IH]; intros w Hin; cbv zeta.
  - simpl. repeat split; tauto.
  - rewrite forEach_cons.
    destruct (convertAlert_cases parseHTML a w (Hin a (or_introl eq_refl)))
      as (w1 & Hg & [E|(_ & e & _ & E)]); rewrite E;
      destruct (grows_frame _ _ _ Hg) as [Eb En].
    + destruct (IH (snd (remove a w1))) as (I1 & I2 & I3).
      { intros a' Ha'. apply remove_keeps, (grows_keeps _ _ _ _ Hg), Hin. now right. }
      split; [|split].
      * intros i Hi. apply I1, remove_keeps, (grows_keeps _ _ _ _ Hg), Hi.
      * now transitivity (hasBootstrapToast w1).
      * now transitivity (notifications w1).
    + cbn [snd]. split; [|split; assumption].
      intros i Hi. exact (grows_keeps _ _ _ _ Hg Hi).
Qed.

(** The turn of one alert of the list the handler iterates: the loop over
    the alerts before it has run to its end; the callback then runs on the
    window that loop left, and a fault of the callback is the end of the
    handler. *)
Lemma handler_turn (parseHTML : jsstring -> list html) (w : window)
      (pre : list nat) (a : nat) (post : list nat) :
  hiddenAlerts w = pre ++ a :: post ->
  fst (forEach pre (convertAlert parseHTML) w) = Normal tt ->
  let w1 := snd (forEach pre (convertAlert parseHTML) w) in
  In a (idsOf (body w1 ++ detached w1))
  /\ forEach (pre ++ [a]) (convertAlert parseHTML) w = convertAlert parseHTML a w1
  /\ (forall e, fst (convertAlert parseHTML a w1) = Throw e ->
                onDOMContentLoaded parseHTML w = convertAlert parseHTML a w1).
Proof.
  intros Hsplit Hpre. cbv zeta.
  assert (forall x, In x (pre ++ a :: post) -> In x (idsOf (body w ++ detached w))) as Hall.
  { intros x Hx. apply hiddenAlerts_present. now rewrite Hsplit. }
  split; [|split].
  - apply (forEach_convertAlert_present parseHTML pre w).
    + intros x Hx. apply Hall, in_or_app. now left.
    + apply Hall, in_or_app. right. now left.
  - rewrite forEach_app.
    destruct (forEach pre (convertAlert parseHTML) w) as [[[]|e] w1]; [|discriminate].
    apply forEach_one.
  - intros e He.
    assert (onDOMContentLoaded parseHTML w
            = forEach (pre ++ a :: post) (convertAlert parseHTML) w) as E
        by (rewrite <- Hsplit; reflexivity).
    rewrite E, forEach_app.
    destruct (forEach pre (convertAlert parseHTML) w) as [[[]|e'] w1]; [|discriminate].
    cbn [snd] in *. rewrite forEach_cons.
    destruct (convertAlert parseHTML a w1) as [[[]|e''] w2]; [discriminate | reflexivity].
Qed.


(** X1: on a host with the widget and the script's object, every hidden
    alert gets its turn, and its turn is one call of the entry point of its
    category with its trimmed text, followed by its removal: the turn
    completes, exactly one toast is shown in it, an element made in the
    turn, and the one listener added in the turn is on that toast.  So the
    handler runs to its end with one toast shown and one listener added per
    hidden alert. *)
Theorem handler_shows_one_toast_per_alert (parseHTML : jsstring -> list html) (w : window) :
  hasBootstrapToast w = true ->
  notifications w = Some BudgeteerNotifications ->
  (forall pre a post,
      hiddenAlerts w = pre ++ a :: post ->
      let before := forEach pre (convertAlert parseHTML) w in
      let after := forEach (pre ++ [a]) (convertAlert parseHTML) w in
      fst before = Normal tt
      /\ (exists n s,
             findIn a (body (snd before) ++ detached (snd before)) = Some n
             /\ severityName s = category (classList (attributesOf n))
             /\ after
                = (Normal tt,
                   snd (remove a (snd (entryPoint parseHTML s BudgeteerNotifications
                                                  (trim (textContent n)) (snd before))))))
      /\ exists t,
           next_id (snd before) <= t < next_id (snd after)
           /\ shown (snd after) = shown (snd before) ++ [t]
           /\ hiddenListeners (snd after) = hiddenListeners (snd before) ++ [t])
  /\ (let r := onDOMContentLoaded parseHTML w in
      fst r = Normal tt
      /\ List.length (shown (snd r)) = List.length (shown w) + List.length (hiddenAlerts w)
      /\ List.length (hiddenListeners (snd r))
         = List.length (hiddenListeners w) + List.length (hiddenAlerts w)).
Proof.
  intros Hb Eo. split;
    [|exact (forEach_convertAlert_intact parseHTML (hiddenAlerts w) w Hb Eo
               (hiddenAlerts_present w))].
  intros pre a post Hsplit. cbv zeta.
  assert (forall x, In x pre -> In x (idsOf (body w ++ detached w))) as Hin.
  { intros x Hx. apply hiddenAlerts_present. rewrite Hsplit. apply in_or_app. now left. }
  destruct (forEach_convertAlert_intact parseHTML pre w Hb Eo Hin) as (Hpre & _).
  cbv zeta in Hpre. split; [exact Hpre|].
  destruct (handler_turn parseHTML w pre a post Hsplit Hpre) as (Hpres & Eafter & _).
  cbv zeta in Hpres, Eafter. rewrite Eafter.
  destruct (forEach_convertAlert_present parseHTML pre w Hin) as (_ & Eb1 & Eo1).
  cbv zeta in Eb1, Eo1.
  set (w1 := snd (forEach pre (convertAlert parseHTML) w)) in *.
  rewrite Hb in Eb1. rewrite Eo in Eo1.
  destruct (present_findIn _ _ Hpres) as [n En].
  destruct (convertAlert_calls parseHTML a n w1 En Eo1) as (s & Hs & E).
  assert (convertAlert parseHTML a w1
          = (Normal tt,
             snd (remove a (snd (entryPoint parseHTML s BudgeteerNotifications
                                            (trim (textContent n)) w1))))) as E'.
  { rewrite E. unfold bind. rewrite entryPoint_eq, showToast_pair, Eb1. reflexivity. }
  rewrite E'. cbn [snd]. split; [exists n, s; repeat split; assumption|].
  rewrite entryPoint_eq.
  set (ty := severityName s). set (m := glyph s ++ trim (textContent n)).
  change (shown (snd (remove a (snd (_showToast parseHTML ty m w1)))))
    with (shown (snd (_showToast parseHTML ty m w1))).
  change (hiddenListeners (snd (remove a (snd (_showToast parseHTML ty m w1)))))
    with (hiddenListeners (snd (_showToast parseHTML ty m w1))).
  change (next_id (snd (remove a (snd (_showToast parseHTML ty m w1)))))
    with (next_id (snd (_showToast parseHTML ty m w1))).
  assert (grows parseHTML w1 (snd (_showToast parseHTML ty m w1))) as Hg
      by (right; eauto).
  destruct (grows_registers _ _ _ Hg) as [[Es _]|(t & Ht & Es & El)].
  - exfalso. destruct (showToast_registers parseHTML ty m w1) as [Es' _].
    cbv zeta in Es'. rewrite Eb1, Es in Es'.
    apply (f_equal (@List.length nat)) in Es'. rewrite length_app in Es'. simpl in Es'. lia.
  - exists t. split; [assumption|]. split; assumption.
Qed.

(** X10: the handler takes nothing but hidden alerts out of the page.  An
    element that is no hidden alert and lies in none is still in the page
    after the handler ran, whether it ran to its end or ended in a fault. *)
Theorem handler_keeps_other_content
        (parseHTML : jsstring -> list html) (w : window) (i : nat) :
  wellFormed w = true ->
  In i (idsOf (body w)) ->
  (forall a, In a (hiddenAlerts w) -> ~ In i (idsOf (flat_map (cuts a) (body w)))) ->
  In i (idsOf (body (snd (onDOMContentLoaded parseHTML w)))).
Proof.
  intros Hwf Hi Hout.
  change (onDOMContentLoaded parseHTML w)
    with (forEach (hiddenAlerts w) (convertAlert parseHTML) w).
  apply forEach_convertAlert_keeps; try assumption.
  - apply hiddenAlerts_present.
  - apply wellFormed_body in Hwf as [_ Hlt]. now apply Hlt.
Qed.

(** *** The message of an alert *)

Lemma trimStart_whitespace (s : jsstring) :
  forallb isWhiteSpace s = true -> trimStart s = [].
Proof.
  induction s as [|c s IH]; [reflexivity|].
  cbn [forallb trimStart]. rewrite andb_true_iff. intros [-> Hs]. now apply IH.
Qed.

Lemma trim_whitespace (s : jsstring) :
  forallb isWhiteSpace s = true -> trim s = [].
Proof.
  intro H. unfold trim, trimEnd. now rewrite (trimStart_whitespace s H).
Qed.

Lemma trim_fixed (a z : N) (s : jsstring) :
  isWhiteSpace a = false -> isWhiteSpace z = false ->
  trim (a :: s ++ [z]) = a :: s ++ [z].
Proof.
  intros Ha Hz. unfold trim, trimEnd. cbn [trimStart]. rewrite Ha.
  change (a :: s ++ [z]) with ((a :: s) ++ [z]). rewrite rev_unit.
  cbn [trimStart]. rewrite Hz.
  change (z :: rev (a :: s)) with ([z] ++ rev (a :: s)).
  now rewrite rev_app_distr, rev_involutive.
Qed.

(** X11: a hidden alert whose text is nothing but white space (or that has
    no text) is converted all the same: the entry point of its category is
    called with the empty string, which gives a toast that reads the glyph
    alone, and the alert is removed. *)
Theorem blank_alert_gives_glyph_only_toast
        (parseHTML : jsstring -> list html) (alert : nat) (n : node) (w : window) :
  findIn alert (body w ++ detached w) = Some n ->
  notifications w = Some BudgeteerNotifications ->
  forallb isWhiteSpace (textContent n) = true ->
  exists s,
    severityName s = category (classList (attributesOf n))
    /\ convertAlert parseHTML alert w
       = bind (entryPoint parseHTML s BudgeteerNotifications [])
              (fun _ => remove alert) w
    /\ forall t, toastBodyText (toastNode parseFragment (severityName s) (glyph s ++ []) t)
                 = Some (glyph s).
Proof.
  intros En Eo Hws.
  destruct (convertAlert_calls parseHTML alert n w En Eo) as (s & Es & E).
  exists s. rewrite (trim_whitespace _ Hws) in E. split; [assumption|]. split; [assumption|].
  intro t. destruct (glyph_plain s [] eq_refl) as (c & rest & Eg & Hp).
  rewrite Eg. rewrite app_nil_r in Eg. rewrite Eg. now apply toastBodyText_plain.
Qed.

Lemma blank_alert_gives_glyph_only_toast_witness :
  findIn 0 (body blankAlertPage ++ detached blankAlertPage)
  = Some (Element 0 (js "div") [(js "class", js "alert d-none")] [Text (newline ++ js "   ")])
  /\ notifications blankAlertPage = Some BudgeteerNotifications
  /\ forallb isWhiteSpace (newline ++ js "   " ++ []) = true
  /\ exists s,
       severityName s = category (classList [(js "class", js "alert d-none")])
       /\ convertAlert parseFragment 0 blankAlertPage
          = bind (entryPoint parseFragment s BudgeteerNotifications [])
                 (fun _ => remove 0) blankAlertPage
       /\ forall t, toastBodyText (toastNode parseFragment (severityName s) (glyph s ++ []) t)
                    = Some (glyph s).
Proof.
  split; [reflexivity|]. split; [reflexivity|]. split; [reflexivity|].
  apply (blank_alert_gives_glyph_only_toast parseFragment 0
           (Element 0 (js "div") [(js "class", js "alert d-none")]
                    [Text (newline ++ js "   ")]) blankAlertPage); reflexivity.
Defined.

Lemma bold_markup_shape (c : N) (text : jsstring) :
  js "<b>" ++ (c :: text) ++ js "</b>"
  = 60%N :: ([98; 62]%N ++ (c :: text) ++ [60; 47; 98]%N) ++ [62%N].
Proof.
  cbn [js map list_ascii_of_string N_of_ascii app]. cbn.
  do 4 f_equal. induction text as [|x text IH]; [reflexivity|].
  cbn [app]. f_equal. exact IH.
Qed.

(** X12: the text of an alert is read as markup by the toast.  When the
    text content of a hidden alert is plain text wrapped in a [b] tag
    (text, not an element, in the alert), the handler passes it on as it
    is, and with the reference parser the toast body holds a [b] element
    and reads the glyph and the text without the tag. *)
Theorem alert_text_becomes_markup
        (alert : nat) (n : node) (w : window) (c : N) (text : jsstring) :
  findIn alert (body w ++ detached w) = Some n ->
  notifications w = Some BudgeteerNotifications ->
  textContent n = js "<b>" ++ (c :: text) ++ js "</b>" ->
  plainText (c :: text) = true ->
  exists s,
    severityName s = category (classList (attributesOf n))
    /\ convertAlert parseFragment alert w
       = bind (entryPoint parseFragment s BudgeteerNotifications
                          (js "<b>" ++ (c :: text) ++ js "</b>"))
              (fun _ => remove alert) w
    /\ forall t,
         childNodesOf (toastNode parseFragment (severityName s)
                                 (glyph s ++ js "<b>" ++ (c :: text) ++ js "</b>") t)
         = fst (instantiateAll
                  (toastTree [HText (glyph s); HElement (js "b") [] [HText (c :: text)]])
                  (S t))
         /\ toastBodyText (toastNode parseFragment (severityName s)
                                     (glyph s ++ js "<b>" ++ (c :: text) ++ js "</b>") t)
            = Some (glyph s ++ c :: text).
Proof.
  intros En Eo Et Hp.
  destruct (convertAlert_calls parseFragment alert n w En Eo) as (s & Es & E).
  exists s. split; [assumption|]. split.
  - rewrite E, Et. rewrite (bold_markup_shape c text) at 1.
    rewrite trim_fixed by reflexivity. now rewrite <- bold_markup_shape.
  - intro t.
    assert (In (glyph s) [glyphSuccess; glyphWarning; glyphDanger; glyphInfo]) as Hg
        by (destruct s; cbn; tauto).
    unfold toastNode. cbn [childNodesOf].
    rewrite (parse_bold_message (glyph s) c text Hg Hp). split; [reflexivity|].
    rewrite toastBodyText_toastTree. cbn. now rewrite !app_nil_r.
Qed.

Lemma alert_text_becomes_markup_witness :
  findIn 0 (body escapedAlertPage ++ detached escapedAlertPage)
  = Some (Element 0 (js "div") [(js "class", js "alert alert-danger d-none")]
                  [Text (js "<b>Overdrawn</b>")])
  /\ notifications escapedAlertPage = Some BudgeteerNotifications
  /\ js "<b>Overdrawn</b>" ++ [] = js "<b>" ++ js "Overdrawn" ++ js "</b>"
  /\ plainText (js "Overdrawn") = true
  /\ exists s,
       severityName s = category (classList [(js "class", js "alert alert-danger d-none")])
       /\ convertAlert parseFragment 0 escapedAlertPage
          = bind (entryPoint parseFragment s BudgeteerNotifications
                             (js "<b>" ++ js "Overdrawn" ++ js "</b>"))
                 (fun _ => remove 0) escapedAlertPage
       /\ forall t,
            childNodesOf (toastNode parseFragment (severityName s)
                                    (glyph s ++ js "<b>" ++ js "Overdrawn" ++ js "</b>") t)
            = fst (instantiateAll
                     (toastTree [HText (glyph s);
                                 HElement (js "b") [] [HText (js "Overdrawn")]])
                     (S t))
            /\ toastBodyText (toastNode parseFragment (severityName s)
                                        (glyph s ++ js "<b>" ++ js "Overdrawn" ++ js "</b>") t)
               = Some (glyph s ++ js "Overdrawn").
Proof.
  split; [reflexivity|]. split; [reflexivity|]. split; [reflexivity|]. split; [reflexivity|].
  apply (alert_text_becomes_markup 0
           (Element 0 (js "div") [(js "class", js "alert alert-danger d-none")]
                    [Text (js "<b>Overdrawn</b>")])
           escapedAlertPage 79%N (js "verdrawn")); reflexivity.
Defined.

(** X13: every toast for a message of plain text has the layout of the
    template: a [d-flex] wrapper with the toast body, which holds the glyph
    and the message as one text node, and after it exactly one close button,
    with [data-bs-dismiss="toast"] and the label "Close". *)
Theorem plain_toast_has_close_button (s : severity) (message : jsstring) (t : nat) :
  plainText message = true ->
  let toast := toastNode parseFragment (severityName s) (glyph s ++ message) t in
  childNodesOf toast
  = fst (instantiateAll (toastTree [HText (glyph s ++ message)]) (S t))
  /\ flat_map (selectAll [js "btn-close"]) (childNodesOf toast) = [S (S (S t))]
  /\ fold_right (fun k r => firstSome (firstMatch [js "btn-close"] k) r) None
                (childNodesOf toast)
     = Some (Element (S (S (S t))) (js "button")
                     [(js "type", js "button");
                      (js "class", js "btn-close btn-close-white me-2 m-auto");
                      (js "data-bs-dismiss", js "toast");
                      (js "aria-label", js "Close")]
                     []).
Proof.
  intro Hp. cbv zeta. destruct (glyph_plain s message Hp) as (c & rest & -> & Hc).
  unfold toastNode. cbn [childNodesOf]. rewrite (parse_plain_message c rest Hc).
  repeat split; reflexivity.
Qed.

Lemma plain_toast_has_close_button_witness :
  plainText (js "Budget saved") = true
  /\ childNodesOf (toastNode parseFragment (severityName Success)
                             (glyph Success ++ js "Budget saved") 1)
     = fst (instantiateAll (toastTree [HText (glyph Success ++ js "Budget saved")]) 2)
  /\ flat_map (selectAll [js "btn-close"])
              (childNodesOf (toastNode parseFragment (severityName Success)
                                       (glyph Success ++ js "Budget saved") 1))
     = [4]
  /\ fold_right (fun k r => firstSome (firstMatch [js "btn-close"] k) r) None
                (childNodesOf (toastNode parseFragment (severityName Success)
                                         (glyph Success ++ js "Budget saved") 1))
     = Some (Element 4 (js "button")
                     [(js "type", js "button");
                      (js "class", js "btn-close btn-close-white me-2 m-auto");
                      (js "data-bs-dismiss", js "toast");
                      (js "aria-label", js "Close")]
                     []).
Proof.
  split; [reflexivity|].
  apply (plain_toast_has_close_button Success (js "Budget saved") 1). reflexivity.
Defined.

(** *** The statements above at work *)


Lemma handler_shows_one_toast_per_alert_witness :
  hasBootstrapToast twoAlertsPage = true
  /\ notifications twoAlertsPage = Some BudgeteerNotifications
  /\ hiddenAlerts twoAlertsPage = [0] ++ 2 :: []
  /\ (let before := forEach [0] (convertAlert parseFragment) twoAlertsPage in
      let after := forEach ([0] ++ [2]) (convertAlert parseFragment) twoAlertsPage in
      fst before = Normal tt
      /\ (exists n s,
             findIn 2 (body (snd before) ++ detached (snd before)) = Some n
             /\ severityName s = category (classList (attributesOf n))
             /\ after
                = (Normal tt,
                   snd (remove 2 (snd (entryPoint parseFragment s BudgeteerNotifications
                                                  (trim (textContent n)) (snd before))))))
      /\ exists t,
           next_id (snd before) <= t < next_id (snd after)
           /\ shown (snd after) = shown (snd before) ++ [t]
           /\ hiddenListeners (snd after) = hiddenListeners (snd before) ++ [t])
  /\ (let r := onDOMContentLoaded parseFragment twoAlertsPage in
      fst r = Normal tt
      /\ List.length (shown (snd r))
         = List.length (shown twoAlertsPage) + List.length (hiddenAlerts twoAlertsPage)
      /\ List.length (hiddenListeners (snd r))
         = List.length (hiddenListeners twoAlertsPage)
           + List.length (hiddenAlerts twoAlertsPage)).
Proof.
  destruct (handler_shows_one_toast_per_alert parseFragment twoAlertsPage eq_refl eq_refl)
    as [Hturn Hrun].
  split; [reflexivity|]. split; [reflexivity|]. split; [reflexivity|].
  split; [exact (Hturn [0] 2 [] eq_refl) | exact Hrun].
Defined.

Lemma handler_without_notifier_only_removes_witness :
  notifications flashPageWithoutScript = None
  /\ fst (onDOMContentLoaded parseFragment flashPageWithoutScript) = Normal tt
  /\ next_id (snd (onDOMContentLoaded parseFragment flashPageWithoutScript))
     = next_id flashPageWithoutScript
  /\ shown (snd (onDOMContentLoaded parseFragment flashPageWithoutScript))
     = shown flashPageWithoutScript
  /\ hiddenListeners (snd (onDOMContentLoaded parseFragment flashPageWithoutScript))
     = hiddenListeners flashPageWithoutScript
  /\ hiddenAlerts (snd (onDOMContentLoaded parseFragment flashPageWithoutScript)) = []
  /\ (forall i,
         In i (idsOf (body (snd (onDOMContentLoaded parseFragment flashPageWithoutScript)))) ->
         In i (idsOf (body flashPageWithoutScript))).
Proof.
  split; [reflexivity|].
  apply (handler_without_notifier_only_removes parseFragment flashPageWithoutScript).
  reflexivity.
Defined.

Lemma handler_stops_at_first_alert_without_widget_witness :
  wellFormed twoAlertsPageWithoutToast = true
  /\ hasBootstrapToast twoAlertsPageWithoutToast = false
  /\ notifications twoAlertsPageWithoutToast = Some BudgeteerNotifications
  /\ hiddenAlerts twoAlertsPageWithoutToast = [0; 2]
  /\ fst (onDOMContentLoaded parseFragment twoAlertsPageWithoutToast)
     = Throw (match bootstrap twoAlertsPageWithoutToast with
              | Unbound => ReferenceError
              | _ => TypeError
              end)
  /\ (forall i, In i (idsOf (body twoAlertsPageWithoutToast)) ->
                In i (idsOf (body (snd (onDOMContentLoaded parseFragment
                                                           twoAlertsPageWithoutToast)))))
  /\ (forall i, In i (hiddenAlerts twoAlertsPageWithoutToast) ->
                In i (hiddenAlerts (snd (onDOMContentLoaded parseFragment
                                                            twoAlertsPageWithoutToast))))
  /\ shown (snd (onDOMContentLoaded parseFragment twoAlertsPageWithoutToast))
     = shown twoAlertsPageWithoutToast
  /\ hiddenListeners (snd (onDOMContentLoaded parseFragment twoAlertsPageWithoutToast))
     = hiddenListeners twoAlertsPageWithoutToast
  /\ exists n s,
       findIn 0 (body twoAlertsPageWithoutToast) = Some n
       /\ severityName s = category (classList (attributesOf n))
       /\ childrenOf (containerOf twoAlertsPageWithoutToast)
                     (snd (onDOMContentLoaded parseFragment twoAlertsPageWithoutToast))
          = childrenOf (containerOf twoAlertsPageWithoutToast) twoAlertsPageWithoutToast
              ++ [toastNode parseFragment (severityName s) (glyph s ++ trim (textContent n))
                            (next_id (withContainer twoAlertsPageWithoutToast))].
Proof.
  split; [reflexivity|]. split; [reflexivity|]. split; [reflexivity|]. split; [reflexivity|].
  apply (handler_stops_at_first_alert_without_widget parseFragment
           twoAlertsPageWithoutToast 0 [2]); reflexivity.
Defined.

Lemma dismissal_keeps_the_other_toasts_witness :
  wellFormed pageWithThreeToasts = true
  /\ In 7 (hiddenListeners pageWithThreeToasts)
  /\ body pageWithThreeToasts
     = [lowBalanceAlert; Element 1 (js "p") [] [Text (js "Dashboard")]]
         ++ [containerNode 2
               ([toastNode parseFragment (js "success") (glyphSuccess ++ js "Budget saved") 3]
                  ++ [Element 7 (js "div") (toastAttributes (js "warning"))
                              (fst (instantiateAll
                                      (parseFragment
                                         (toastMarkup (glyphWarning ++ js "Low balance")))
                                      8))]
                  ++ [toastNode parseFragment (js "info") (glyphInfo ++ js "Welcome") 11])]
  /\ body (snd (dispatchHidden 7 pageWithThreeToasts))
     = [lowBalanceAlert; Element 1 (js "p") [] [Text (js "Dashboard")]]
         ++ [containerNode 2
               ([toastNode parseFragment (js "success") (glyphSuccess ++ js "Budget saved") 3]
                  ++ [toastNode parseFragment (js "info") (glyphInfo ++ js "Welcome") 11])].
Proof.
  split; [vm_compute; reflexivity|]. split; [vm_compute; right; left; reflexivity|].
  split; [vm_compute; reflexivity|].
  apply (dismissal_keeps_the_other_toasts 7 (js "div") (toastAttributes (js "warning"))
           (fst (instantiateAll
                   (parseFragment (toastMarkup (glyphWarning ++ js "Low balance"))) 8))
           [lowBalanceAlert; Element 1 (js "p") [] [Text (js "Dashboard")]]
           [toastNode parseFragment (js "success") (glyphSuccess ++ js "Budget saved") 3]
           [toastNode parseFragment (js "info") (glyphInfo ++ js "Welcome") 11]
           2 pageWithThreeToasts);
    [vm_compute; reflexivity | vm_compute; right; left; reflexivity | vm_compute; reflexivity].
Defined.

Lemma show_after_dismissal_reuses_container_witness :
  wellFormed pageWithToast = true
  /\ In 1 (hiddenListeners pageWithToast)
  /\ body pageWithToast
     = [] ++ [containerNode 0
                ([] ++ [Element 1 (js "div") (toastAttributes (js "success"))
                                (fst (instantiateAll
                                        (parseFragment
                                           (toastMarkup (glyphSuccess ++ js "Budget saved")))
                                        2))]
                    ++ [])]
  /\ flat_map (selectAll [js "toast-container"]) [] = []
  /\ body (snd (entryPoint parseFragment Info BudgeteerNotifications (js "Welcome")
                           (snd (dispatchHidden 1 pageWithToast))))
     = [] ++ [containerNode 0
                (([] ++ [])
                   ++ [toastNode parseFragment (severityName Info)
                                 (glyph Info ++ js "Welcome") (next_id pageWithToast)])].
Proof.
  split; [reflexivity|]. split; [left; reflexivity|]. split; [reflexivity|].
  split; [reflexivity|].
  apply (show_after_dismissal_reuses_container parseFragment Info (js "Welcome")
           1 (js "div") (toastAttributes (js "success"))
           (fst (instantiateAll
                   (parseFragment (toastMarkup (glyphSuccess ++ js "Budget saved"))) 2))
           [] [] [] 0 pageWithToast);
    [reflexivity | left; reflexivity | reflexivity | reflexivity].
Defined.

Lemma authored_container_is_used_witness :
  wellFormed pageWithToast = true
  /\ toastContainer pageWithToast = Some 0
  /\ List.length (body (snd (entryPoint parseFragment Warning BudgeteerNotifications
                                        (js "Low balance") pageWithToast)))
     = List.length (body pageWithToast)
  /\ toastContainer (snd (entryPoint parseFragment Warning BudgeteerNotifications
                                     (js "Low balance") pageWithToast))
     = Some 0
  /\ childrenOf 0 (snd (entryPoint parseFragment Warning BudgeteerNotifications
                                   (js "Low balance") pageWithToast))
     = childrenOf 0 pageWithToast
         ++ [toastNode parseFragment (severityName Warning)
                       (glyph Warning ++ js "Low balance") (next_id pageWithToast)].
Proof.
  split; [reflexivity|]. split; [reflexivity|].
  apply (authored_container_is_used parseFragment Warning (js "Low balance") 0 pageWithToast);
    reflexivity.
Defined.

Lemma handler_keeps_other_content_witness :
  wellFormed dashboardPage = true
  /\ In 1 (idsOf (body dashboardPage))
  /\ (forall a, In a (hiddenAlerts dashboardPage) ->
                ~ In 1 (idsOf (flat_map (cuts a) (body dashboardPage))))
  /\ In 1 (idsOf (body (snd (onDOMContentLoaded parseFragment dashboardPage)))).
Proof.
  assert (forall a, In a (hiddenAlerts dashboardPage) ->
                    ~ In 1 (idsOf (flat_map (cuts a) (body dashboardPage)))) as Hout.
  { intros a [<-|[]]. vm_compute. intros [H|[]]. discriminate H. }
  split; [reflexivity|]. split; [right; left; reflexivity|]. split; [exact Hout|].
  apply (handler_keeps_other_content parseFragment dashboardPage 1);
    [reflexivity | right; left; reflexivity | exact Hout].
Defined.

(** *** The page after the handler *)

Lemma NoDup_selectAll_forest (sel : list jsstring) (f : list node) :
  (forall n, In n f -> NoDup (ids n) -> NoDup (selectAll sel n)) ->
  NoDup (idsOf f) -> NoDup (flat_map (selectAll sel) f).
Proof.
  induction f as [|k f IHf]; intros IH Hnd; [constructor|].
  rewrite idsOf_cons in Hnd. apply NoDup_app_iff in Hnd as (Hk & Hf & Hkf).
  cbn [flat_map]. apply NoDup_app_iff. split; [|split].
  - apply IH; [now left | assumption].
  - apply IHf; [|assumption]. intros n Hn. apply IH. now right.
  - intros x Hx1 Hx2. apply (Hkf x).
    + now apply selectAll_ids with sel.
    + now apply selectAll_idsOf with sel.
Qed.

Lemma NoDup_selectAll (sel : list jsstring) (n : node) :
  NoDup (ids n) -> NoDup (selectAll sel n).
Proof.
  induction n as [d | j t a kids IH] using node_forest_ind; intro Hnd; [constructor|].
  cbn [selectAll]. inversion Hnd as [|? ? Hj Hkids]; subst.
  assert (NoDup (flat_map (selectAll sel) kids)) as Hk.
  { apply NoDup_selectAll_forest; [|assumption].
    intros n Hn. rewrite Forall_forall in IH. now apply IH. }
  destruct (matchesClasses sel a); [|assumption].
  cbn [app]. constructor; [|assumption].
  intro Hin. apply Hj. now apply selectAll_idsOf with sel.
Qed.

Lemma NoDup_select (sel : list jsstring) (f : list node) :
  NoDup (idsOf f) -> NoDup (flat_map (selectAll sel) f).
Proof.
  apply NoDup_selectAll_forest. intros n _. apply NoDup_selectAll.
Qed.

Lemma findNode_in_cuts (a : nat) (k n : node) (i : nat) :
  findNode a k = Some n -> In i (ids n) -> In i (idsOf (cuts a k)).
Proof.
  induction k as [d | j t at' kids IH] using node_forest_ind; [discriminate|].
  cbn [findNode cuts]. destruct (Nat.eqb a j).
  - intros E Hi. inversion E; subst. cbn [idsOf flat_map]. now rewrite app_nil_r.
  - intros E Hi. induction IH as [|k kids Hk _ IHk]; [discriminate|].
    cbn [fold_right] in E. cbn [flat_map]. rewrite idsOf_app, in_app_iff.
    destruct (findNode a k) eqn:Ek; cbn [firstSome] in E.
    + left. apply Hk; [congruence | assumption].
    + right. now apply IHk.
Qed.

Lemma findIn_in_cuts (a : nat) (f : list node) (n : node) (i : nat) :
  findIn a f = Some n -> In i (ids n) -> In i (idsOf (flat_map (cuts a) f)).
Proof.
  induction f as [|k f IH]; [discriminate|].
  rewrite findIn_cons. cbn [flat_map]. rewrite idsOf_app, in_app_iff.
  destruct (findNode a k) eqn:Ek; cbn [firstSome]; intros E Hi.
  - left. apply findNode_in_cuts with n; [congruence | assumption].
  - right. now apply IH.
Qed.

Lemma findIn_present (a : nat) (f : list node) (n : node) :
  findIn a f = Some n -> In a (idsOf f).
Proof.
  intro E. destruct (in_dec Nat.eq_dec a (idsOf f)) as [H|H]; [assumption|].
  apply findIn_None in H. congruence.
Qed.

(** Pruning [a'] leaves the element [a] as it is when neither lies in the
    other. *)
Lemma findNode_prune_other (a a' : nat) (k n : node) :
  findNode a k = Some n ->
  ~ In a' (ids n) ->
  ~ In a (idsOf (cuts a' k)) ->
  findIn a (prune a' k) = Some n.
Proof.
  induction k as [d | j t at' kids IH] using node_forest_ind; [discriminate|].
  intros E Hn Hout. cbn [findNode] in E.
  destruct (Nat.eqb_spec a j) as [->|Haj].
  - inversion E; subst. rewrite prune_absent by assumption.
    rewrite findIn_cons. cbn [findNode]. now rewrite Nat.eqb_refl.
  - cbn [prune cuts] in *. destruct (Nat.eqb_spec a' j) as [->|Ha'j].
    + exfalso. apply Hout. cbn [idsOf flat_map ids]. rewrite app_nil_r. right.
      apply (findIn_present a kids n). exact E.
    + rewrite findIn_cons. cbn [findNode firstSome findIn fold_right].
      apply Nat.eqb_neq in Haj. rewrite Haj.
      change (fold_right (fun k r => firstSome (findNode a k) r) None
                         (flat_map (prune a') kids))
        with (findIn a (flat_map (prune a') kids)).
      change (fold_right (fun k r => firstSome (findNode a k) r) None kids)
        with (findIn a kids) in E.
      assert (findIn a (flat_map (prune a') kids) = Some n) as Ek.
      { clear Haj Ha'j. induction IH as [|k kids Hk _ IHk]; [discriminate|].
        rewrite findIn_cons in E. cbn [flat_map] in *. rewrite findIn_app.
        rewrite idsOf_app, in_app_iff in Hout.
        destruct (findNode a k) eqn:Ek; cbn [firstSome] in E.
        - inversion E; subst. rewrite (Hk eq_refl Hn); [reflexivity | tauto].
        - assert (findIn a (prune a' k) = None) as Enone.
          { apply findIn_None. intro Hin. apply prune_ids_sub in Hin.
            apply findNode_None in Ek. contradiction. }
          rewrite Enone. cbn [firstSome]. apply IHk; [assumption | tauto]. }
      rewrite Ek. reflexivity.
Qed.

Lemma findIn_prune_other (a a' : nat) (f : list node) (n : node) :
  findIn a f = Some n ->
  ~ In a' (ids n) ->
  ~ In a (idsOf (flat_map (cuts a') f)) ->
  findIn a (flat_map (prune a') f) = Some n.
Proof.
  induction f as [|k f IH]; [discriminate|].
  rewrite findIn_cons. cbn [flat_map]. rewrite findIn_app, idsOf_app, in_app_iff.
  intros E Hn Hout. destruct (findNode a k) eqn:Ek; cbn [firstSome] in E.
  - inversion E; subst. rewrite (findNode_prune_other a a' k n Ek Hn); [reflexivity | tauto].
  - assert (findIn a (prune a' k) = None) as Enone.
    { apply findIn_None. intro Hin. apply prune_ids_sub in Hin.
      apply findNode_None in Ek. contradiction. }
    rewrite Enone. cbn [firstSome]. apply IH; [assumption | assumption | tauto].
Qed.

Lemma select_prune_nil (sel : list jsstring) (a : nat) (f : list node) :
  flat_map (selectAll sel) f = [] ->
  flat_map (selectAll sel) (flat_map (prune a) f) = [].
Proof.
  intro H. destruct (flat_map (selectAll sel) (flat_map (prune a) f)) as [|x l] eqn:E;
    [reflexivity|].
  exfalso. assert (In x (flat_map (selectAll sel) (flat_map (prune a) f))) as Hx
      by (rewrite E; now left).
  apply select_prune in Hx. now rewrite H in Hx.
Qed.

(** A run of [_showToast] that finds (or makes) the container as the last
    node of the body. *)
Lemma showToast_append_last (parseHTML : jsstring -> list html)
      (type message : jsstring) (b : list node) (c : nat) (toasts : list node) (w : window) :
  wellFormed w = true ->
  body (withContainer w) = b ++ [containerNode c toasts] ->
  flat_map (selectAll [js "toast-container"]) b = [] ->
  body (snd (_showToast parseHTML type message w))
  = b ++ [containerNode c
            (toasts ++ [toastNode parseHTML type message (next_id (withContainer w))])].
Proof.
  intros Hwf Eb Hb.
  assert (containerOf w = c) as Ec.
  { pose proof (withContainer_toastContainer w) as E1.
    rewrite (toastContainer_last b c toasts _ Eb Hb) in E1. congruence. }
  destruct (showToast_page parseHTML type message w) as (E & _ & _). cbv zeta in E.
  rewrite E, Ec, Eb.
  apply withContainer_wellFormed, wellFormed_body in Hwf as [Hnd _].
  rewrite Eb, idsOf_app in Hnd.
  apply NoDup_app_iff in Hnd as (_ & Hc & Hdis).
  cbn [idsOf flat_map containerNode ids] in Hc, Hdis. rewrite app_nil_r in Hc, Hdis.
  inversion Hc as [|? ? Hct _]; subst.
  rewrite map_app. cbn [map appendTo containerNode]. rewrite Nat.eqb_refl.
  rewrite appendTo_forest_notin by (intro Hin; apply (Hdis _ Hin); now left).
  now rewrite (appendTo_forest_notin _ _ toasts).
Qed.

(** One turn of the loop on a host with the widget and the script's object. *)
Lemma convertAlert_step (parseHTML : jsstring -> list html) (x : nat) (n : node)
      (b : list node) (c : nat) (toasts : list node) (w : window) :
  wellFormed w = true ->
  hasBootstrapToast w = true ->
  notifications w = Some BudgeteerNotifications ->
  body (withContainer w) = b ++ [containerNode c toasts] ->
  flat_map (selectAll [js "toast-container"]) b = [] ->
  findIn x (body w ++ detached w) = Some n ->
  In x (idsOf b) ->
  exists s,
    severityName s = category (classList (attributesOf n))
    /\ fst (convertAlert parseHTML x w) = Normal tt
    /\ body (snd (convertAlert parseHTML x w))
       = flat_map (prune x) b
           ++ [containerNode c
                 (toasts ++ [toastNode parseHTML (severityName s)
                                       (glyph s ++ trim (textContent n))
                                       (next_id (withContainer w))])]
    /\ wellFormed (snd (convertAlert parseHTML x w)) = true
    /\ hasBootstrapToast (snd (convertAlert parseHTML x w)) = true
    /\ notifications (snd (convertAlert parseHTML x w)) = Some BudgeteerNotifications.
Proof.
  intros Hwf Hb Eo Eb Hsel En Hx.
  destruct (convertAlert_calls parseHTML x n w En Eo) as (s & Es & E).
  exists s. split; [assumption|].
  set (ty := severityName s). set (m := glyph s ++ trim (textContent n)).
  set (w1 := snd (_showToast parseHTML ty m w)).
  assert (convertAlert parseHTML x w = (Normal tt, snd (remove x w1))) as E'.
  { rewrite E. unfold bind. rewrite entryPoint_eq, showToast_pair, Hb. reflexivity. }
  rewrite E'. cbn [fst snd].
  pose proof (showToast_wellFormed parseHTML ty m w Hwf) as Hwf1. fold w1 in Hwf1.
  pose proof (showToast_append_last parseHTML ty m b c toasts w Hwf Eb Hsel) as Eb1.
  fold w1 in Eb1.
  destruct (showToast_frame parseHTML ty m w) as [Ef1 Ef2]. cbv zeta in Ef1, Ef2.
  fold w1 in Ef1, Ef2.
  split; [reflexivity|]. split; [|split; [now apply remove_wellFormed|split]].
  - rewrite remove_eq. cbn [snd body setPage]. rewrite Eb1, flat_map_app. f_equal.
    apply prune_forest_absent.
    apply wellFormed_body in Hwf1 as [Hnd _]. rewrite Eb1, idsOf_app in Hnd.
    apply NoDup_app_iff in Hnd as (_ & _ & Hdis). intro Hin. exact (Hdis x Hx Hin).
  - change (hasBootstrapToast (snd (remove x w1))) with (hasBootstrapToast w1). congruence.
  - change (notifications (snd (remove x w1))) with (notifications w1). congruence.
Qed.

Lemma withContainer_last (b : list node) (c : nat) (toasts : list node) (w : window) :
  body w = b ++ [containerNode c toasts] ->
  flat_map (selectAll [js "toast-container"]) b = [] ->
  withContainer w = w.
Proof.
  intros Eb Hb. unfold withContainer. now rewrite (toastContainer_last b c toasts w Eb Hb).
Qed.

Lemma forEach_convertAlert_result (parseHTML : jsstring -> list html) (w0 : window)
      (l : list nat) :
  forall (b : list node) (c : nat) (toasts : list node) (w : window),
    wellFormed w = true ->
    hasBootstrapToast w = true ->
    notifications w = Some BudgeteerNotifications ->
    body w = b ++ [containerNode c toasts] ->
    flat_map (selectAll [js "toast-container"]) b = [] ->
    NoDup l ->
    (forall x, In x l -> exists n, findIn x (body w0) = Some n /\ findIn x b = Some n) ->
    (forall x y, In x l -> In y l -> x <> y -> ~ In x (idsOf (flat_map (cuts y) b))) ->
    exists more,
      fst (forEach l (convertAlert parseHTML) w) = Normal tt
      /\ body (snd (forEach l (convertAlert parseHTML) w))
         = pruneAll l b ++ [containerNode c (toasts ++ more)]
      /\ Forall2 (isToastOfAlert parseHTML w0) l more.
Proof.
  induction l as [|x l IH]; intros b c toasts w Hwf Hb Eo Eb Hsel Hnd Hnodes Hpairs.
  - exists []. rewrite app_nil_r. repeat split; [assumption | constructor].
  - inversion Hnd as [|? ? Hxl Hl]; subst.
    destruct (Hnodes x (or_introl eq_refl)) as (n & En0 & En).
    assert (findIn x (body w ++ detached w) = Some n) as Enw.
    { now rewrite Eb, !findIn_app, En. }
    pose proof (withContainer_last b c toasts w Eb Hsel) as Eww.
    destruct (convertAlert_step parseHTML x n b c toasts w Hwf Hb Eo
                (eq_trans (f_equal body Eww) Eb) Hsel Enw (findIn_present x b n En))
      as (s & Es & E1 & E2 & E3 & E4 & E5).
    rewrite forEach_cons.
    destruct (convertAlert parseHTML x w) as [[[]|e] w2] eqn:Ec; cbn [fst snd] in *;
      [|discriminate].
    destruct (IH (flat_map (prune x) b) c _ w2 E3 E4 E5 E2
                 (select_prune_nil _ x b Hsel) Hl) as (more & I1 & I2 & I3).
    + intros y Hy. destruct (Hnodes y (or_intror Hy)) as (ny & Ey0 & Ey).
      exists ny. split; [assumption|].
      assert (x <> y) as Hxy by (intros ->; contradiction).
      apply findIn_prune_other; [assumption | |].
      * intro Hin. apply (Hpairs x y (or_introl eq_refl) (or_intror Hy) Hxy).
        now apply (findIn_in_cuts y b ny).
      * apply (Hpairs y x (or_intror Hy) (or_introl eq_refl)). congruence.
    + intros y z Hy Hz Hyz Hin. apply cuts_forest_prune in Hin.
      exact (Hpairs y z (or_intror Hy) (or_intror Hz) Hyz Hin).
    + exists (toastNode parseHTML (severityName s) (glyph s ++ trim (textContent n))
                        (next_id (withContainer w)) :: more).
      split; [assumption|]. split.
      * rewrite I2, <- app_assoc. reflexivity.
      * constructor; [|assumption]. exists n, s, (next_id (withContainer w)). auto.
Qed.

(** X14: what the handler makes of a page, on a host with the widget and
    the script's object.  When the page has no toast container and none of
    its hidden alerts lies in another, the handler runs to its end, the
    page loses its hidden alerts and nothing else at the top of the body,
    and gains one container as the last child of the body, which holds one
    toast per hidden alert, in the order of the alerts in the page; each
    toast is of the category of its alert and reads the trimmed text the
    alert had. *)
Theorem handler_result (parseHTML : jsstring -> list html)
        (w : window) (a : nat) (rest : list nat) :
  wellFormed w = true ->
  hasBootstrapToast w = true ->
  notifications w = Some BudgeteerNotifications ->
  toastContainer w = None ->
  hiddenAlerts w = a :: rest ->
  (forall x y, In x (hiddenAlerts w) -> In y (hiddenAlerts w) -> x <> y ->
               ~ In x (idsOf (flat_map (cuts y) (body w)))) ->
  exists toasts,
    fst (onDOMContentLoaded parseHTML w) = Normal tt
    /\ body (snd (onDOMContentLoaded parseHTML w))
       = pruneAll (hiddenAlerts w) (body w) ++ [containerNode (next_id w) toasts]
    /\ Forall2 (isToastOfAlert parseHTML w) (hiddenAlerts w) toasts.
Proof.
  intros Hwf Hb Eo Ec Ea Hpairs.
  assert (onDOMContentLoaded parseHTML w
          = forEach (hiddenAlerts w) (convertAlert parseHTML) w) as E0 by reflexivity.
  rewrite E0. clear E0.
  assert (NoDup (hiddenAlerts w)) as Hnd.
  { apply NoDup_select. now apply wellFormed_body in Hwf as [Hnd _]. }
  assert (forall x, In x (hiddenAlerts w) -> exists n, findIn x (body w) = Some n) as Hnodes.
  { intros x Hx. apply present_findIn.
    now apply selectAll_idsOf with [js "alert"; js "d-none"]. }
  rewrite Ea in *. inversion Hnd as [|? ? Harest Hrest]; subst.
  destruct (Hnodes a (or_introl eq_refl)) as (n & En).
  assert (body (withContainer w) = body w ++ [containerNode (next_id w) []]) as Eb.
  { unfold withContainer. now rewrite Ec. }
  assert (next_id (withContainer w) = S (next_id w)) as En1.
  { unfold withContainer. now rewrite Ec. }
  pose proof (toastContainer_None w Ec) as Hsel.
  assert (findIn a (body w ++ detached w) = Some n) as Enw by now rewrite findIn_app, En.
  destruct (convertAlert_step parseHTML a n (body w) (next_id w) [] w Hwf Hb Eo Eb Hsel Enw
              (findIn_present a (body w) n En))
    as (s & Es & E1 & E2 & E3 & E4 & E5).
  rewrite forEach_cons.
  destruct (convertAlert parseHTML a w) as [[[]|e] w2] eqn:Eca; cbn [fst snd] in *;
    [|discriminate].
  destruct (forEach_convertAlert_result parseHTML w rest
              (flat_map (prune a) (body w)) (next_id w) _ w2 E3 E4 E5 E2
              (select_prune_nil _ a (body w) Hsel) Hrest) as (more & I1 & I2 & I3).
  - intros y Hy. destruct (Hnodes y (or_intror Hy)) as (ny & Ey).
    exists ny. split; [assumption|].
    assert (a <> y) as Hay by (intros ->; contradiction).
    apply findIn_prune_other; [assumption | |].
    + intro Hin. apply (Hpairs a y (or_introl eq_refl) (or_intror Hy) Hay).
      now apply (findIn_in_cuts y (body w) ny).
    + apply (Hpairs y a (or_intror Hy) (or_introl eq_refl)). congruence.
  - intros y z Hy Hz Hyz Hin. apply cuts_forest_prune in Hin.
    exact (Hpairs y z (or_intror Hy) (or_intror Hz) Hyz Hin).
  - exists (toastNode parseHTML (severityName s) (glyph s ++ trim (textContent n))
                      (next_id (withContainer w)) :: more).
    split; [assumption|]. split.
    + rewrite I2. reflexivity.
    + constructor; [|assumption]. exists n, s, (next_id (withContainer w)). auto.
Qed.

Lemma handler_result_witness :
  wellFormed twoAlertsPage = true
  /\ hasBootstrapToast twoAlertsPage = true
  /\ notifications twoAlertsPage = Some BudgeteerNotifications
  /\ toastContainer twoAlertsPage = None
  /\ hiddenAlerts twoAlertsPage = [0; 2]
  /\ (forall x y, In x (hiddenAlerts twoAlertsPage) -> In y (hiddenAlerts twoAlertsPage) ->
                  x <> y -> ~ In x (idsOf (flat_map (cuts y) (body twoAlertsPage))))
  /\ exists toasts,
       fst (onDOMContentLoaded parseFragment twoAlertsPage) = Normal tt
       /\ body (snd (onDOMContentLoaded parseFragment twoAlertsPage))
          = pruneAll (hiddenAlerts twoAlertsPage) (body twoAlertsPage)
              ++ [containerNode (next_id twoAlertsPage) toasts]
       /\ Forall2 (isToastOfAlert parseFragment twoAlertsPage)
                  (hiddenAlerts twoAlertsPage) toasts.
Proof.
  assert (forall x y, In x (hiddenAlerts twoAlertsPage) -> In y (hiddenAlerts twoAlertsPage) ->
                      x <> y -> ~ In x (idsOf (flat_map (cuts y) (body twoAlertsPage))))
    as Hpairs.
  { intros x y [<-|[<-|[]]] [<-|[<-|[]]] Hxy; try congruence;
      vm_compute; intros [H|[]]; discriminate H. }
  split; [reflexivity|]. split; [reflexivity|]. split; [reflexivity|].
  split; [reflexivity|]. split; [reflexivity|]. split; [exact Hpairs|].
  apply (handler_result parseFragment twoAlertsPage 0 [2]);
    [reflexivity | reflexivity | reflexivity | reflexivity | reflexivity | exact Hpairs].
Defined.

Example two_alerts :
  body (snd (onDOMContentLoaded parseFragment twoAlertsPage))
  = [Element 1 (js "p") [] [Text (js "Dashboard")];
     containerNode 3
       [toastNode parseFragment (js "success") (glyphSuccess ++ js "Saved") 4;
        toastNode parseFragment (js "danger") (glyphDanger ++ js "Overdrawn") 8]].
Proof. reflexivity. Qed.
